(** * Ancestor collection and common-ancestor search of go-filecoin's [chain] package

    A shallow embedding of [chain/get_ancestors.go]:
    [GetRecentAncestors], [CollectTipSetsOfHeightAtLeast],
    [CollectAtMostNTipSets], [FindCommonAncestor] and [iterToHeightOrLower].

    Conventions of the embedding.
    - A Go function returning [(v, error)] returns a [res]; a Go run-time
      panic (index out of range) is the outcome [Panic]; a loop whose number
      of turns depends on the store takes a [fuel] argument and yields
      [OutOfFuel] when it is used up.
    - A [*TipsetIterator] is a mutable object: the functions that receive one
      run in a state monad whose state holds the iterator and the log of
      [GetTipSet] calls made against the store so far.
    - [uint64] values are integers in [Z], the subtraction of the source being
      written with its wrap-around ([sub64]).
    - The tracing span and the cancellation context of the source carry no
      data used by the algorithms and are left out. *)

From Stdlib Require Import ZArith List Bool Lia Arith.
From Stdlib Require String.
Import ListNotations.
Open Scope Z_scope.

Import String.StringSyntax.
Delimit Scope string_scope with string.

Definition string : Set := String.string.

(** ** Errors and outcomes *)

(** The values of Go's [error] that reach this package.  [errIterComplete]
    and [errLookback] are the two errors created here with [errors.New];
    the other three carry the message of a failure reported by the store
    or by a tipset accessor. *)
Inductive error : Type :=
| errIterComplete
| errLookback
| StoreError (msg : string)
| HeightError (msg : string)
| ParentsError (msg : string).

Inductive res (A : Type) : Type :=
| Ok (a : A)
| Err (e : error)
| Panic
| OutOfFuel.

Arguments Ok {A} a.
Arguments Err {A} e.
Arguments Panic {A}.
Arguments OutOfFuel {A}.

(** ** The [types] package *)

Module types.

Definition Cid := N.

(** Modelled from the spec: [types.SortedCidSet] (the TipSetKey) is not
    under src/.  Section 3 and section 9: an ordered, deduplicated sequence
    of block identifiers, compared as a sequence. *)
Definition TipSetKey := list Cid.

Definition Len (k : TipSetKey) : Z := Z.of_nat (length k).

Definition key_eqb (a b : TipSetKey) : bool :=
  if list_eq_dec N.eq_dec a b then true else false.

(** Modelled from the spec: [types.TipSet] is not under src/.  Section 3:
    a tipset is identified by its TipSetKey and has a height and a parent
    TipSetKey (empty for genesis); section 7: its height may fail to be
    computed.  The source also checks the error of [Parents]. *)
Record TipSet : Type := mkTipSet {
  Key : TipSetKey;
  height_or_failure : string + Z;
  parents_or_failure : string + TipSetKey
}.

Definition Height (ts : TipSet) : res Z :=
  match height_or_failure ts with
  | inl msg => Err (HeightError msg)
  | inr h => Ok h
  end.

Definition Parents (ts : TipSet) : res TipSetKey :=
  match parents_or_failure ts with
  | inl msg => Err (ParentsError msg)
  | inr k => Ok k
  end.

(** Section 3: two tipsets are equal iff their TipSetKeys are equal. *)
Definition Equals (a b : TipSet) : bool := key_eqb (Key a) (Key b).

(** Modelled from the spec: [types.BlockHeight] is not under src/.
    Section 3: a non-negative integer scalar whose subtraction clamps
    to 0. *)
Definition BlockHeight := Z.

Definition NewBlockHeight (h : Z) : BlockHeight := h.

Definition Sub (a b : BlockHeight) : BlockHeight := Z.max 0 (a - b).

Definition LessThan (a b : BlockHeight) : bool := a <? b.

End types.

Import types.

(** [uint64] subtraction. *)
Definition sub64 (a b : Z) : Z := (a - b) mod 2 ^ 64.

(** ** The chain store *)

(** Modelled from the spec: the [ReadStore] interface is not under src/.
    Section 6: [GetHead() -> TipSetKey] and
    [GetTipSet(TipSetKey) -> Result<TipSet, StoreError>], read-consistent
    during one traversal. *)
Record ReadStore : Type := mkReadStore {
  head : TipSetKey;
  tipsets : TipSetKey -> string + TipSet
}.

Definition GetHead (st : ReadStore) : TipSetKey := head st.

Definition GetTipSet (st : ReadStore) (k : TipSetKey) : res TipSet :=
  match tipsets st k with
  | inl msg => Err (StoreError msg)
  | inr ts => Ok ts
  end.

(** The keys passed to [GetTipSet], oldest first. *)
Definition Log := list TipSetKey.

(** ** The state monad of the traversals *)

Definition M (S A : Type) : Type := S -> res A * S.

Definition ret {S A : Type} (a : A) : M S A := fun s => (Ok a, s).

Definition bind {S A B : Type} (m : M S A) (f : A -> M S B) : M S B :=
  fun s =>
    match m s with
    | (Ok a, s') => f a s'
    | (Err e, s') => (Err e, s')
    | (Panic, s') => (Panic, s')
    | (OutOfFuel, s') => (OutOfFuel, s')
    end.

Definition fail {S A : Type} (e : error) : M S A := fun s => (Err e, s).

Definition panic {S A : Type} : M S A := fun s => (Panic, s).

Definition out_of_fuel {S A : Type} : M S A := fun s => (OutOfFuel, s).

Definition lift {S A : Type} (r : res A) : M S A := fun s => (r, s).

(** [if err != nil { return err }] *)
Definition check {S : Type} (err : option error) : M S unit :=
  match err with
  | Some e => fail e
  | None => ret tt
  end.

Declare Scope monad_scope.
Delimit Scope monad_scope with monad.
Notation "x <- m ;; k" := (bind m (fun x => k))
  (at level 61, m at next level, right associativity) : monad_scope.
Notation "m ;;; k" := (bind m (fun _ => k))
  (at level 61, right associativity) : monad_scope.
Open Scope monad_scope.

(** ** The ancestor iterator *)

(** Modelled from the spec: [TipsetIterator], [IterAncestors], [Value],
    [Complete] and [Next] are not under src/.  Section 3: the cursor holds a
    reference to the store, the current tipset and a completion flag.
    Section 4.1: [Next] reads the parent key of the current tipset; if it is
    empty the iterator becomes complete with no error; otherwise the key is
    resolved with [GetTipSet], on success the result becomes the current
    value and on failure the step fails with the store's error.  The spec
    leaves the position after a failed step undefined; here it is left as it
    was, which is what lets [CollectTipSetsOfHeightAtLeast] abort with the
    error as section 4.2 says.  What depends on the state after a failed
    step is stated further down for [Next_any], which takes that state as an
    argument. *)
Record TipsetIterator : Type := mkIter {
  store : ReadStore;
  value : TipSet;
  complete : bool
}.

Definition IterAncestors (st : ReadStore) (start : TipSet) : TipsetIterator :=
  {| store := st; value := start; complete := false |}.

Definition IterSt : Type := TipsetIterator * Log.

Definition Value : M IterSt TipSet := fun s => (Ok (value (fst s)), s).

Definition Complete : M IterSt bool := fun s => (Ok (complete (fst s)), s).

(** [Next] returns Go's [error] ([None] for [nil]) next to the new state. *)
Definition Next : M IterSt (option error) :=
  fun s =>
    let (it, log) := s in
    match Parents (value it) with
    | Ok parentKey =>
        if Len parentKey =? 0
        then (Ok None, ({| store := store it; value := value it; complete := true |}, log))
        else
          match GetTipSet (store it) parentKey with
          | Ok ts =>
              (Ok None, ({| store := store it; value := ts; complete := complete it |},
                         log ++ [parentKey]))
          | Err e => (Ok (Some e), (it, log ++ [parentKey]))
          | Panic => (Panic, (it, log ++ [parentKey]))
          | OutOfFuel => (OutOfFuel, (it, log ++ [parentKey]))
          end
    | Err e => (Ok (Some e), s)
    | Panic => (Panic, s)
    | OutOfFuel => (OutOfFuel, s)
    end.

(** ** [CollectTipSetsOfHeightAtLeast] *)

(** The loop [for ; !iterator.Complete(); err = iterator.Next()]: a turn is
    the condition, the body, then the post statement.  [ret_] and [err] are
    the variables [ret] and [err] of the source. *)
Fixpoint CollectTipSetsOfHeightAtLeast_loop (fuel : nat) (minHeight : BlockHeight)
    (ret_ : list TipSet) (err : option error) : M IterSt (list TipSet) :=
  match fuel with
  | O => out_of_fuel
  | S fuel' =>
      c <- Complete ;;
      if c then ret ret_
      else
        check err ;;;
        v <- Value ;;
        h <- lift (Height v) ;;
        if LessThan (NewBlockHeight h) minHeight then ret ret_
        else
          err' <- Next ;;
          CollectTipSetsOfHeightAtLeast_loop fuel' minHeight (ret_ ++ [v]) err'
  end.

Definition CollectTipSetsOfHeightAtLeast (fuel : nat) (minHeight : BlockHeight)
  : M IterSt (list TipSet) :=
  CollectTipSetsOfHeightAtLeast_loop fuel minHeight [] None.

(** ** [CollectAtMostNTipSets] *)

(** [for i := uint(0); i < n && !iterator.Complete(); i++], by recursion on
    the number [n - i] of turns left. *)
Fixpoint CollectAtMostNTipSets_loop (left : nat) (ret_ : list TipSet)
  : M IterSt (list TipSet) :=
  match left with
  | O => ret ret_
  | S left' =>
      c <- Complete ;;
      if c then ret ret_
      else
        v <- Value ;;
        err <- Next ;;
        check err ;;;
        CollectAtMostNTipSets_loop left' (ret_ ++ [v])
  end.

Definition CollectAtMostNTipSets (n : N) : M IterSt (list TipSet) :=
  CollectAtMostNTipSets_loop (N.to_nat n) [].

(** ** [GetRecentAncestors] *)

(** Runs a traversal on an iterator local to the caller. *)
Definition with_iterator {A : Type} (it : TipsetIterator) (m : M IterSt A) : M Log A :=
  fun log => let '(r, (_, log')) := m (it, log) in (r, log').

(** [chainReader.GetTipSet], with the call recorded. *)
Definition readTipSet (st : ReadStore) (k : TipSetKey) : M Log TipSet :=
  fun log => (GetTipSet st k, log ++ [k]).

(** [s[i]] on a slice: out of range is a run-time panic. *)
Definition index {S A : Type} (s : list A) (i : Z) : M S A :=
  if (0 <=? i) && (i <? Z.of_nat (length s))
  then match nth_error s (Z.to_nat i) with
       | Some a => ret a
       | None => panic
       end
  else panic.

Definition earliestAncestorHeight (childBH ancestorRoundsNeeded : BlockHeight)
  : BlockHeight :=
  let earliest := Sub childBH ancestorRoundsNeeded in
  if LessThan earliest (NewBlockHeight 0) then NewBlockHeight 0 else earliest.

Definition GetRecentAncestors (fuel : nat) (base : TipSet) (chainReader : ReadStore)
    (childBH ancestorRoundsNeeded : BlockHeight) (lookback : N)
  : M Log (list TipSet) :=
  if (lookback =? 0)%N then fail errLookback
  else
    let earliest := earliestAncestorHeight childBH ancestorRoundsNeeded in
    let iterator := IterAncestors chainReader base in
    provingPeriodAncestors <-
      with_iterator iterator (CollectTipSetsOfHeightAtLeast fuel earliest) ;;
    lastTs <- index provingPeriodAncestors
                    (Z.of_nat (length provingPeriodAncestors) - 1) ;;
    firstExtraRandomnessAncestorsCids <- lift (Parents lastTs) ;;
    if Len firstExtraRandomnessAncestorsCids =? 0 then ret provingPeriodAncestors
    else
      lookBackTS <- readTipSet chainReader firstExtraRandomnessAncestorsCids ;;
      let iterator := IterAncestors chainReader lookBackTS in
      extraRandomnessAncestors <-
        with_iterator iterator (CollectAtMostNTipSets lookback) ;;
      ret (provingPeriodAncestors ++ extraRandomnessAncestors).

(** [consensus.AncestorRoundsNeeded] and [sampling.LookbackParameter] are
    constants of packages that are not under src/; they are arguments here. *)
Definition GetRecentAncestorsOfHeaviestChain (fuel : nat) (chainReader : ReadStore)
    (descendantBlockHeight : BlockHeight)
    (AncestorRoundsNeeded : Z) (LookbackParameter : N)
  : M Log (list TipSet) :=
  let head := GetHead chainReader in
  headTipSet <- readTipSet chainReader head ;;
  let ancestorHeight := NewBlockHeight AncestorRoundsNeeded in
  GetRecentAncestors fuel headTipSet chainReader descendantBlockHeight
    ancestorHeight LookbackParameter.

(** ** [iterToHeightOrLower] and [FindCommonAncestor] *)

Fixpoint iterToHeightOrLower (fuel : nat) (endHeight : Z) : M IterSt unit :=
  match fuel with
  | O => out_of_fuel
  | S fuel' =>
      c <- Complete ;;
      if c then fail errIterComplete
      else
        ts <- Value ;;
        height <- lift (Height ts) ;;
        if height <=? endHeight then ret tt
        else
          err <- Next ;;
          check err ;;;
          iterToHeightOrLower fuel' endHeight
  end.

(** The two iterators of [FindCommonAncestor] (two distinct objects) and the
    log. *)
Record FcaSt : Type := mkFcaSt {
  oldIter : TipsetIterator;
  newIter : TipsetIterator;
  reads : Log
}.

Definition on_old {A : Type} (m : M IterSt A) : M FcaSt A :=
  fun s =>
    let '(r, (it, log)) := m (oldIter s, reads s) in
    (r, {| oldIter := it; newIter := newIter s; reads := log |}).

Definition on_new {A : Type} (m : M IterSt A) : M FcaSt A :=
  fun s =>
    let '(r, (it, log)) := m (newIter s, reads s) in
    (r, {| oldIter := oldIter s; newIter := it; reads := log |}).

(** The body of the loop of [FindCommonAncestor]: [Some ts] when it returns
    [ts], [None] when the loop goes round again. *)
Definition FindCommonAncestor_body (fuel : nat) : M FcaSt (option TipSet) :=
  old <- on_old Value ;;
  new <- on_new Value ;;
  oldHeight <- lift (Height old) ;;
  newHeight <- lift (Height new) ;;
  if Equals old new then ret (Some old)
  else if oldHeight <? newHeight then
    on_new (iterToHeightOrLower fuel oldHeight) ;;; ret None
  else if newHeight <? oldHeight then
    on_old (iterToHeightOrLower fuel newHeight) ;;; ret None
  else
    on_old (iterToHeightOrLower fuel (sub64 oldHeight 1)) ;;;
    on_new (iterToHeightOrLower fuel (sub64 newHeight 1)) ;;;
    ret None.

Fixpoint FindCommonAncestor (fuel : nat) : M FcaSt TipSet :=
  match fuel with
  | O => out_of_fuel
  | S fuel' =>
      r <- FindCommonAncestor_body fuel' ;;
      match r with
      | Some ts => ret ts
      | None => FindCommonAncestor fuel'
      end
  end.

(** ** Chains in a store *)

(** [path st ts l z]: following parent links in [st] from [ts] visits
    exactly the tipsets [l], the last of which is [z]; every parent key on
    the way is non-empty and resolves without error. *)
Inductive path (st : ReadStore) : TipSet -> list TipSet -> TipSet -> Prop :=
| path_end : forall ts, path st ts [ts] ts
| path_link : forall ts k p l z,
    Parents ts = Ok k -> k <> [] -> GetTipSet st k = Ok p ->
    path st p l z -> path st ts (ts :: l) z.

(** The genesis tipset has no parents and height 0. *)
Definition is_genesis (g : TipSet) : Prop :=
  Parents g = Ok [] /\ Height g = Ok 0.

(** [ancestry st ts l]: [l] is the chain of [ts] down to and including a
    tipset without parents, every link resolving without error. *)
Definition ancestry (st : ReadStore) (ts : TipSet) (l : list TipSet) : Prop :=
  exists g, path st ts l g /\ Parents g = Ok [].

Definition has_height (ts : TipSet) : Prop := exists h, Height ts = Ok h.

Definition height_at_least (minHeight : Z) (ts : TipSet) : bool :=
  match Height ts with
  | Ok h => negb (h <? minHeight)
  | _ => false
  end.

Definition height_below (minHeight : Z) (ts : TipSet) : Prop :=
  exists h, Height ts = Ok h /\ h < minHeight.

(** Heights of a list of tipsets strictly decrease from left to right. *)
Fixpoint descending (l : list TipSet) : Prop :=
  match l with
  | [] => True
  | a :: l' =>
      match l' with
      | [] => True
      | b :: _ =>
          (exists ha hb, Height a = Ok ha /\ Height b = Ok hb /\ hb < ha)
      end /\ descending l'
  end.

Fixpoint take_while {A : Type} (f : A -> bool) (l : list A) : list A :=
  match l with
  | [] => []
  | a :: l' => if f a then a :: take_while f l' else []
  end.

Fixpoint drop_while {A : Type} (f : A -> bool) (l : list A) : list A :=
  match l with
  | [] => []
  | a :: l' => if f a then drop_while f l' else l
  end.

(** The store read [Next] makes when it leaves a tipset. *)
Definition next_read (ts : TipSet) : Log :=
  match Parents ts with
  | Ok k => if Len k =? 0 then [] else [k]
  | _ => []
  end.

Definition reads_of (l : list TipSet) : Log := flat_map next_read l.

(** ** A store holding one tipset per height *)

(** The tipset of height [h] has the single block [h]; its parent is the
    tipset of height [h - 1], and the one of height 0 has none. *)
Definition tipset_at (h : Z) : TipSet :=
  {| Key := [Z.to_N h];
     height_or_failure := inr h;
     parents_or_failure := inr (if h =? 0 then [] else [Z.to_N (h - 1)]) |}.

Definition not_found : string := "tipset not found"%string.

Definition linear_store (top : Z) : ReadStore :=
  {| head := [Z.to_N top];
     tipsets := fun k =>
       match k with
       | [c] => if (Z.of_N c <=? top) then inr (tipset_at (Z.of_N c))
                else inl not_found
       | _ => inl not_found
       end |}.

(** What is left to visit from an iterator: nothing once it is complete,
    otherwise the chain of its current tipset. *)
Definition remaining (it : TipsetIterator) (l : list TipSet) : Prop :=
  (complete it = true /\ l = []) \/
  (complete it = false /\ ancestry (store it) (value it) l).

(** The tipsets of heights [n], [n - 1], ..., 0 of a [linear_store]. *)
Fixpoint chain_down (n : nat) : list TipSet :=
  match n with
  | O => [tipset_at 0]
  | S m => tipset_at (Z.of_nat n) :: chain_down m
  end.

(** A store in which the tipset of height 4 is missing. *)
Definition broken_store : ReadStore :=
  {| head := [9%N];
     tipsets := fun k =>
       match k with
       | [c] => if (Z.of_N c =? 4) then inl not_found
                else tipsets (linear_store 9) k
       | _ => inl not_found
       end |}.

(** The error [e] is the one [Height] or [Next] reports at the position
    [it]. *)
Definition reported_at (it : TipsetIterator) (e : error) : Prop :=
  Height (value it) = Err e
  \/ exists log0 s1, Next (it, log0) = (Ok (Some e), s1).

(** A tipset without parents, made of the single block [c], at height [h]. *)
Definition lone_tipset (c : N) (h : Z) : TipSet :=
  {| Key := [c]; height_or_failure := inr h; parents_or_failure := inr [] |}.

Definition empty_store : ReadStore :=
  {| head := []; tipsets := fun _ => inl not_found |}.

(** Two chains that never meet, each made of one tipset of height 1. *)
Definition disjoint_search : FcaSt :=
  {| oldIter := IterAncestors empty_store (lone_tipset 1 1);
     newIter := IterAncestors empty_store (lone_tipset 2 1);
     reads := [] |}.

(** Two chains rooted at two distinct tipsets of height 0. *)
Definition two_genesis_search : FcaSt :=
  {| oldIter := IterAncestors empty_store (lone_tipset 1 0);
     newIter := IterAncestors empty_store (lone_tipset 2 0);
     reads := [] |}.

(** The heights of the tipsets of [l] are [uint64] values. *)
Definition valid_heights (l : list TipSet) : Prop :=
  Forall (fun ts => exists h, Height ts = Ok h /\ 0 <= h < 2 ^ 64) l.

(** [l] is an error-free chain from [a] down to [z], which has no parents,
    with strictly decreasing [uint64] heights. *)
Definition valid_chain (st : ReadStore) (a : TipSet) (l : list TipSet) (z : TipSet)
  : Prop :=
  path st a l z /\ Parents z = Ok [] /\ descending l /\ valid_heights l.

(** Two distinct tipsets of height 0. *)
Definition stuck (a b : TipSet) : Prop :=
  Height a = Ok 0 /\ Height b = Ok 0 /\ Equals a b = false.

(** The height of [ts] is defined and above [endHeight]. *)
Definition above (endHeight : Z) (ts : TipSet) : Prop :=
  exists h, Height ts = Ok h /\ endHeight < h.

(** Tipsets of the two chains that are equal have the same height. *)
Definition same_height_when_equal (l1 l2 : list TipSet) : Prop :=
  forall x x', In x l1 -> In x' l2 -> Equals x x' = true -> Height x = Height x'.

(** [x] of the first chain and [x'] of the second are the same tipset. *)
Definition common (l1 l2 : list TipSet) (x x' : TipSet) : Prop :=
  In x l1 /\ In x' l2 /\ Equals x x' = true.

(** How the tipsets collected so far relate to the iterator: the last one
    collected has no parents when the iterator is complete, and otherwise
    its parent key is the last key read and resolves to the tipset the
    iterator stands on. *)
Definition stands_after (acc : list TipSet) (it : TipsetIterator) (log : Log) : Prop :=
  acc = [] \/
  exists pre z,
    acc = pre ++ [z]
    /\ ((complete it = true /\ Parents z = Ok [])
        \/ (complete it = false /\
            exists k log0,
              Parents z = Ok k /\ k <> []
              /\ GetTipSet (store it) k = Ok (value it) /\ log = log0 ++ [k])).

(** A side branch of the [linear_store] chain: a tipset of height 8 on a
    tipset of height 6 on the tipset of height 4 of the main chain; no
    tipset of this branch has height 7 or 5. *)
Definition fork_tipset_8 : TipSet :=
  {| Key := [108%N]; height_or_failure := inr 8; parents_or_failure := inr [106%N] |}.

Definition fork_tipset_6 : TipSet :=
  {| Key := [106%N]; height_or_failure := inr 6; parents_or_failure := inr [4%N] |}.

Definition fork_store : ReadStore :=
  {| head := [9%N];
     tipsets := fun k =>
       match k with
       | [c] => if (c =? 108)%N then inr fork_tipset_8
                else if (c =? 106)%N then inr fork_tipset_6
                else tipsets (linear_store 9) k
       | _ => inl not_found
       end |}.

Definition fork_chain : list TipSet :=
  fork_tipset_8 :: fork_tipset_6 :: chain_down 4.

(** A tipset whose height cannot be computed. *)
Definition malformed_tipset : TipSet :=
  {| Key := [7%N]; height_or_failure := inl not_found; parents_or_failure := inr [] |}.

(** The list of a result, with [f] applied to it. *)
Definition res_map {A B : Type} (f : A -> B) (r : res A) : res B :=
  match r with
  | Ok a => Ok (f a)
  | Err e => Err e
  | Panic => Panic
  | OutOfFuel => OutOfFuel
  end.

(** ** The iterator with any state after a failed step *)

(** Modelled from the spec: as [Next], but the iterator a failed step leaves
    behind is [after_failure it], for any function [after_failure]: section
    4.1 leaves that position undefined and section 3 allows the iterator to
    become complete then.  The step still returns the error. *)
Definition Next_any (after_failure : TipsetIterator -> TipsetIterator)
  : M IterSt (option error) :=
  fun s =>
    let (it, log) := s in
    match Parents (value it) with
    | Ok parentKey =>
        if Len parentKey =? 0
        then (Ok None, ({| store := store it; value := value it; complete := true |}, log))
        else
          match GetTipSet (store it) parentKey with
          | Ok ts =>
              (Ok None, ({| store := store it; value := ts; complete := complete it |},
                         log ++ [parentKey]))
          | Err e => (Ok (Some e), (after_failure it, log ++ [parentKey]))
          | Panic => (Panic, (it, log ++ [parentKey]))
          | OutOfFuel => (OutOfFuel, (it, log ++ [parentKey]))
          end
    | Err e => (Ok (Some e), (after_failure it, log))
    | Panic => (Panic, s)
    | OutOfFuel => (OutOfFuel, s)
    end.

(** [CollectTipSetsOfHeightAtLeast], [CollectAtMostNTipSets] and
    [GetRecentAncestors] over that iterator: the same code, [Next_any] in the
    place of [Next]. *)
Fixpoint CollectTipSetsOfHeightAtLeast_loop_any
    (after_failure : TipsetIterator -> TipsetIterator)
    (fuel : nat) (minHeight : BlockHeight)
    (ret_ : list TipSet) (err : option error) : M IterSt (list TipSet) :=
  match fuel with
  | O => out_of_fuel
  | S fuel' =>
      c <- Complete ;;
      if c then ret ret_
      else
        check err ;;;
        v <- Value ;;
        h <- lift (Height v) ;;
        if LessThan (NewBlockHeight h) minHeight then ret ret_
        else
          err' <- Next_any after_failure ;;
          CollectTipSetsOfHeightAtLeast_loop_any after_failure fuel' minHeight
            (ret_ ++ [v]) err'
  end.

Definition CollectTipSetsOfHeightAtLeast_any
    (after_failure : TipsetIterator -> TipsetIterator)
    (fuel : nat) (minHeight : BlockHeight) : M IterSt (list TipSet) :=
  CollectTipSetsOfHeightAtLeast_loop_any after_failure fuel minHeight [] None.

Fixpoint CollectAtMostNTipSets_loop_any
    (after_failure : TipsetIterator -> TipsetIterator)
    (left : nat) (ret_ : list TipSet) : M IterSt (list TipSet) :=
  match left with
  | O => ret ret_
  | S left' =>
      c <- Complete ;;
      if c then ret ret_
      else
        v <- Value ;;
        err <- Next_any after_failure ;;
        check err ;;;
        CollectAtMostNTipSets_loop_any after_failure left' (ret_ ++ [v])
  end.

Definition CollectAtMostNTipSets_any
    (after_failure : TipsetIterator -> TipsetIterator) (n : N)
  : M IterSt (list TipSet) :=
  CollectAtMostNTipSets_loop_any after_failure (N.to_nat n) [].

Definition GetRecentAncestors_any
    (after_failure : TipsetIterator -> TipsetIterator)
    (fuel : nat) (base : TipSet) (chainReader : ReadStore)
    (childBH ancestorRoundsNeeded : BlockHeight) (lookback : N)
  : M Log (list TipSet) :=
  if (lookback =? 0)%N then fail errLookback
  else
    let earliest := earliestAncestorHeight childBH ancestorRoundsNeeded in
    let iterator := IterAncestors chainReader base in
    provingPeriodAncestors <-
      with_iterator iterator
        (CollectTipSetsOfHeightAtLeast_any after_failure fuel earliest) ;;
    lastTs <- index provingPeriodAncestors
                    (Z.of_nat (length provingPeriodAncestors) - 1) ;;
    firstExtraRandomnessAncestorsCids <- lift (Parents lastTs) ;;
    if Len firstExtraRandomnessAncestorsCids =? 0 then ret provingPeriodAncestors
    else
      lookBackTS <- readTipSet chainReader firstExtraRandomnessAncestorsCids ;;
      let iterator := IterAncestors chainReader lookBackTS in
      extraRandomnessAncestors <-
        with_iterator iterator (CollectAtMostNTipSets_any after_failure lookback) ;;
      ret (provingPeriodAncestors ++ extraRandomnessAncestors).

(** Lines 60 to 63 of [GetRecentAncestors] with the subtraction of
    [types.BlockHeight] as an argument. *)
Definition earliestAncestorHeight_with (sub : BlockHeight -> BlockHeight -> BlockHeight)
    (childBH ancestorRoundsNeeded : BlockHeight) : BlockHeight :=
  let earliest := sub childBH ancestorRoundsNeeded in
  if LessThan earliest (NewBlockHeight 0) then NewBlockHeight 0 else earliest.

(** ** Chains that end on a failure *)

(** [beyond st z e]: a search that has to go past [z] ends with [e]: [z] has
    no parents and [e] is [errIterComplete]; or [e] is the error of the
    parents of [z], of the store on their key, or of the height of the
    tipset the store returns for it. *)
Definition beyond (st : ReadStore) (z : TipSet) (e : error) : Prop :=
  (Parents z = Ok [] /\ e = errIterComplete)
  \/ Parents z = Err e
  \/ (exists k, Parents z = Ok k /\ k <> [] /\ GetTipSet st k = Err e)
  \/ (exists k p, Parents z = Ok k /\ k <> [] /\ GetTipSet st k = Ok p
                   /\ Height p = Err e).

(** [l] is an error-free chain from [a] down to [z] with strictly decreasing
    [uint64] heights; what lies below [z] is not said. *)
Definition open_chain (st : ReadStore) (a : TipSet) (l : list TipSet) (z : TipSet)
  : Prop :=
  path st a l z /\ descending l /\ valid_heights l.

Ltac solve_path :=
  cbn;
  repeat (eapply path_link; [reflexivity | discriminate | reflexivity | ]);
  apply path_end.

(** ** Basic facts on keys, errors and [Next] *)

Lemma Len_zero_iff (k : TipSetKey) : (Len k =? 0) = true <-> k = [].
Proof.
  unfold Len. destruct k; cbn; split; intro H; try reflexivity; try discriminate.
Qed.

Lemma Len_nonempty (k : TipSetKey) : k <> [] -> (Len k =? 0) = false.
Proof.
  intro H. destruct (Len k =? 0) eqn:E; [|reflexivity].
  apply Len_zero_iff in E. contradiction.
Qed.

Lemma Height_error_kind (ts : TipSet) (e : error) :
  Height ts = Err e -> exists msg, e = HeightError msg.
Proof.
  unfold Height. destruct (height_or_failure ts); intro H; inversion H; eauto.
Qed.

Lemma Height_cases (ts : TipSet) :
  (exists h, Height ts = Ok h) \/ (exists msg, Height ts = Err (HeightError msg)).
Proof.
  unfold Height. destruct (height_or_failure ts); eauto.
Qed.

Lemma Parents_cases (ts : TipSet) :
  (exists k, Parents ts = Ok k) \/ (exists msg, Parents ts = Err (ParentsError msg)).
Proof.
  unfold Parents. destruct (parents_or_failure ts); eauto.
Qed.

Lemma GetTipSet_cases (st : ReadStore) (k : TipSetKey) :
  (exists ts, GetTipSet st k = Ok ts) \/ (exists msg, GetTipSet st k = Err (StoreError msg)).
Proof.
  unfold GetTipSet. destruct (tipsets st k); eauto.
Qed.

Lemma Next_link (st : ReadStore) (ts p : TipSet) (k : TipSetKey) (c : bool) (log : Log) :
  Parents ts = Ok k -> k <> [] -> GetTipSet st k = Ok p ->
  Next (mkIter st ts c, log) = (Ok None, (mkIter st p c, log ++ [k])).
Proof.
  intros HP Hk HG. unfold Next. cbn. rewrite HP, (Len_nonempty k Hk), HG. reflexivity.
Qed.

Lemma Next_genesis (st : ReadStore) (g : TipSet) (c : bool) (log : Log) :
  Parents g = Ok [] ->
  Next (mkIter st g c, log) = (Ok None, (mkIter st g true, log)).
Proof.
  intros HP. unfold Next. cbn. rewrite HP. reflexivity.
Qed.

Lemma Next_store_failure (st : ReadStore) (ts : TipSet) (k : TipSetKey) (c : bool)
    (log : Log) (e : error) :
  Parents ts = Ok k -> k <> [] -> GetTipSet st k = Err e ->
  Next (mkIter st ts c, log) = (Ok (Some e), (mkIter st ts c, log ++ [k])).
Proof.
  intros HP Hk HG. unfold Next. cbn. rewrite HP, (Len_nonempty k Hk), HG. reflexivity.
Qed.

Lemma next_read_link (ts : TipSet) (k : TipSetKey) :
  Parents ts = Ok k -> k <> [] -> next_read ts = [k].
Proof.
  intros HP Hk. unfold next_read. rewrite HP, (Len_nonempty k Hk). reflexivity.
Qed.

Lemma next_read_genesis (g : TipSet) : Parents g = Ok [] -> next_read g = [].
Proof.
  intros HP. unfold next_read. rewrite HP. reflexivity.
Qed.

Lemma path_nonempty (st : ReadStore) (ts z : TipSet) (l : list TipSet) :
  path st ts l z -> exists l', l = ts :: l'.
Proof.
  intros H. destruct H; eauto.
Qed.

Lemma path_last (st : ReadStore) (ts z : TipSet) (l : list TipSet) :
  path st ts l z -> forall d, last l d = z.
Proof.
  intros H. induction H as [ts|ts k p l z HP Hk HG Hp IH]; intro d; [reflexivity|].
  destruct (path_nonempty _ _ _ _ Hp) as [l' ->].
  change (last (ts :: p :: l') d) with (last (p :: l') d). apply IH.
Qed.

(** ** [CollectTipSetsOfHeightAtLeast] on a chain *)

Lemma CollectTipSetsOfHeightAtLeast_loop_turn (fuel : nat) (minHeight h : Z)
    (acc : list TipSet) (it : TipsetIterator) (log : Log) :
  complete it = false -> Height (value it) = Ok h ->
  CollectTipSetsOfHeightAtLeast_loop (S fuel) minHeight acc None (it, log) =
  if h <? minHeight then (Ok acc, (it, log))
  else bind Next
         (fun err' => CollectTipSetsOfHeightAtLeast_loop fuel minHeight
                        (acc ++ [value it]) err') (it, log).
Proof.
  intros Hc Hh. cbn [CollectTipSetsOfHeightAtLeast_loop].
  unfold bind at 1. unfold Complete at 1. cbn [fst]. rewrite Hc.
  unfold bind at 1. unfold check, ret at 1.
  unfold bind at 1. unfold Value at 1. cbn [fst].
  unfold bind at 1. unfold lift at 1. rewrite Hh.
  unfold LessThan, NewBlockHeight. destruct (h <? minHeight); reflexivity.
Qed.

Lemma CollectTipSetsOfHeightAtLeast_loop_complete (fuel : nat) (minHeight : Z)
    (acc : list TipSet) (err : option error) (it : TipsetIterator) (log : Log) :
  complete it = true ->
  CollectTipSetsOfHeightAtLeast_loop (S fuel) minHeight acc err (it, log) =
  (Ok acc, (it, log)).
Proof.
  intros Hc. cbn [CollectTipSetsOfHeightAtLeast_loop].
  unfold bind at 1. unfold Complete at 1. cbn [fst]. rewrite Hc. reflexivity.
Qed.

Lemma take_drop_while {A : Type} (f : A -> bool) (l : list A) :
  l = take_while f l ++ drop_while f l.
Proof.
  induction l as [|a l IH]; cbn; [reflexivity|].
  destruct (f a); cbn; [f_equal; exact IH | reflexivity].
Qed.

Lemma take_while_all {A : Type} (f : A -> bool) (l : list A) :
  Forall (fun a => f a = true) (take_while f l).
Proof.
  induction l as [|a l IH]; cbn; [constructor|].
  destruct (f a) eqn:E; [constructor; assumption | constructor].
Qed.

Lemma drop_while_head {A : Type} (f : A -> bool) (l : list A) (a : A) (r : list A) :
  drop_while f l = a :: r -> f a = false.
Proof.
  induction l as [|b l IH]; cbn; [discriminate|].
  destruct (f b) eqn:E; [exact IH|]. intro H. inversion H; subst. exact E.
Qed.

Lemma not_at_least_below (minHeight : Z) (ts : TipSet) :
  has_height ts -> height_at_least minHeight ts = false -> height_below minHeight ts.
Proof.
  intros [h Hh] H. unfold height_at_least in H. rewrite Hh in H.
  exists h. split; [exact Hh|]. destruct (h <? minHeight) eqn:E; [lia | discriminate].
Qed.

Lemma height_at_least_eq (minHeight : Z) (ts : TipSet) (h : Z) :
  Height ts = Ok h -> height_at_least minHeight ts = negb (h <? minHeight).
Proof. intros H. unfold height_at_least. rewrite H. reflexivity. Qed.

Lemma descending_tail (a : TipSet) (l : list TipSet) :
  descending (a :: l) -> descending l.
Proof. cbn. intros [_ H]. exact H. Qed.

Lemma descending_app_l (l1 l2 : list TipSet) :
  descending (l1 ++ l2) -> descending l1.
Proof.
  induction l1 as [|a l1 IH]; [intros; exact I|].
  intros H. change ((a :: l1) ++ l2) with (a :: (l1 ++ l2)) in H.
  destruct l1 as [|b l1]; [cbn; auto|].
  destruct H as [H1 H2]. split; [exact H1 | apply IH; exact H2].
Qed.

Lemma CollectTipSetsOfHeightAtLeast_loop_path (st : ReadStore) (minHeight : Z) :
  forall ts l g, path st ts l g -> Parents g = Ok [] -> Forall has_height l ->
  forall fuel acc log, (length l < fuel)%nat ->
  exists it',
    CollectTipSetsOfHeightAtLeast_loop fuel minHeight acc None (mkIter st ts false, log)
    = (Ok (acc ++ take_while (height_at_least minHeight) l),
       (it', log ++ reads_of (take_while (height_at_least minHeight) l)))
    /\ match drop_while (height_at_least minHeight) l with
       | [] => complete it' = true
       | nxt :: _ => complete it' = false /\ value it' = nxt
       end.
Proof.
  intros ts l g Hp. induction Hp as [ts|ts k p l z HP Hk HG Hp IH];
    intros Hg Hh fuel acc log Hf.
  - inversion Hh as [|? ? [h Hts] _]; subst.
    destruct fuel as [|fuel]; [cbn in Hf; lia|].
    rewrite (CollectTipSetsOfHeightAtLeast_loop_turn fuel minHeight h) by (cbn; auto).
    cbn [take_while drop_while].
    rewrite (height_at_least_eq minHeight ts h Hts).
    destruct (h <? minHeight); cbn [negb].
    + exists (mkIter st ts false). rewrite !app_nil_r. split; [reflexivity | cbn; auto].
    + unfold bind. rewrite (Next_genesis st ts false log Hg).
      destruct fuel as [|fuel]; [cbn in Hf; lia|].
      rewrite CollectTipSetsOfHeightAtLeast_loop_complete by reflexivity.
      exists (mkIter st ts true). unfold reads_of. cbn [flat_map value].
      rewrite (next_read_genesis ts Hg). rewrite !app_nil_r. split; reflexivity.
  - inversion Hh as [|? ? [h Hts] Hh']; subst.
    destruct fuel as [|fuel]; [cbn in Hf; lia|].
    rewrite (CollectTipSetsOfHeightAtLeast_loop_turn fuel minHeight h) by (cbn; auto).
    cbn [take_while drop_while].
    rewrite (height_at_least_eq minHeight ts h Hts).
    destruct (h <? minHeight); cbn [negb].
    + exists (mkIter st ts false). rewrite !app_nil_r. split; [reflexivity | cbn; auto].
    + unfold bind. rewrite (Next_link st ts p k false log HP Hk HG). cbv beta iota. cbn [value].
      assert (Hf' : (length l < fuel)%nat) by (cbn in Hf; lia).
      destruct (IH Hg Hh' fuel (acc ++ [ts]) (log ++ [k]) Hf') as [it' [E D]].
      exists it'. split; [|exact D]. etransitivity; [exact E|].
      unfold reads_of. cbn [flat_map]. rewrite (next_read_link ts k HP Hk).
      rewrite <- !app_assoc. reflexivity.
Qed.

Lemma at_least_true (minHeight : Z) (ts : TipSet) :
  height_at_least minHeight ts = true -> exists h, Height ts = Ok h /\ minHeight <= h.
Proof.
  unfold height_at_least. destruct (Height ts) as [h| | |]; try discriminate.
  intros H. exists h. split; [reflexivity|].
  destruct (h <? minHeight) eqn:E; [discriminate | lia].
Qed.

(** ** [CollectAtMostNTipSets] on a chain *)

Lemma CollectAtMostNTipSets_loop_turn (left : nat) (acc : list TipSet)
    (it : TipsetIterator) (log : Log) :
  complete it = false ->
  CollectAtMostNTipSets_loop (S left) acc (it, log) =
  bind Next (fun err => bind (check err)
       (fun _ => CollectAtMostNTipSets_loop left (acc ++ [value it]))) (it, log).
Proof.
  intros Hc. cbn [CollectAtMostNTipSets_loop].
  unfold bind at 1. unfold Complete at 1. cbn [fst]. rewrite Hc.
  unfold bind at 1. unfold Value at 1. reflexivity.
Qed.

Lemma CollectAtMostNTipSets_loop_complete (left : nat) (acc : list TipSet)
    (it : TipsetIterator) (log : Log) :
  complete it = true ->
  CollectAtMostNTipSets_loop left acc (it, log) = (Ok acc, (it, log)).
Proof.
  intros Hc. destruct left as [|left]; [reflexivity|].
  cbn [CollectAtMostNTipSets_loop].
  unfold bind at 1. unfold Complete at 1. cbn [fst]. rewrite Hc. reflexivity.
Qed.

Lemma CollectAtMostNTipSets_loop_link (st : ReadStore) (ts p : TipSet) (k : TipSetKey)
    (left : nat) (acc : list TipSet) (log : Log) :
  Parents ts = Ok k -> k <> [] -> GetTipSet st k = Ok p ->
  CollectAtMostNTipSets_loop (S left) acc (mkIter st ts false, log) =
  CollectAtMostNTipSets_loop left (acc ++ [ts]) (mkIter st p false, log ++ [k]).
Proof.
  intros HP Hk HG. rewrite CollectAtMostNTipSets_loop_turn by reflexivity.
  unfold bind. rewrite (Next_link st ts p k false log HP Hk HG). reflexivity.
Qed.

Lemma CollectAtMostNTipSets_loop_ancestry (st : ReadStore) :
  forall ts l g, path st ts l g -> Parents g = Ok [] ->
  forall n acc log,
  exists it',
    CollectAtMostNTipSets_loop n acc (mkIter st ts false, log)
    = (Ok (acc ++ firstn n l), (it', log ++ reads_of (firstn n l))).
Proof.
  intros ts l g Hp. induction Hp as [ts|ts k p l z HP Hk HG Hp IH];
    intros Hg n acc log.
  - destruct n as [|n].
    + exists (mkIter st ts false). cbn. rewrite !app_nil_r. reflexivity.
    + rewrite CollectAtMostNTipSets_loop_turn by reflexivity.
      unfold bind. rewrite (Next_genesis st ts false log Hg). cbv beta iota.
      unfold check, ret at 1.
      rewrite CollectAtMostNTipSets_loop_complete by reflexivity.
      exists (mkIter st ts true). cbn [firstn value].
      unfold reads_of. cbn [flat_map]. rewrite (next_read_genesis ts Hg).
      rewrite firstn_nil, !app_nil_r. reflexivity.
  - destruct n as [|n].
    + exists (mkIter st ts false). cbn. rewrite !app_nil_r. reflexivity.
    + rewrite (CollectAtMostNTipSets_loop_link st ts p k n acc log HP Hk HG).
      destruct (IH Hg n (acc ++ [ts]) (log ++ [k])) as [it' E].
      exists it'. etransitivity; [exact E|].
      cbn [firstn]. unfold reads_of. cbn [flat_map].
      rewrite (next_read_link ts k HP Hk). rewrite <- !app_assoc. reflexivity.
Qed.

Lemma reads_of_path_length (st : ReadStore) :
  forall ts l z k, path st ts l z -> Parents z = Ok k -> k <> [] ->
  length (reads_of l) = length l.
Proof.
  intros ts l z k Hp. induction Hp as [ts|ts k' p l z HP Hk HG Hp IH]; intros Hz Hnz.
  - unfold reads_of. cbn [flat_map]. rewrite (next_read_link ts k Hz Hnz). reflexivity.
  - unfold reads_of. cbn [flat_map]. rewrite (next_read_link ts k' HP Hk).
    cbn [app length]. f_equal. apply IH; assumption.
Qed.

Lemma CollectAtMostNTipSets_loop_segment (st : ReadStore) :
  forall ts l z, path st ts l z ->
  forall k, Parents z = Ok k -> k <> [] ->
  forall acc log,
    (forall p, GetTipSet st k = Ok p ->
       CollectAtMostNTipSets_loop (length l) acc (mkIter st ts false, log)
       = (Ok (acc ++ l), (mkIter st p false, log ++ reads_of l)))
    /\ (forall e, GetTipSet st k = Err e ->
       CollectAtMostNTipSets_loop (length l) acc (mkIter st ts false, log)
       = (Err e, (mkIter st z false, log ++ reads_of l))).
Proof.
  intros ts l z Hp. induction Hp as [ts|ts k' p l z HP Hk HG Hp IH];
    intros k Hz Hnz acc log.
  - cbn [length]. rewrite CollectAtMostNTipSets_loop_turn by reflexivity.
    unfold reads_of. cbn [flat_map]. rewrite (next_read_link ts k Hz Hnz).
    rewrite app_nil_r. split.
    + intros p HG. unfold bind. rewrite (Next_link st ts p k false log Hz Hnz HG).
      reflexivity.
    + intros e HG. unfold bind.
      rewrite (Next_store_failure st ts k false log e Hz Hnz HG). reflexivity.
  - cbn [length]. rewrite (CollectAtMostNTipSets_loop_link st ts p k' _ acc log HP Hk HG).
    destruct (IH k Hz Hnz (acc ++ [ts]) (log ++ [k'])) as [IHok IHerr].
    unfold reads_of. cbn [flat_map]. rewrite (next_read_link ts k' HP Hk).
    split.
    + intros q Hq. etransitivity; [exact (IHok q Hq)|].
      rewrite <- !app_assoc. reflexivity.
    + intros e He. etransitivity; [exact (IHerr e He)|].
      rewrite <- !app_assoc. reflexivity.
Qed.

(** ** Concrete chains *)

Lemma linear_store_9_ancestry :
  ancestry (linear_store 9) (tipset_at 9) (chain_down 9).
Proof.
  exists (tipset_at 0). split; [solve_path | reflexivity].
Qed.

Lemma chain_down_9_heights : Forall has_height (chain_down 9).
Proof.
  cbn. repeat constructor; eexists; reflexivity.
Qed.

(** ** The collectors: claims C3, C4 and C10 *)

(** C3: on an iterator at a tipset whose chain [l] reaches genesis without
    error, [CollectTipSetsOfHeightAtLeast] returns the longest initial run
    [run] of [l] all of whose heights are at least [minHeight], in the order
    of the chain (so in descending heights when the chain's are); it stops
    at the first tipset below [minHeight] (the head of [rest], on which the
    iterator is left) or when the iterator completes at genesis ([rest]
    empty); [run] is empty only if the starting tipset is below
    [minHeight]. *)
Theorem CollectTipSetsOfHeightAtLeast_maximal_run
    (it : TipsetIterator) (l : list TipSet) (minHeight : BlockHeight)
    (fuel : nat) (log : Log) :
  complete it = false ->
  ancestry (store it) (value it) l ->
  Forall has_height l ->
  (length l < fuel)%nat ->
  exists run rest it',
    CollectTipSetsOfHeightAtLeast fuel minHeight (it, log)
      = (Ok run, (it', log ++ reads_of run))
    /\ l = run ++ rest
    /\ Forall (fun ts => exists h, Height ts = Ok h /\ minHeight <= h) run
    /\ match rest with
       | [] => complete it' = true
       | nxt :: _ =>
           complete it' = false /\ value it' = nxt /\ height_below minHeight nxt
       end
    /\ (descending l -> descending run)
    /\ (run = [] -> height_below minHeight (value it)).
Proof.
  destruct it as [st ts c]. cbn [complete store value].
  intros -> [g [Hp Hg]] Hh Hf.
  destruct (CollectTipSetsOfHeightAtLeast_loop_path st minHeight ts l g Hp Hg Hh
              fuel [] log Hf) as [it' [E D]].
  pose proof (take_drop_while (height_at_least minHeight) l) as Hsplit.
  exists (take_while (height_at_least minHeight) l),
         (drop_while (height_at_least minHeight) l), it'.
  split; [exact E|]. split; [exact Hsplit|]. split.
  { eapply Forall_impl; [|apply take_while_all].
    intros a Ha. apply at_least_true. exact Ha. }
  split.
  { destruct (drop_while (height_at_least minHeight) l) as [|nxt rest] eqn:Ed;
      [exact D|].
    destruct D as [D1 D2]. repeat split; try assumption.
    apply not_at_least_below.
    - rewrite Forall_forall in Hh. apply Hh. rewrite Hsplit.
      apply in_or_app. right. left. reflexivity.
    - eapply drop_while_head. exact Ed. }
  split.
  { intros Hd. rewrite Hsplit in Hd. eapply descending_app_l. exact Hd. }
  intros Hrun. destruct (path_nonempty st ts g l Hp) as [l' ->].
  cbn [take_while] in Hrun.
  destruct (height_at_least minHeight ts) eqn:Ea; [discriminate|].
  apply not_at_least_below; [|exact Ea].
  inversion Hh; assumption.
Qed.

Lemma CollectTipSetsOfHeightAtLeast_maximal_run_witness :
  exists run rest it',
    CollectTipSetsOfHeightAtLeast 11 6
      (IterAncestors (linear_store 9) (tipset_at 9), [])
      = (Ok run, (it', [] ++ reads_of run))
    /\ chain_down 9 = run ++ rest
    /\ Forall (fun ts => exists h, Height ts = Ok h /\ 6 <= h) run
    /\ match rest with
       | [] => complete it' = true
       | nxt :: _ => complete it' = false /\ value it' = nxt /\ height_below 6 nxt
       end
    /\ (descending (chain_down 9) -> descending run)
    /\ (run = [] -> height_below 6 (value (IterAncestors (linear_store 9) (tipset_at 9)))).
Proof.
  apply (CollectTipSetsOfHeightAtLeast_maximal_run
           (IterAncestors (linear_store 9) (tipset_at 9)) (chain_down 9) 6 11 []).
  - reflexivity.
  - exact linear_store_9_ancestry.
  - exact chain_down_9_heights.
  - cbn. lia.
Defined.

(** C4: from any iterator position on an error-free chain,
    [CollectAtMostNTipSets] returns without error the first [n] of the
    tipsets left down to genesis, or all of them when fewer are left: the
    length of the result is the minimum of [n] and the number left. *)
Theorem CollectAtMostNTipSets_length
    (it : TipsetIterator) (l : list TipSet) (n : N) (log : Log) :
  remaining it l ->
  exists ret_ it' log',
    CollectAtMostNTipSets n (it, log) = (Ok ret_, (it', log'))
    /\ ret_ = firstn (N.to_nat n) l
    /\ length ret_ = Nat.min (N.to_nat n) (length l).
Proof.
  intros [[Hc ->]|[Hc [g [Hp Hg]]]].
  - exists [], it, log. unfold CollectAtMostNTipSets.
    rewrite CollectAtMostNTipSets_loop_complete by exact Hc.
    rewrite firstn_nil. cbn [length]. rewrite Nat.min_0_r. auto.
  - destruct it as [st ts c]. cbn [complete store value] in *. subst c.
    destruct (CollectAtMostNTipSets_loop_ancestry st ts l g Hp Hg (N.to_nat n) [] log)
      as [it' E].
    exists (firstn (N.to_nat n) l), it', (log ++ reads_of (firstn (N.to_nat n) l)).
    split; [exact E|]. split; [reflexivity|]. apply length_firstn.
Qed.

Lemma CollectAtMostNTipSets_length_witness :
  exists ret_ it' log',
    CollectAtMostNTipSets 12 (IterAncestors (linear_store 9) (tipset_at 9), [])
      = (Ok ret_, (it', log'))
    /\ ret_ = firstn (N.to_nat 12) (chain_down 9)
    /\ length ret_ = Nat.min (N.to_nat 12) (length (chain_down 9)).
Proof.
  apply (CollectAtMostNTipSets_length
           (IterAncestors (linear_store 9) (tipset_at 9)) (chain_down 9) 12 []).
  right. split; [reflexivity | exact linear_store_9_ancestry].
Defined.

(** C10: when the [n > 0] tipsets [l] from the iterator's position are there
    and the last of them, [z], has a parent key [k], [CollectAtMostNTipSets]
    calls [Next] after each of them, the [n]-th included: it makes [n] store
    reads, the last one for [k]; if that read succeeds the iterator is left
    on the parent of [z], and if it fails with [e] the call returns [e] and
    none of the [n] tipsets collected. *)
Theorem CollectAtMostNTipSets_advances_after_last
    (it : TipsetIterator) (l : list TipSet) (z : TipSet) (k : TipSetKey)
    (n : N) (log : Log) :
  (0 < n)%N ->
  complete it = false ->
  path (store it) (value it) l z ->
  length l = N.to_nat n ->
  Parents z = Ok k -> k <> [] ->
  length (reads_of l) = N.to_nat n
  /\ last (reads_of l) [] = k
  /\ (forall p, GetTipSet (store it) k = Ok p ->
        CollectAtMostNTipSets n (it, log)
        = (Ok l, (mkIter (store it) p false, log ++ reads_of l)))
  /\ (forall e, GetTipSet (store it) k = Err e ->
        CollectAtMostNTipSets n (it, log)
        = (Err e, (mkIter (store it) z false, log ++ reads_of l))).
Proof.
  destruct it as [st ts c]. cbn [complete store value].
  intros Hn -> Hp Hlen Hz Hk.
  destruct (CollectAtMostNTipSets_loop_segment st ts l z Hp k Hz Hk [] log)
    as [Hok Herr].
  split; [rewrite <- Hlen; eapply reads_of_path_length; eassumption|].
  split.
  { clear Hok Herr Hlen. induction Hp as [ts|ts k' p l z HP Hk' HG Hp IH].
    - unfold reads_of. cbn [flat_map]. rewrite (next_read_link ts k Hz Hk). reflexivity.
    - unfold reads_of. cbn [flat_map]. rewrite (next_read_link ts k' HP Hk').
      specialize (IH Hz).
      destruct (path_nonempty st p z l Hp) as [l' ->].
      unfold reads_of in IH. cbn [flat_map] in IH |- *.
      destruct (next_read p ++ flat_map next_read l') eqn:E.
      + pose proof (reads_of_path_length st p (p :: l') z k Hp Hz Hk) as HL.
        unfold reads_of in HL. cbn [flat_map] in HL. rewrite E in HL. discriminate.
      + exact IH. }
  unfold CollectAtMostNTipSets. rewrite <- Hlen. split; assumption.
Qed.

Lemma CollectAtMostNTipSets_advances_after_last_witness :
  length (reads_of [tipset_at 6; tipset_at 5]) = N.to_nat 2
  /\ last (reads_of [tipset_at 6; tipset_at 5]) [] = [4%N]
  /\ (forall p, GetTipSet broken_store [4%N] = Ok p ->
        CollectAtMostNTipSets 2 (IterAncestors broken_store (tipset_at 6), [])
        = (Ok [tipset_at 6; tipset_at 5],
           (mkIter broken_store p false, [] ++ reads_of [tipset_at 6; tipset_at 5])))
  /\ (forall e, GetTipSet broken_store [4%N] = Err e ->
        CollectAtMostNTipSets 2 (IterAncestors broken_store (tipset_at 6), [])
        = (Err e, (mkIter broken_store (tipset_at 5) false,
                   [] ++ reads_of [tipset_at 6; tipset_at 5]))).
Proof.
  apply (CollectAtMostNTipSets_advances_after_last
           (IterAncestors broken_store (tipset_at 6))
           [tipset_at 6; tipset_at 5] (tipset_at 5) [4%N] 2 []).
  - reflexivity.
  - reflexivity.
  - solve_path.
  - reflexivity.
  - reflexivity.
  - discriminate.
Defined.

(** ** [GetRecentAncestors]: claims C8 and C6 *)

(** C8: with [lookback = 0], [GetRecentAncestors] fails with the
    configuration error whatever the other arguments, and the log of store
    reads is as it was: nothing has been traversed or read. *)
Theorem GetRecentAncestors_lookback_zero
    (fuel : nat) (base : TipSet) (chainReader : ReadStore)
    (childBH ancestorRoundsNeeded : BlockHeight) (log : Log) :
  GetRecentAncestors fuel base chainReader childBH ancestorRoundsNeeded 0 log
  = (Err errLookback, log).
Proof. reflexivity. Qed.

Lemma earliestAncestorHeight_max (childBH ancestorRoundsNeeded : BlockHeight) :
  earliestAncestorHeight childBH ancestorRoundsNeeded
  = Z.max 0 (childBH - ancestorRoundsNeeded).
Proof.
  unfold earliestAncestorHeight, Sub, LessThan, NewBlockHeight.
  destruct (Z.max 0 (childBH - ancestorRoundsNeeded) <? 0) eqn:E; [lia | reflexivity].
Qed.

(** The guard of the source alone clamps a plain big-integer difference. *)
Lemma guard_clamps_difference (d : Z) :
  (if LessThan d (NewBlockHeight 0) then NewBlockHeight 0 else d) = Z.max 0 d.
Proof.
  unfold LessThan, NewBlockHeight. destruct (d <? 0) eqn:E; lia.
Qed.

(** C6: on the chain of the ten tipsets of heights 0 to 9,
    [GetRecentAncestors] from the tipset of height 9 with [childBH = 9],
    [ancestorRoundsNeeded = 3] and [lookback = 2] returns the six tipsets of
    heights 9, 8, 7, 6, 5, 4 in that order: the four of height at least 6
    collected by [CollectTipSetsOfHeightAtLeast], then the two collected by
    [CollectAtMostNTipSets] from the tipset of height 5. *)
Theorem GetRecentAncestors_ten_tipsets (fuel : nat) :
  let st := linear_store 9 in
  let n := (5 + fuel)%nat in
  fst (GetRecentAncestors n (tipset_at 9) st 9 3 2 [])
    = Ok (map tipset_at [9; 8; 7; 6; 5; 4])
  /\ map Height (map tipset_at [9; 8; 7; 6; 5; 4])
     = [Ok 9; Ok 8; Ok 7; Ok 6; Ok 5; Ok 4]
  /\ fst (CollectTipSetsOfHeightAtLeast n 6 (IterAncestors st (tipset_at 9), []))
     = Ok (map tipset_at [9; 8; 7; 6])
  /\ fst (CollectAtMostNTipSets 2 (IterAncestors st (tipset_at 5), []))
     = Ok (map tipset_at [5; 4])
  /\ length (map tipset_at [9; 8; 7; 6; 5; 4]) = 6%nat.
Proof.
  cbv zeta. repeat split; vm_compute; reflexivity.
Qed.

(** ** [GetRecentAncestors]: claims C5 and C2 *)

Lemma take_while_Forall {A : Type} (f : A -> bool) (l : list A) :
  Forall (fun a => f a = true) l -> take_while f l = l.
Proof.
  induction 1 as [|a l Ha _ IH]; cbn; [reflexivity|]. rewrite Ha, IH. reflexivity.
Qed.

Lemma nth_error_last {A : Type} (l : list A) (d : A) :
  l <> [] -> nth_error l (length l - 1) = Some (last l d).
Proof.
  induction l as [|a l IH]; [contradiction|]. intros _.
  destruct l as [|b l]; [reflexivity|].
  change (last (a :: b :: l) d) with (last (b :: l) d).
  rewrite <- IH by discriminate.
  cbn [length]. rewrite !Nat.sub_succ, !Nat.sub_0_r. reflexivity.
Qed.

Lemma index_last {S A : Type} (l : list A) (d : A) (s : S) :
  l <> [] -> index l (Z.of_nat (length l) - 1) s = (Ok (last l d), s).
Proof.
  intros Hl. unfold index.
  assert (Hlen : (0 < length l)%nat) by (destruct l; [contradiction | cbn; lia]).
  replace (0 <=? Z.of_nat (length l) - 1) with true by (symmetry; apply Z.leb_le; lia).
  replace (Z.of_nat (length l) - 1 <? Z.of_nat (length l)) with true
    by (symmetry; apply Z.ltb_lt; lia).
  cbn [andb].
  replace (Z.to_nat (Z.of_nat (length l) - 1)) with (length l - 1)%nat by lia.
  rewrite (nth_error_last l d Hl). reflexivity.
Qed.

(** C5: when the chain [l] of [base] reaches the genesis tipset [g] (no
    parents, height 0) with every height at least the threshold,
    [GetRecentAncestors] returns exactly [l], which is what
    [CollectTipSetsOfHeightAtLeast] collected, with nothing appended; the
    log of store reads is the one the collection left, so no further lookup
    was made; and the last element of the result is [g], of height 0. *)
Theorem GetRecentAncestors_reaches_genesis
    (fuel : nat) (base g : TipSet) (chainReader : ReadStore)
    (childBH ancestorRoundsNeeded : BlockHeight) (lookback : N) (log : Log)
    (l : list TipSet) :
  (lookback =? 0)%N = false ->
  path chainReader base l g ->
  is_genesis g ->
  Forall (fun ts => height_at_least
                      (earliestAncestorHeight childBH ancestorRoundsNeeded) ts = true) l ->
  (length l < fuel)%nat ->
  exists log1,
    with_iterator (IterAncestors chainReader base)
      (CollectTipSetsOfHeightAtLeast fuel
         (earliestAncestorHeight childBH ancestorRoundsNeeded)) log
      = (Ok l, log1)
    /\ GetRecentAncestors fuel base chainReader childBH ancestorRoundsNeeded
         lookback log = (Ok l, log1)
    /\ log1 = log ++ reads_of l
    /\ last l base = g
    /\ Parents (last l base) = Ok []
    /\ Height (last l base) = Ok 0.
Proof.
  intros Hl Hp [Hg Hg0] Hall Hf.
  assert (Hh : Forall has_height l).
  { eapply Forall_impl; [|exact Hall]. intros a Ha.
    destruct (at_least_true _ _ Ha) as [h [Hh _]]. exists h. exact Hh. }
  destruct (CollectTipSetsOfHeightAtLeast_loop_path chainReader
              (earliestAncestorHeight childBH ancestorRoundsNeeded)
              base l g Hp Hg Hh fuel [] log Hf) as [it' [E _]].
  rewrite (take_while_Forall _ l Hall) in E. cbn [app] in E.
  assert (Ew : with_iterator (IterAncestors chainReader base)
                 (CollectTipSetsOfHeightAtLeast fuel
                    (earliestAncestorHeight childBH ancestorRoundsNeeded)) log
               = (Ok l, log ++ reads_of l)).
  { unfold with_iterator, CollectTipSetsOfHeightAtLeast, IterAncestors.
    rewrite E. reflexivity. }
  pose proof (path_last chainReader base g l Hp base) as Hlast.
  exists (log ++ reads_of l). split; [exact Ew|]. split.
  - unfold GetRecentAncestors. rewrite Hl. cbv zeta.
    unfold bind at 1. rewrite Ew.
    unfold bind at 1. rewrite (index_last l base).
    + rewrite Hlast. unfold bind at 1. unfold lift at 1. rewrite Hg. reflexivity.
    + destruct (path_nonempty _ _ _ _ Hp) as [l' ->]. discriminate.
  - rewrite Hlast. auto.
Qed.

Lemma chain_down_3_path :
  path (linear_store 9) (tipset_at 3) (chain_down 3) (tipset_at 0).
Proof. solve_path. Qed.

Lemma GetRecentAncestors_reaches_genesis_witness :
  exists log1,
    with_iterator (IterAncestors (linear_store 9) (tipset_at 3))
      (CollectTipSetsOfHeightAtLeast 20 (earliestAncestorHeight 2 3)) []
      = (Ok (chain_down 3), log1)
    /\ GetRecentAncestors 20 (tipset_at 3) (linear_store 9) 2 3 2 []
       = (Ok (chain_down 3), log1)
    /\ log1 = [] ++ reads_of (chain_down 3)
    /\ last (chain_down 3) (tipset_at 3) = tipset_at 0
    /\ Parents (last (chain_down 3) (tipset_at 3)) = Ok []
    /\ Height (last (chain_down 3) (tipset_at 3)) = Ok 0.
Proof.
  apply (GetRecentAncestors_reaches_genesis 20 (tipset_at 3) (tipset_at 0)
           (linear_store 9) 2 3 2 [] (chain_down 3)).
  - reflexivity.
  - exact chain_down_3_path.
  - split; reflexivity.
  - cbn. repeat constructor.
  - cbn. lia.
Defined.

Lemma Next_total (s : IterSt) : exists err s', Next s = (Ok err, s').
Proof.
  destruct s as [it log]. unfold Next.
  destruct (Parents_cases (value it)) as [[k ->]|[msg ->]]; [|eauto].
  destruct (Len k =? 0); [eauto|].
  destruct (GetTipSet_cases (store it) k) as [[ts ->]|[msg ->]]; eauto.
Qed.

Lemma CollectTipSetsOfHeightAtLeast_loop_grows (minHeight : Z) :
  forall fuel acc err s r s',
    CollectTipSetsOfHeightAtLeast_loop fuel minHeight acc err s = (r, s') ->
    r <> Panic /\ (forall prov, r = Ok prov -> exists suffix, prov = acc ++ suffix).
Proof.
  induction fuel as [|fuel IH]; intros acc err [it log] r s' H.
  - cbn in H. inversion H; subst. split; [discriminate | intros; discriminate].
  - cbn [CollectTipSetsOfHeightAtLeast_loop] in H.
    unfold bind, Complete, check, Value, lift, ret, fail in H. cbn [fst] in H.
    destruct (complete it); cbv beta iota in H.
    { inversion H; subst. split; [discriminate|].
      intros prov Hp. inversion Hp; subst. exists []. rewrite app_nil_r. reflexivity. }
    destruct err as [e|]; cbv beta iota in H.
    { inversion H; subst. split; [discriminate | intros; discriminate]. }
    cbn [fst] in H.
    destruct (Height_cases (value it)) as [[h Hh]|[msg Hh]]; rewrite Hh in H;
      cbv beta iota in H.
    2:{ inversion H; subst. split; [discriminate | intros; discriminate]. }
    destruct (LessThan (NewBlockHeight h) minHeight).
    { inversion H; subst. split; [discriminate|].
      intros prov Hp. inversion Hp; subst. exists []. rewrite app_nil_r. reflexivity. }
    destruct (Next_total (it, log)) as [err' [s1 HN]]. rewrite HN in H.
    cbv beta iota in H.
    destruct (IH _ _ _ _ _ H) as [Hnp Hpre]. split; [exact Hnp|].
    intros prov Hp. destruct (Hpre prov Hp) as [suffix ->].
    exists (value it :: suffix). rewrite <- app_assoc. reflexivity.
Qed.

Lemma CollectAtMostNTipSets_loop_no_panic :
  forall left acc s r s',
    CollectAtMostNTipSets_loop left acc s = (r, s') -> r <> Panic /\ r <> OutOfFuel.
Proof.
  induction left as [|left IH]; intros acc [it log] r s' H.
  - cbn in H. inversion H; subst. split; discriminate.
  - cbn [CollectAtMostNTipSets_loop] in H.
    unfold bind, Complete, Value, ret in H. cbn [fst] in H.
    destruct (complete it); cbv beta iota in H.
    { inversion H; subst. split; discriminate. }
    destruct (Next_total (it, log)) as [err' [s1 HN]]. rewrite HN in H.
    cbv beta iota in H.
    destruct err' as [e|]; cbn [check] in H; unfold fail, ret in H.
    + inversion H; subst. split; discriminate.
    + eapply IH. exact H.
Qed.

Lemma with_iterator_inv {A : Type} (it : TipsetIterator) (m : M IterSt A)
    (log log1 : Log) (r : res A) :
  with_iterator it m log = (r, log1) -> exists it1, m (it, log) = (r, (it1, log1)).
Proof.
  unfold with_iterator. destruct (m (it, log)) as [r' [it' log']].
  intros H. inversion H; subst. eauto.
Qed.

(** C2: when the height [h] of [base] is at least the threshold, every list
    [CollectTipSetsOfHeightAtLeast] returns from [base] is non-empty, so that
    the index [len - 1] of its last element is in bounds and
    [GetRecentAncestors] does not panic; and there is a call, with the height
    of [base] below the threshold, in which the collected list is empty and
    the access to its last element is out of range. *)
Theorem GetRecentAncestors_last_in_bounds
    (fuel : nat) (base : TipSet) (chainReader : ReadStore)
    (childBH ancestorRoundsNeeded : BlockHeight) (lookback : N) (log : Log) (h : Z) :
  Height base = Ok h ->
  earliestAncestorHeight childBH ancestorRoundsNeeded <= h ->
  (forall provingPeriodAncestors s',
     CollectTipSetsOfHeightAtLeast fuel
       (earliestAncestorHeight childBH ancestorRoundsNeeded)
       (IterAncestors chainReader base, log) = (Ok provingPeriodAncestors, s') ->
     provingPeriodAncestors <> []
     /\ 0 <= Z.of_nat (length provingPeriodAncestors) - 1
          < Z.of_nat (length provingPeriodAncestors))
  /\ fst (GetRecentAncestors fuel base chainReader childBH ancestorRoundsNeeded
            lookback log) <> Panic
  /\ (exists base' h' s',
        Height base' = Ok h' /\ h' < earliestAncestorHeight 9 3
        /\ CollectTipSetsOfHeightAtLeast 20 (earliestAncestorHeight 9 3)
             (IterAncestors (linear_store 9) base', []) = (Ok [], s')
        /\ fst (GetRecentAncestors 20 base' (linear_store 9) 9 3 2 []) = Panic).
Proof.
  intros Hh Hle.
  assert (Hne : forall prov s',
             CollectTipSetsOfHeightAtLeast fuel
               (earliestAncestorHeight childBH ancestorRoundsNeeded)
               (IterAncestors chainReader base, log) = (Ok prov, s') ->
             prov <> []).
  { intros prov s' H. unfold CollectTipSetsOfHeightAtLeast in H.
    destruct fuel as [|fuel]; [discriminate|].
    rewrite (CollectTipSetsOfHeightAtLeast_loop_turn fuel _ h) in H
      by (try reflexivity; exact Hh).
    replace (h <? earliestAncestorHeight childBH ancestorRoundsNeeded) with false in H
      by (symmetry; apply Z.ltb_ge; exact Hle).
    unfold bind in H.
    destruct (Next_total (IterAncestors chainReader base, log)) as [err' [s1 HN]].
    rewrite HN in H.
    destruct (CollectTipSetsOfHeightAtLeast_loop_grows _ _ _ _ _ _ _ H) as [_ Hpre].
    destruct (Hpre prov eq_refl) as [suffix ->]. discriminate. }
  split; [|split].
  - intros prov s' H. pose proof (Hne prov s' H) as Hp. split; [exact Hp|].
    destruct prov; [contradiction | cbn [length]; lia].
  - unfold GetRecentAncestors.
    destruct (lookback =? 0)%N; [discriminate|]. cbv zeta.
    unfold bind, lift, ret, readTipSet.
    destruct (with_iterator (IterAncestors chainReader base)
                (CollectTipSetsOfHeightAtLeast fuel
                   (earliestAncestorHeight childBH ancestorRoundsNeeded)) log)
      as [r log1] eqn:E.
    destruct (with_iterator_inv _ _ _ _ _ E) as [it1 E1].
    destruct r as [prov|e| |]; cbn [fst]; try discriminate.
    + rewrite (index_last prov base log1 (Hne prov _ E1)).
      destruct (Parents_cases (last prov base)) as [[k ->]|[msg ->]];
        [|discriminate].
      destruct (Len k =? 0); [discriminate|].
      destruct (GetTipSet_cases chainReader k) as [[ts ->]|[msg ->]];
        [|discriminate].
      destruct (with_iterator (IterAncestors chainReader ts)
                  (CollectAtMostNTipSets lookback) (log1 ++ [k]))
        as [r2 log2] eqn:E2.
      destruct (with_iterator_inv _ _ _ _ _ E2) as [it2 E3].
      unfold CollectAtMostNTipSets in E3.
      destruct (CollectAtMostNTipSets_loop_no_panic _ _ _ _ _ E3) as [Hnp _].
      destruct r2; cbn [fst]; try discriminate. exfalso; apply Hnp; reflexivity.
    + unfold CollectTipSetsOfHeightAtLeast in E1.
      destruct (CollectTipSetsOfHeightAtLeast_loop_grows _ _ _ _ _ _ _ E1) as [Hnp _].
      exfalso; apply Hnp; reflexivity.
  - exists (tipset_at 3), 3, (IterAncestors (linear_store 9) (tipset_at 3), []).
    repeat split; vm_compute; reflexivity.
Qed.

Lemma GetRecentAncestors_last_in_bounds_witness :
  (forall provingPeriodAncestors s',
     CollectTipSetsOfHeightAtLeast 20 (earliestAncestorHeight 9 3)
       (IterAncestors (linear_store 9) (tipset_at 9), [])
       = (Ok provingPeriodAncestors, s') ->
     provingPeriodAncestors <> []
     /\ 0 <= Z.of_nat (length provingPeriodAncestors) - 1
          < Z.of_nat (length provingPeriodAncestors))
  /\ fst (GetRecentAncestors 20 (tipset_at 9) (linear_store 9) 9 3 2 []) <> Panic
  /\ (exists base' h' s',
        Height base' = Ok h' /\ h' < earliestAncestorHeight 9 3
        /\ CollectTipSetsOfHeightAtLeast 20 (earliestAncestorHeight 9 3)
             (IterAncestors (linear_store 9) base', []) = (Ok [], s')
        /\ fst (GetRecentAncestors 20 base' (linear_store 9) 9 3 2 []) = Panic).
Proof.
  apply (GetRecentAncestors_last_in_bounds 20 (tipset_at 9) (linear_store 9)
           9 3 2 [] 9).
  - reflexivity.
  - vm_compute. discriminate.
Defined.

(** ** [iterToHeightOrLower] and [FindCommonAncestor]: claim C1 *)

Lemma Next_cases (it : TipsetIterator) (log : Log) :
  exists err it1 log1,
    Next (it, log) = (Ok err, (it1, log1))
    /\ match err with
       | Some e =>
           it1 = it
           /\ ((exists msg, e = ParentsError msg) \/ (exists msg, e = StoreError msg))
       | None =>
           (Parents (value it) = Ok []
            /\ it1 = mkIter (store it) (value it) true /\ log1 = log)
           \/ (exists k p,
                 Parents (value it) = Ok k /\ k <> []
                 /\ GetTipSet (store it) k = Ok p
                 /\ it1 = mkIter (store it) p (complete it) /\ log1 = log ++ [k])
       end.
Proof.
  unfold Next.
  destruct (Parents_cases (value it)) as [[k Hk]|[msg Hk]]; rewrite Hk.
  - destruct (Len k =? 0) eqn:El.
    + apply Len_zero_iff in El. subst k.
      exists None, (mkIter (store it) (value it) true), log. split; [reflexivity|].
      left. auto.
    + assert (Hne : k <> []) by (intros ->; discriminate).
      destruct (GetTipSet_cases (store it) k) as [[p Hp]|[msg Hp]]; rewrite Hp.
      * exists None, (mkIter (store it) p (complete it)), (log ++ [k]).
        split; [reflexivity|]. right. exists k, p. auto.
      * exists (Some (StoreError msg)), it, (log ++ [k]). split; [reflexivity|].
        split; [reflexivity|]. right. eauto.
  - exists (Some (ParentsError msg)), it, log. split; [reflexivity|].
    split; [reflexivity|]. left. eauto.
Qed.

Lemma iterToHeightOrLower_unfold (fuel : nat) (endHeight : Z)
    (it : TipsetIterator) (log : Log) :
  iterToHeightOrLower (S fuel) endHeight (it, log) =
  if complete it then (Err errIterComplete, (it, log))
  else
    match Height (value it) with
    | Ok h =>
        if h <=? endHeight then (Ok tt, (it, log))
        else
          match Next (it, log) with
          | (Ok (Some e), s1) => (Err e, s1)
          | (Ok None, s1) => iterToHeightOrLower fuel endHeight s1
          | (Err e, s1) => (Err e, s1)
          | (Panic, s1) => (Panic, s1)
          | (OutOfFuel, s1) => (OutOfFuel, s1)
          end
    | Err e => (Err e, (it, log))
    | Panic => (Panic, (it, log))
    | OutOfFuel => (OutOfFuel, (it, log))
    end.
Proof.
  cbn [iterToHeightOrLower]. unfold bind, Complete, Value, lift, check, ret, fail.
  cbn [fst]. destruct (complete it); [reflexivity|]. cbv beta iota. cbn [fst].
  destruct (Height (value it)) as [h|e| |]; try reflexivity.
  destruct (h <=? endHeight); [reflexivity|].
  destruct (Next (it, log)) as [[[e|]|e| |] s1]; reflexivity.
Qed.

Lemma iterToHeightOrLower_outcome (endHeight : Z) :
  forall fuel it log r it' log',
    iterToHeightOrLower fuel endHeight (it, log) = (r, (it', log')) ->
    match r with
    | Ok _ =>
        complete it' = false
        /\ exists h, Height (value it') = Ok h /\ h <= endHeight
    | Err e =>
        (e = errIterComplete /\ complete it' = true)
        \/ (complete it' = false /\ reported_at it' e)
    | Panic => False
    | OutOfFuel => True
    end.
Proof.
  induction fuel as [|fuel IH]; intros it log r it' log' H.
  - cbn in H. inversion H; subst. exact I.
  - rewrite iterToHeightOrLower_unfold in H.
    destruct (complete it) eqn:Hc.
    { inversion H; subst. left. auto. }
    destruct (Height_cases (value it)) as [[h Hh]|[msg Hh]]; rewrite Hh in H.
    2:{ inversion H; subst. right. split; [exact Hc|]. left. exact Hh. }
    destruct (h <=? endHeight) eqn:Ele.
    { inversion H; subst. split; [exact Hc|]. exists h. split; [exact Hh|].
      apply Z.leb_le. exact Ele. }
    destruct (Next_cases it log) as [err [it1 [log1 [E C]]]]. rewrite E in H.
    destruct err as [e|].
    + destruct C as [-> _]. inversion H; subst. right. split; [exact Hc|].
      right. exists log, (it', log'). exact E.
    + eapply IH. exact H.
Qed.

(** A store error met during the search comes back as it is. *)
Example FindCommonAncestor_store_error :
  fst (FindCommonAncestor 9
         {| oldIter := IterAncestors broken_store (tipset_at 6);
            newIter := IterAncestors broken_store (tipset_at 3);
            reads := [] |})
  = Err (StoreError not_found)
  /\ GetTipSet broken_store [4%N] = Err (StoreError not_found).
Proof. split; vm_compute; reflexivity. Qed.

(** C1 at two chains rooted at distinct tipsets of height 0: the target
    height [0 - 1] wraps to [2^64 - 1], both calls of [iterToHeightOrLower]
    return at once, a turn of the loop leaves both iterators and the log as
    they were, and [FindCommonAncestor] uses up any amount of fuel: it
    neither returns nor fails. *)
Theorem FindCommonAncestor_two_genesis_no_progress :
  ancestry empty_store (lone_tipset 1 0) [lone_tipset 1 0]
  /\ ancestry empty_store (lone_tipset 2 0) [lone_tipset 2 0]
  /\ is_genesis (lone_tipset 1 0) /\ is_genesis (lone_tipset 2 0)
  /\ Equals (lone_tipset 1 0) (lone_tipset 2 0) = false
  /\ sub64 0 1 = 2 ^ 64 - 1
  /\ (forall fuel,
        iterToHeightOrLower (S fuel) (sub64 0 1) (oldIter two_genesis_search, [])
        = (Ok tt, (oldIter two_genesis_search, [])))
  /\ (forall fuel,
        FindCommonAncestor_body (S fuel) two_genesis_search
        = (Ok None, two_genesis_search))
  /\ (forall fuel,
        FindCommonAncestor fuel two_genesis_search
        = (OutOfFuel, two_genesis_search)).
Proof.
  assert (Hbody : forall fuel,
             FindCommonAncestor_body (S fuel) two_genesis_search
             = (Ok None, two_genesis_search)).
  { intros fuel. vm_compute. reflexivity. }
  split; [exists (lone_tipset 1 0); split; [apply path_end | reflexivity]|].
  split; [exists (lone_tipset 2 0); split; [apply path_end | reflexivity]|].
  split; [split; reflexivity|]. split; [split; reflexivity|].
  split; [reflexivity|]. split; [reflexivity|].
  split; [intros fuel; vm_compute; reflexivity|].
  split; [exact Hbody|].
  intros fuel. induction fuel as [|fuel IH]; [reflexivity|].
  cbn [FindCommonAncestor]. unfold bind.
  destruct fuel as [|fuel]; [reflexivity|].
  rewrite Hbody. exact IH.
Qed.

(** ** Progress of [FindCommonAncestor] on valid chains *)

Lemma descending_app_r (l1 l2 : list TipSet) :
  descending (l1 ++ l2) -> descending l2.
Proof.
  induction l1 as [|a l1 IH]; [auto|].
  intros H. apply IH. eapply descending_tail. exact H.
Qed.

(** [iterToHeightOrLower] on a chain: it stops on the first tipset [b] of
    the chain whose height is at most [endHeight], or, when the tipset
    without parents is still above [endHeight], fails with
    [errIterComplete]. *)
Lemma iterToHeightOrLower_path (st : ReadStore) (endHeight : Z) :
  forall a l z, path st a l z -> Parents z = Ok [] -> Forall has_height l ->
  forall fuel log, (length l < fuel)%nat ->
    (exists pre b post hb log',
        l = pre ++ b :: post /\ path st b (b :: post) z
        /\ Height b = Ok hb /\ hb <= endHeight
        /\ iterToHeightOrLower fuel endHeight (mkIter st a false, log)
           = (Ok tt, (mkIter st b false, log')))
    \/ (exists hz s',
          Height z = Ok hz /\ endHeight < hz
          /\ iterToHeightOrLower fuel endHeight (mkIter st a false, log)
             = (Err errIterComplete, s')).
Proof.
  intros a l z Hp. induction Hp as [a|a k p l z HP Hk HG Hp IH];
    intros Hz Hh fuel log Hf.
  - inversion Hh as [|? ? [ha Ha] _]; subst.
    destruct fuel as [|fuel]; [cbn in Hf; lia|].
    rewrite iterToHeightOrLower_unfold. cbn [complete value]. rewrite Ha.
    destruct (ha <=? endHeight) eqn:E.
    + left. exists [], a, [], ha, log. apply Z.leb_le in E.
      repeat split; try assumption; try reflexivity. apply path_end.
    + right. rewrite (Next_genesis st a false log Hz).
      destruct fuel as [|fuel]; [cbn in Hf; lia|].
      rewrite iterToHeightOrLower_unfold. cbn [complete].
      apply Z.leb_gt in E. exists ha. eexists. repeat split; try eassumption.
  - inversion Hh as [|? ? [ha Ha] Hh']; subst.
    destruct fuel as [|fuel]; [cbn in Hf; lia|].
    rewrite iterToHeightOrLower_unfold. cbn [complete value]. rewrite Ha.
    destruct (ha <=? endHeight) eqn:E.
    + left. exists [], a, l, ha, log. apply Z.leb_le in E.
      repeat split; try assumption; try reflexivity.
      eapply path_link; eassumption.
    + rewrite (Next_link st a p k false log HP Hk HG).
      assert (Hf' : (length l < fuel)%nat) by (cbn in Hf; lia).
      destruct (IH Hz Hh' fuel (log ++ [k]) Hf')
        as [[pre [b [post [hb [log' [El [Hpb [Hb [Hle Ei]]]]]]]]]|[hz [s' [Hhz [Hlt Ei]]]]].
      * left. exists (a :: pre), b, post, hb, log'. subst l.
        repeat split; try assumption.
      * right. exists hz, s'. repeat split; assumption.
Qed.

Lemma valid_heights_has_height (l : list TipSet) :
  valid_heights l -> Forall has_height l.
Proof.
  intros H. eapply Forall_impl; [|exact H].
  intros a [h [Hh _]]. exists h. exact Hh.
Qed.

Lemma valid_chain_suffix (st : ReadStore) (a b z : TipSet) (pre post : list TipSet) :
  valid_chain st a (pre ++ b :: post) z -> path st b (b :: post) z ->
  valid_chain st b (b :: post) z.
Proof.
  intros [_ [Hz [Hd Hv]]] Hp.
  split; [exact Hp|]. split; [exact Hz|]. split.
  - eapply descending_app_r. exact Hd.
  - unfold valid_heights in *. apply Forall_app in Hv. apply Hv.
Qed.

Lemma valid_chain_head (st : ReadStore) (a z : TipSet) (l : list TipSet) :
  valid_chain st a l z ->
  exists l' h, l = a :: l' /\ Height a = Ok h /\ 0 <= h < 2 ^ 64.
Proof.
  intros [Hp [_ [_ Hv]]]. destruct (path_nonempty _ _ _ _ Hp) as [l' ->].
  inversion Hv as [|? ? [h [Hh Hr]] _]; subst. exists l', h. auto.
Qed.

Lemma iterToHeightOrLower_stays (fuel : nat) (endHeight h : Z)
    (it : TipsetIterator) (log : Log) :
  complete it = false -> Height (value it) = Ok h -> h <= endHeight ->
  iterToHeightOrLower (S fuel) endHeight (it, log) = (Ok tt, (it, log)).
Proof.
  intros Hc Hh Hle. rewrite iterToHeightOrLower_unfold, Hc, Hh.
  replace (h <=? endHeight) with true by (symmetry; apply Z.leb_le; exact Hle).
  reflexivity.
Qed.

Lemma sub64_zero : sub64 0 1 = 2 ^ 64 - 1.
Proof. reflexivity. Qed.

Lemma sub64_positive (h : Z) : 0 < h < 2 ^ 64 -> sub64 h 1 = h - 1.
Proof.
  intros H. unfold sub64. apply Z.mod_small. lia.
Qed.

(** A turn of the loop on two distinct tipsets of height 0 changes nothing,
    whatever the tipsets. *)
Lemma FindCommonAncestor_body_stuck (fuel : nat) (s : FcaSt) :
  complete (oldIter s) = false -> complete (newIter s) = false ->
  stuck (value (oldIter s)) (value (newIter s)) ->
  FindCommonAncestor_body (S fuel) s = (Ok None, s).
Proof.
  destruct s as [old new log]. cbn [oldIter newIter].
  intros Hco Hcn [Ho [Hn He]].
  unfold FindCommonAncestor_body.
  unfold bind, on_old, on_new, Value, lift, ret. cbn [oldIter newIter reads fst].
  rewrite Ho, Hn, He. cbn [Z.ltb Z.compare]. cbn [oldIter newIter reads].
  rewrite (iterToHeightOrLower_stays fuel (sub64 0 1) 0 old log Hco Ho)
    by (rewrite sub64_zero; lia).
  cbn [oldIter newIter reads].
  rewrite (iterToHeightOrLower_stays fuel (sub64 0 1) 0 new log Hcn Hn)
    by (rewrite sub64_zero; lia).
  reflexivity.
Qed.

Lemma FindCommonAncestor_stuck (s : FcaSt) :
  complete (oldIter s) = false -> complete (newIter s) = false ->
  stuck (value (oldIter s)) (value (newIter s)) ->
  forall fuel, FindCommonAncestor fuel s = (OutOfFuel, s).
Proof.
  intros Hco Hcn Hs fuel. induction fuel as [|fuel IH]; [reflexivity|].
  cbn [FindCommonAncestor]. unfold bind.
  destruct fuel as [|fuel].
  - destruct s as [old new log]. cbn [oldIter newIter] in *.
    destruct Hs as [Ho [Hn He]].
    unfold FindCommonAncestor_body.
    unfold bind, on_old, on_new, Value, lift, ret. cbn [oldIter newIter reads fst].
    rewrite Ho, Hn, He. reflexivity.
  - rewrite (FindCommonAncestor_body_stuck fuel s Hco Hcn Hs). exact IH.
Qed.

Lemma iterToHeightOrLower_descends (st : ReadStore) (a z : TipSet) (l : list TipSet)
    (endHeight ha : Z) (fuel : nat) (log : Log) :
  valid_chain st a l z -> Height a = Ok ha -> endHeight < ha -> 0 <= endHeight ->
  (length l < fuel)%nat ->
  (exists b l' pre log',
      l = pre ++ l' /\ pre <> [] /\ valid_chain st b l' z
      /\ iterToHeightOrLower fuel endHeight (mkIter st a false, log)
         = (Ok tt, (mkIter st b false, log')))
  \/ (exists it' log',
        iterToHeightOrLower fuel endHeight (mkIter st a false, log)
        = (Err errIterComplete, (it', log'))
        /\ Height z <> Ok 0).
Proof.
  intros Hv Ha Hlt H0 Hf.
  pose proof Hv as [Hp [Hz [Hd Hh]]].
  destruct (iterToHeightOrLower_path st endHeight a l z Hp Hz
              (valid_heights_has_height l Hh) fuel log Hf)
    as [[pre [b [post [hb [log' [El [Hpb [Hb [Hle Ei]]]]]]]]]|[hz [s' [Hhz [Hgt Ei]]]]].
  - left. exists b, (b :: post), pre, log'. split; [exact El|]. split.
    + intros ->. cbn [app] in El. destruct (path_nonempty _ _ _ _ Hp) as [l' El'].
      rewrite El' in El. inversion El; subst. rewrite Ha in Hb. inversion Hb. lia.
    + split; [|exact Ei]. subst l. eapply valid_chain_suffix; eassumption.
  - right. destruct s' as [it' log']. exists it', log'.
    split; [exact Ei|]. rewrite Hhz. intros H. inversion H. lia.
Qed.

(** A turn of the loop on two valid chains whose current tipsets differ and
    are not both at height 0: it either leaves the iterators on two suffixes
    of the chains, one of them at least strictly shorter, or fails with
    [errIterComplete], which needs a chain that does not end at height 0. *)
Lemma FindCommonAncestor_body_progress
    (st1 st2 : ReadStore) (a b z1 z2 : TipSet) (l1 l2 : list TipSet)
    (log : Log) (fuel : nat) :
  valid_chain st1 a l1 z1 -> valid_chain st2 b l2 z2 ->
  Equals a b = false -> ~ stuck a b ->
  (length l1 < fuel)%nat -> (length l2 < fuel)%nat ->
  (exists a' b' l1' l2' p1 p2 log',
      FindCommonAncestor_body fuel
        (mkFcaSt (mkIter st1 a false) (mkIter st2 b false) log)
      = (Ok None, mkFcaSt (mkIter st1 a' false) (mkIter st2 b' false) log')
      /\ valid_chain st1 a' l1' z1 /\ valid_chain st2 b' l2' z2
      /\ l1 = p1 ++ l1' /\ l2 = p2 ++ l2'
      /\ (length l1' + length l2' < length l1 + length l2)%nat)
  \/ (exists s',
        FindCommonAncestor_body fuel
          (mkFcaSt (mkIter st1 a false) (mkIter st2 b false) log)
        = (Err errIterComplete, s')
        /\ ~ (Height z1 = Ok 0 /\ Height z2 = Ok 0)).
Proof.
  intros Hv1 Hv2 He Hns Hf1 Hf2.
  destruct (valid_chain_head _ _ _ _ Hv1) as [t1 [ha [E1 [Ha Ra]]]].
  destruct (valid_chain_head _ _ _ _ Hv2) as [t2 [hb [E2 [Hb Rb]]]].
  remember (FindCommonAncestor_body fuel
              (mkFcaSt (mkIter st1 a false) (mkIter st2 b false) log)) as R eqn:ER.
  unfold FindCommonAncestor_body in ER.
  unfold bind at 1 in ER. unfold on_old at 1, Value at 1 in ER.
  cbn [oldIter newIter reads fst value] in ER.
  unfold bind at 1 in ER. unfold on_new at 1, Value at 1 in ER.
  cbn [oldIter newIter reads fst value] in ER.
  unfold bind at 1 in ER. unfold lift at 1 in ER. rewrite Ha in ER.
  unfold bind at 1 in ER. unfold lift at 1 in ER. rewrite Hb in ER.
  rewrite He in ER.
  destruct (ha <? hb) eqn:Elt.
  { apply Z.ltb_lt in Elt.
    unfold bind, on_new, ret in ER. cbn [oldIter newIter reads] in ER.
    destruct (iterToHeightOrLower_descends st2 b z2 l2 ha hb fuel log Hv2 Hb Elt
                ltac:(lia) Hf2)
      as [[b' [l2' [pre [log' [El [Hpre [Hv' Ei]]]]]]]|[it' [log' [Ei Hz]]]];
      rewrite Ei in ER; subst R.
    - left. exists a, b', l1, l2', [], pre, log'.
      split; [reflexivity|]. split; [exact Hv1|]. split; [exact Hv'|].
      split; [reflexivity|]. split; [exact El|].
      rewrite El, length_app. destruct pre; [contradiction | cbn [length]; lia].
    - right. eexists. split; [reflexivity|]. intros [_ H]. contradiction. }
  destruct (hb <? ha) eqn:Egt.
  { apply Z.ltb_lt in Egt.
    unfold bind, on_old, ret in ER. cbn [oldIter newIter reads] in ER.
    destruct (iterToHeightOrLower_descends st1 a z1 l1 hb ha fuel log Hv1 Ha Egt
                ltac:(lia) Hf1)
      as [[a' [l1' [pre [log' [El [Hpre [Hv' Ei]]]]]]]|[it' [log' [Ei Hz]]]];
      rewrite Ei in ER; subst R.
    - left. exists a', b, l1', l2, pre, [], log'.
      split; [reflexivity|]. split; [exact Hv'|]. split; [exact Hv2|].
      split; [exact El|]. split; [reflexivity|].
      rewrite El, length_app. destruct pre; [contradiction | cbn [length]; lia].
    - right. eexists. split; [reflexivity|]. intros [H _]. contradiction. }
  apply Z.ltb_ge in Elt. apply Z.ltb_ge in Egt.
  assert (hb = ha) by lia. subst hb.
  assert (Hpos : 0 < ha).
  { destruct (Z.eq_dec ha 0) as [->|]; [|lia].
    exfalso. apply Hns. repeat split; assumption. }
  rewrite (sub64_positive ha) in ER by lia.
  unfold bind, on_old, on_new, ret in ER. cbn [oldIter newIter reads] in ER.
  destruct (iterToHeightOrLower_descends st1 a z1 l1 (ha - 1) ha fuel log Hv1 Ha
              ltac:(lia) ltac:(lia) Hf1)
    as [[a' [l1' [pre1 [log1 [El1 [Hpre1 [Hv1' Ei1]]]]]]]|[it' [log' [Ei1 Hz]]]];
    rewrite Ei1 in ER.
  2:{ subst R. right. eexists. split; [reflexivity|]. intros [H _]. contradiction. }
  cbn [oldIter newIter reads] in ER.
  destruct (iterToHeightOrLower_descends st2 b z2 l2 (ha - 1) ha fuel log1 Hv2 Hb
              ltac:(lia) ltac:(lia) Hf2)
    as [[b' [l2' [pre2 [log2 [El2 [Hpre2 [Hv2' Ei2]]]]]]]|[it' [log' [Ei2 Hz]]]];
    rewrite Ei2 in ER; subst R.
  2:{ right. eexists. split; [reflexivity|]. intros [_ H]. contradiction. }
  left. exists a', b', l1', l2', pre1, pre2, log2.
  split; [reflexivity|]. split; [exact Hv1'|]. split; [exact Hv2'|].
  split; [exact El1|]. split; [exact El2|].
  rewrite El1, El2, !length_app.
  destruct pre1; [contradiction|]. cbn [length]. lia.
Qed.

Lemma FindCommonAncestor_body_equal (fuel : nat) (s : FcaSt) (ha hb : Z) :
  Height (value (oldIter s)) = Ok ha -> Height (value (newIter s)) = Ok hb ->
  Equals (value (oldIter s)) (value (newIter s)) = true ->
  FindCommonAncestor_body fuel s = (Ok (Some (value (oldIter s))), s).
Proof.
  destruct s as [old new log]. cbn [oldIter newIter]. intros Ha Hb He.
  unfold FindCommonAncestor_body.
  unfold bind, on_old, on_new, Value, lift, ret. cbn [oldIter newIter reads fst].
  rewrite Ha, Hb, He. destruct old, new; reflexivity.
Qed.

Lemma stuck_or_not (a b : TipSet) (ha hb : Z) :
  Height a = Ok ha -> Height b = Ok hb -> Equals a b = false ->
  stuck a b \/ ~ stuck a b.
Proof.
  intros Ha Hb He.
  destruct (Z.eq_dec ha 0) as [->|Ha0]; [destruct (Z.eq_dec hb 0) as [->|Hb0]|].
  - left. repeat split; assumption.
  - right. intros [_ [Hb' _]]. rewrite Hb in Hb'. inversion Hb'. contradiction.
  - right. intros [Ha' _]. rewrite Ha in Ha'. inversion Ha'. contradiction.
Qed.

(** On two valid chains, [FindCommonAncestor] given more fuel than there are
    tipsets either returns a tipset of the first chain equal to one of the
    second, or fails with [errIterComplete], which needs a chain that does
    not end at height 0, or is caught between two distinct tipsets of
    height 0, one in each chain. *)
Theorem FindCommonAncestor_progress :
  forall n st1 st2 a b z1 z2 l1 l2 log fuel,
    (length l1 + length l2 <= n)%nat ->
    valid_chain st1 a l1 z1 -> valid_chain st2 b l2 z2 ->
    (n < fuel)%nat ->
    (exists ts ts' s',
        FindCommonAncestor fuel
          (mkFcaSt (mkIter st1 a false) (mkIter st2 b false) log) = (Ok ts, s')
        /\ In ts l1 /\ In ts' l2 /\ Equals ts ts' = true)
    \/ (exists s',
          FindCommonAncestor fuel
            (mkFcaSt (mkIter st1 a false) (mkIter st2 b false) log)
          = (Err errIterComplete, s')
          /\ ~ (Height z1 = Ok 0 /\ Height z2 = Ok 0))
    \/ (exists a' b' s',
          FindCommonAncestor fuel
            (mkFcaSt (mkIter st1 a false) (mkIter st2 b false) log)
          = (OutOfFuel, s')
          /\ In a' l1 /\ In b' l2 /\ stuck a' b').
Proof.
  induction n as [|n IH]; intros st1 st2 a b z1 z2 l1 l2 log fuel Hn Hv1 Hv2 Hf;
    destruct (valid_chain_head _ _ _ _ Hv1) as [t1 [ha [E1 [Ha Ra]]]];
    destruct (valid_chain_head _ _ _ _ Hv2) as [t2 [hb [E2 [Hb Rb]]]].
  - subst l1. cbn [length] in Hn. lia.
  - destruct fuel as [|fuel]; [lia|].
    assert (Hl1 : (length l1 < fuel)%nat) by (subst l1 l2; cbn [length] in *; lia).
    assert (Hl2 : (length l2 < fuel)%nat) by (subst l1 l2; cbn [length] in *; lia).
    destruct (Equals a b) eqn:He.
    { left. exists a, b. eexists. split.
      - cbn [FindCommonAncestor]. unfold bind.
        rewrite (FindCommonAncestor_body_equal fuel _ ha hb) by assumption.
        reflexivity.
      - subst l1 l2. repeat split; try (left; reflexivity). exact He. }
    destruct (stuck_or_not a b ha hb Ha Hb He) as [Hs|Hs].
    { right. right. exists a, b. eexists. split.
      - apply FindCommonAncestor_stuck; try reflexivity. exact Hs.
      - subst l1 l2. repeat split; try (left; reflexivity); apply Hs. }
    destruct (FindCommonAncestor_body_progress st1 st2 a b z1 z2 l1 l2 log fuel
                Hv1 Hv2 He Hs Hl1 Hl2) as [P|P].
    + destruct P as [a' [b' [l1' [l2' [p1 [p2 [log' [Eb [Hv1' [Hv2' [El1 [El2 Hlen]]]]]]]]]]]].
      cbn [FindCommonAncestor]. unfold bind. rewrite Eb.
      destruct (IH st1 st2 a' b' z1 z2 l1' l2' log' fuel) as [Q|[Q|Q]];
        try assumption; try lia.
      * left. destruct Q as [ts [ts' [s' [E [I1 [I2 Eq]]]]]].
        exists ts, ts', s'. split; [exact E|].
        split; [rewrite El1; apply in_or_app; right; exact I1|].
        split; [rewrite El2; apply in_or_app; right; exact I2 | exact Eq].
      * right. left. exact Q.
      * right. right. destruct Q as [a'' [b'' [s' [E [I1 [I2 S]]]]]].
        exists a'', b'', s'. split; [exact E|].
        split; [rewrite El1; apply in_or_app; right; exact I1|].
        split; [rewrite El2; apply in_or_app; right; exact I2 | exact S].
    + right. left. destruct P as [s' [Eb Hz]]. exists s'. split; [|exact Hz].
      cbn [FindCommonAncestor]. unfold bind. rewrite Eb. reflexivity.
Qed.

Lemma key_eqb_refl (k : TipSetKey) : key_eqb k k = true.
Proof.
  unfold key_eqb. destruct (list_eq_dec N.eq_dec k k); [reflexivity | contradiction].
Qed.

(** In a valid chain only the last tipset can have height 0. *)
Lemma height_zero_is_last (st : ReadStore) :
  forall a l z, path st a l z -> descending l -> valid_heights l ->
  forall x, In x l -> Height x = Ok 0 -> x = z.
Proof.
  intros a l z Hp. induction Hp as [a|a k p l z HP Hk HG Hp IH];
    intros Hd Hv x Hin Hx.
  - destruct Hin as [<-|[]]. reflexivity.
  - destruct (path_nonempty _ _ _ _ Hp) as [l' ->].
    inversion Hv as [|? ? _ Hv']; subst.
    destruct Hin as [<-|Hin].
    + destruct Hd as [[ha [hb [Ha [Hb Hlt]]]] _].
      rewrite Hx in Ha. inversion Ha; subst ha.
      inversion Hv' as [|? ? [hp [Hhp Hr]] _]; subst.
      rewrite Hhp in Hb. inversion Hb; subst. lia.
    + apply IH; try assumption. eapply descending_tail. exact Hd.
Qed.

(** X12: two valid chains that end at the same tipset of height 0: with more
    fuel than there are tipsets, [FindCommonAncestor] returns a tipset of the
    first chain that is equal to one of the second. *)
Theorem FindCommonAncestor_shared_genesis
    (st1 st2 : ReadStore) (a b g : TipSet) (l1 l2 : list TipSet)
    (log : Log) (fuel : nat) :
  valid_chain st1 a l1 g -> valid_chain st2 b l2 g -> Height g = Ok 0 ->
  (length l1 + length l2 < fuel)%nat ->
  exists ts ts' s',
    FindCommonAncestor fuel
      (mkFcaSt (mkIter st1 a false) (mkIter st2 b false) log) = (Ok ts, s')
    /\ In ts l1 /\ In ts' l2 /\ Equals ts ts' = true.
Proof.
  intros Hv1 Hv2 Hg Hf.
  destruct (FindCommonAncestor_progress (length l1 + length l2)
              st1 st2 a b g g l1 l2 log fuel (le_n _) Hv1 Hv2 Hf)
    as [Q|[[s' [_ Q]]|[a' [b' [s' [_ [I1 [I2 [Ha' [Hb' He]]]]]]]]]].
  - exact Q.
  - exfalso. apply Q. split; exact Hg.
  - exfalso. destruct Hv1 as [Hp1 [_ [Hd1 Hh1]]]. destruct Hv2 as [Hp2 [_ [Hd2 Hh2]]].
    rewrite (height_zero_is_last st1 a l1 g Hp1 Hd1 Hh1 a' I1 Ha') in He.
    rewrite (height_zero_is_last st2 b l2 g Hp2 Hd2 Hh2 b' I2 Hb') in He.
    unfold Equals in He. rewrite key_eqb_refl in He. discriminate.
Qed.

(** ** Further properties of [iterToHeightOrLower] *)

Lemma iterToHeightOrLower_first_loop (st : ReadStore) (endHeight : Z) :
  forall a l z, path st a l z -> Parents z = Ok [] -> Forall has_height l ->
  forall fuel log, (length l < fuel)%nat ->
    (exists pre b post hb,
        l = pre ++ b :: post /\ path st b (b :: post) z
        /\ Forall (above endHeight) pre
        /\ Height b = Ok hb /\ hb <= endHeight
        /\ iterToHeightOrLower fuel endHeight (mkIter st a false, log)
           = (Ok tt, (mkIter st b false, log ++ reads_of pre)))
    \/ (Forall (above endHeight) l
        /\ iterToHeightOrLower fuel endHeight (mkIter st a false, log)
           = (Err errIterComplete, (mkIter st z true, log ++ reads_of l))).
Proof.
  intros a l z Hp. induction Hp as [a|a k p l z HP Hk HG Hp IH];
    intros Hz Hh fuel log Hf.
  - inversion Hh as [|? ? [ha Ha] _]; subst.
    destruct fuel as [|fuel]; [cbn in Hf; lia|].
    rewrite iterToHeightOrLower_unfold. cbn [complete value]. rewrite Ha.
    destruct (ha <=? endHeight) eqn:E.
    + left. exists [], a, [], ha. apply Z.leb_le in E.
      split; [reflexivity|]. split; [apply path_end|]. split; [constructor|].
      split; [exact Ha|]. split; [exact E|].
      unfold reads_of. cbn [flat_map]. rewrite app_nil_r. reflexivity.
    + right. rewrite (Next_genesis st a false log Hz).
      destruct fuel as [|fuel]; [cbn in Hf; lia|].
      rewrite iterToHeightOrLower_unfold. cbn [complete].
      apply Z.leb_gt in E. split.
      * constructor; [|constructor]. exists ha. auto.
      * unfold reads_of. cbn [flat_map]. rewrite (next_read_genesis a Hz).
        rewrite !app_nil_r. reflexivity.
  - inversion Hh as [|? ? [ha Ha] Hh']; subst.
    destruct fuel as [|fuel]; [cbn in Hf; lia|].
    rewrite iterToHeightOrLower_unfold. cbn [complete value]. rewrite Ha.
    destruct (ha <=? endHeight) eqn:E.
    + left. exists [], a, l, ha. apply Z.leb_le in E.
      split; [reflexivity|]. split; [eapply path_link; eassumption|].
      split; [constructor|]. split; [exact Ha|]. split; [exact E|].
      unfold reads_of. cbn [flat_map]. rewrite app_nil_r. reflexivity.
    + rewrite (Next_link st a p k false log HP Hk HG).
      assert (Hf' : (length l < fuel)%nat) by (cbn in Hf; lia).
      apply Z.leb_gt in E.
      assert (Hab : above endHeight a) by (exists ha; auto).
      destruct (IH Hz Hh' fuel (log ++ [k]) Hf')
        as [[pre [b [post [hb [El [Hpb [Hpre [Hb [Hle Ei]]]]]]]]]|[Hall Ei]].
      * left. exists (a :: pre), b, post, hb. subst l.
        split; [reflexivity|]. split; [exact Hpb|].
        split; [constructor; assumption|]. split; [exact Hb|]. split; [exact Hle|].
        etransitivity; [exact Ei|]. unfold reads_of. cbn [flat_map].
        rewrite (next_read_link a k HP Hk). rewrite <- !app_assoc. reflexivity.
      * right. split; [constructor; assumption|].
        etransitivity; [exact Ei|]. unfold reads_of. cbn [flat_map].
        rewrite (next_read_link a k HP Hk). rewrite <- !app_assoc. reflexivity.
Qed.

(** X1: on an iterator at a tipset whose chain [l] reaches a tipset without
    parents with all heights defined, [iterToHeightOrLower] stops on the
    first tipset [b] of the chain whose height is at most [endHeight]: every
    tipset before it is above [endHeight], and one store read was made for
    each of them; when every tipset of the chain is above [endHeight] it
    fails with [errIterComplete], the iterator complete. *)
Theorem iterToHeightOrLower_first_at_or_below
    (it : TipsetIterator) (l : list TipSet) (endHeight : Z) (fuel : nat) (log : Log) :
  complete it = false ->
  ancestry (store it) (value it) l ->
  Forall has_height l ->
  (length l < fuel)%nat ->
  (exists pre b post hb,
      l = pre ++ b :: post
      /\ Forall (above endHeight) pre
      /\ Height b = Ok hb /\ hb <= endHeight
      /\ length (reads_of pre) = length pre
      /\ iterToHeightOrLower fuel endHeight (it, log)
         = (Ok tt, (mkIter (store it) b false, log ++ reads_of pre)))
  \/ (Forall (above endHeight) l
      /\ exists it' log',
           iterToHeightOrLower fuel endHeight (it, log)
           = (Err errIterComplete, (it', log'))
           /\ complete it' = true).
Proof.
  destruct it as [st a c]. cbn [complete store value].
  intros -> [z [Hp Hz]] Hh Hf.
  destruct (iterToHeightOrLower_first_loop st endHeight a l z Hp Hz Hh fuel log Hf)
    as [[pre [b [post [hb [El [Hpb [Hpre [Hb [Hle Ei]]]]]]]]]|[Hall Ei]].
  - left. exists pre, b, post, hb. repeat split; try assumption.
    clear Ei Hf Hpre. subst l. revert a Hp Hh.
    induction pre as [|x pre IH]; intros a Hp Hh; [reflexivity|].
    inversion Hp as [|? k p ? ? HP Hk HG Hp']; subst.
    { destruct pre; discriminate. }
    inversion Hh; subst.
    unfold reads_of. cbn [flat_map]. rewrite (next_read_link x k HP Hk).
    cbn [app length]. f_equal.
    destruct (path_nonempty _ _ _ _ Hp') as [l' El'].
    assert (p = hd p (pre ++ b :: post)) by (rewrite El'; reflexivity).
    apply (IH p); assumption.
  - right. split; [exact Hall|]. eexists. eexists. split; [exact Ei | reflexivity].
Qed.

Lemma iterToHeightOrLower_first_at_or_below_witness :
  (exists pre b post hb,
      chain_down 9 = pre ++ b :: post
      /\ Forall (above 5) pre
      /\ Height b = Ok hb /\ hb <= 5
      /\ length (reads_of pre) = length pre
      /\ iterToHeightOrLower 11 5 (IterAncestors (linear_store 9) (tipset_at 9), [])
         = (Ok tt, (mkIter (store (IterAncestors (linear_store 9) (tipset_at 9))) b false,
                    [] ++ reads_of pre)))
  \/ (Forall (above 5) (chain_down 9)
      /\ exists it' log',
           iterToHeightOrLower 11 5 (IterAncestors (linear_store 9) (tipset_at 9), [])
           = (Err errIterComplete, (it', log'))
           /\ complete it' = true).
Proof.
  apply (iterToHeightOrLower_first_at_or_below
           (IterAncestors (linear_store 9) (tipset_at 9)) (chain_down 9) 5 11 []).
  - reflexivity.
  - exact linear_store_9_ancestry.
  - exact chain_down_9_heights.
  - cbn. lia.
Defined.

(** X2: once [iterToHeightOrLower] has returned without error, calling it
    again with the same or a greater target height returns at once: the
    iterator does not move and the store is not read. *)
Theorem iterToHeightOrLower_idempotent
    (fuel fuel' : nat) (endHeight endHeight' : Z) (s s' : IterSt) :
  iterToHeightOrLower fuel endHeight s = (Ok tt, s') ->
  endHeight <= endHeight' ->
  iterToHeightOrLower (S fuel') endHeight' s' = (Ok tt, s').
Proof.
  destruct s as [it log], s' as [it' log']. intros H Hle.
  pose proof (iterToHeightOrLower_outcome endHeight fuel it log (Ok tt) it' log' H)
    as [Hc [h [Hh Hhle]]].
  apply (iterToHeightOrLower_stays fuel' endHeight' h it' log' Hc Hh). lia.
Qed.

Lemma iterToHeightOrLower_idempotent_witness :
  iterToHeightOrLower 1 7
    (mkIter (linear_store 9) (tipset_at 5) false, [[8%N]; [7%N]; [6%N]; [5%N]])
  = (Ok tt, (mkIter (linear_store 9) (tipset_at 5) false, [[8%N]; [7%N]; [6%N]; [5%N]])).
Proof.
  apply (iterToHeightOrLower_idempotent 11 0 5 7
           (IterAncestors (linear_store 9) (tipset_at 9), [])).
  - vm_compute. reflexivity.
  - lia.
Defined.

(** ** Further properties of [CollectAtMostNTipSets] *)

Lemma CollectAtMostNTipSets_loop_acc :
  forall left acc s,
    CollectAtMostNTipSets_loop left acc s
    = (res_map (app acc) (fst (CollectAtMostNTipSets_loop left [] s)),
       snd (CollectAtMostNTipSets_loop left [] s)).
Proof.
  induction left as [|left IH]; intros acc [it log].
  - cbn. rewrite app_nil_r. reflexivity.
  - destruct (complete it) eqn:Hc.
    + rewrite !CollectAtMostNTipSets_loop_complete by exact Hc.
      cbn. rewrite app_nil_r. reflexivity.
    + rewrite !CollectAtMostNTipSets_loop_turn by exact Hc.
      unfold bind. destruct (Next_total (it, log)) as [err [s1 HN]]. rewrite HN.
      destruct err as [e|]; cbn [check]; unfold fail, ret; [reflexivity|].
      rewrite (IH (acc ++ [value it])). rewrite (IH ([] ++ [value it])).
      cbn [fst snd].
      destruct (fst (CollectAtMostNTipSets_loop left [] s1)); cbn [res_map];
        try reflexivity.
      rewrite <- app_assoc. reflexivity.
Qed.

Lemma CollectAtMostNTipSets_loop_add :
  forall n m acc s,
    CollectAtMostNTipSets_loop (n + m) acc s
    = bind (CollectAtMostNTipSets_loop n acc)
           (fun r => CollectAtMostNTipSets_loop m r) s.
Proof.
  induction n as [|n IH]; intros m acc [it log].
  - reflexivity.
  - cbn [Nat.add]. destruct (complete it) eqn:Hc.
    + unfold bind. rewrite !CollectAtMostNTipSets_loop_complete by exact Hc.
      reflexivity.
    + unfold bind at 1. rewrite !CollectAtMostNTipSets_loop_turn by exact Hc.
      unfold bind. destruct (Next_total (it, log)) as [err [s1 HN]]. rewrite HN.
      destruct err as [e|]; cbn [check]; unfold fail, ret; [reflexivity|].
      rewrite IH. reflexivity.
Qed.

(** X3: for every iterator and store, collecting at most [n + m] tipsets is
    collecting at most [n] and then at most [m] more from where the iterator
    was left: the list is the two lists one after the other, the iterator
    and the store reads end up the same, and an error of either part is the
    error of the whole. *)
Theorem CollectAtMostNTipSets_split (n m : N) (s : IterSt) :
  CollectAtMostNTipSets (n + m) s
  = match CollectAtMostNTipSets n s with
    | (Ok first, s1) =>
        (res_map (app first) (fst (CollectAtMostNTipSets m s1)),
         snd (CollectAtMostNTipSets m s1))
    | (Err e, s1) => (Err e, s1)
    | (Panic, s1) => (Panic, s1)
    | (OutOfFuel, s1) => (OutOfFuel, s1)
    end.
Proof.
  unfold CollectAtMostNTipSets.
  replace (N.to_nat (n + m)) with (N.to_nat n + N.to_nat m)%nat by lia.
  rewrite CollectAtMostNTipSets_loop_add. unfold bind.
  destruct (CollectAtMostNTipSets_loop (N.to_nat n) [] s) as [[first|e| |] s1];
    try reflexivity.
  apply CollectAtMostNTipSets_loop_acc.
Qed.

(** ** Further properties of [GetRecentAncestors] *)

(** X4: when the height of [base] is below the threshold and [lookback] is
    not 0, [GetRecentAncestors] always indexes an empty list: it panics,
    without having read the store. *)
Theorem GetRecentAncestors_below_threshold_panics
    (fuel : nat) (base : TipSet) (chainReader : ReadStore)
    (childBH ancestorRoundsNeeded : BlockHeight) (lookback : N) (log : Log) (h : Z) :
  (lookback =? 0)%N = false ->
  Height base = Ok h ->
  h < earliestAncestorHeight childBH ancestorRoundsNeeded ->
  GetRecentAncestors (S fuel) base chainReader childBH ancestorRoundsNeeded
    lookback log = (Panic, log).
Proof.
  intros Hl Hh Hlt. unfold GetRecentAncestors. rewrite Hl. cbv zeta.
  unfold bind at 1. unfold with_iterator, CollectTipSetsOfHeightAtLeast.
  rewrite (CollectTipSetsOfHeightAtLeast_loop_turn fuel _ h)
    by (try reflexivity; exact Hh).
  replace (h <? earliestAncestorHeight childBH ancestorRoundsNeeded) with true
    by (symmetry; apply Z.ltb_lt; exact Hlt).
  reflexivity.
Qed.

Lemma GetRecentAncestors_below_threshold_panics_witness :
  GetRecentAncestors 1 (tipset_at 3) (linear_store 9) 9 3 2 [] = (Panic, []).
Proof.
  apply (GetRecentAncestors_below_threshold_panics 0 (tipset_at 3) (linear_store 9)
           9 3 2 [] 3).
  - reflexivity.
  - reflexivity.
  - vm_compute. reflexivity.
Defined.

(** X5: [GetRecentAncestorsOfHeaviestChain] reads the head tipset before
    anything else: when that read fails its error is returned after this one
    read; when it succeeds the call is [GetRecentAncestors] from the head
    tipset, so that with a lookback of 0 the configuration error comes after
    one store read, not before any. *)
Theorem GetRecentAncestorsOfHeaviestChain_reads_head_first
    (fuel : nat) (chainReader : ReadStore) (descendantBlockHeight : BlockHeight)
    (AncestorRoundsNeeded : Z) (LookbackParameter : N) (log : Log) :
  match GetTipSet chainReader (GetHead chainReader) with
  | Ok headTipSet =>
      GetRecentAncestorsOfHeaviestChain fuel chainReader descendantBlockHeight
        AncestorRoundsNeeded LookbackParameter log
      = GetRecentAncestors fuel headTipSet chainReader descendantBlockHeight
          AncestorRoundsNeeded LookbackParameter (log ++ [GetHead chainReader])
      /\ GetRecentAncestorsOfHeaviestChain fuel chainReader descendantBlockHeight
           AncestorRoundsNeeded 0 log
         = (Err errLookback, log ++ [GetHead chainReader])
  | Err e =>
      GetRecentAncestorsOfHeaviestChain fuel chainReader descendantBlockHeight
        AncestorRoundsNeeded LookbackParameter log
      = (Err e, log ++ [GetHead chainReader])
  | Panic => False
  | OutOfFuel => False
  end.
Proof.
  unfold GetRecentAncestorsOfHeaviestChain, bind, readTipSet, NewBlockHeight.
  destruct (GetTipSet_cases chainReader (GetHead chainReader)) as [[ts ->]|[msg ->]].
  - split; reflexivity.
  - reflexivity.
Qed.

Lemma CollectTipSetsOfHeightAtLeast_loop_stands (minHeight : Z) :
  forall fuel acc err it log prov it' log',
    match err with
    | Some _ => complete it = false
    | None => stands_after acc it log
    end ->
    CollectTipSetsOfHeightAtLeast_loop fuel minHeight acc err (it, log)
      = (Ok prov, (it', log')) ->
    stands_after prov it' log' /\ store it' = store it.
Proof.
  induction fuel as [|fuel IH]; intros acc err it log prov it' log' Hinv H.
  - discriminate.
  - cbn [CollectTipSetsOfHeightAtLeast_loop] in H.
    unfold bind, Complete, check, Value, lift, ret, fail in H. cbn [fst] in H.
    destruct (complete it) eqn:Hc; cbv beta iota in H.
    { inversion H; subst. destruct err as [e|]; [congruence | auto]. }
    destruct err as [e|]; cbv beta iota in H; [discriminate|].
    cbn [fst] in H.
    destruct (Height_cases (value it)) as [[h Hh]|[msg Hh]]; rewrite Hh in H;
      cbv beta iota in H; [|discriminate].
    destruct (LessThan (NewBlockHeight h) minHeight).
    { inversion H; subst. auto. }
    destruct (Next_cases it log) as [err' [it1 [log1 [HN C]]]]. rewrite HN in H.
    cbv beta iota in H.
    destruct err' as [e|].
    + destruct C as [-> _].
      destruct (IH (acc ++ [value it]) (Some e) it log1 prov it' log' Hc H)
        as [S1 S2]. auto.
    + assert (Hst : stands_after (acc ++ [value it]) it1 log1
                    /\ store it1 = store it).
      { destruct C as [[HP [-> ->]]|[k [p [HP [Hk [HG [-> ->]]]]]]].
        - split; [|reflexivity]. right. exists acc, (value it). split; [reflexivity|].
          left. auto.
        - split; [|reflexivity]. right. exists acc, (value it). split; [reflexivity|].
          right. cbn [complete store value]. split; [exact Hc|].
          exists k, log. auto. }
      destruct Hst as [Hst Hs1].
      destruct (IH (acc ++ [value it]) None it1 log1 prov it' log' Hst H)
        as [S1 S2]. split; [exact S1 | congruence].
Qed.

Lemma path_suffix (st : ReadStore) (b z : TipSet) (post : list TipSet) :
  forall pre a, path st a (pre ++ b :: post) z -> path st b (b :: post) z.
Proof.
  induction pre as [|x pre IH]; intros a Hp.
  - cbn [app] in Hp. destruct (path_nonempty _ _ _ _ Hp) as [l' E].
    inversion E; subst. exact Hp.
  - inversion Hp as [|? k p ? ? HP Hk HG Hp']; subst.
    + destruct pre; discriminate.
    + eapply IH. exact Hp'.
Qed.

(** X8: on a chain [l] of [base] that reaches a tipset without parents with
    all heights defined, when the height of [base] is at or above the
    threshold [GetRecentAncestors] returns the tipsets of the longest initial
    run of [l] at or above the threshold followed by the next [lookback]
    tipsets of [l], or by all that are left when fewer are; this is an
    initial segment of [l] that starts with [base], whatever heights the
    chain skips. *)
Theorem GetRecentAncestors_window_then_lookback
    (fuel : nat) (base : TipSet) (chainReader : ReadStore)
    (childBH ancestorRoundsNeeded : BlockHeight) (lookback : N) (log : Log)
    (l : list TipSet) (h : Z) :
  (lookback =? 0)%N = false ->
  ancestry chainReader base l ->
  Forall has_height l ->
  Height base = Ok h ->
  earliestAncestorHeight childBH ancestorRoundsNeeded <= h ->
  (length l < fuel)%nat ->
  let minHeight := earliestAncestorHeight childBH ancestorRoundsNeeded in
  let run := take_while (height_at_least minHeight) l in
  let rest := drop_while (height_at_least minHeight) l in
  exists log',
    GetRecentAncestors fuel base chainReader childBH ancestorRoundsNeeded lookback log
      = (Ok (run ++ firstn (N.to_nat lookback) rest), log')
    /\ run ++ firstn (N.to_nat lookback) rest
       = firstn (length run + N.to_nat lookback) l
    /\ hd base run = base /\ run <> []
    /\ length (run ++ firstn (N.to_nat lookback) rest)
       = (length run + Nat.min (N.to_nat lookback) (length rest))%nat.
Proof.
  intros Hl [g [Hp Hg]] Hh Hb Hle Hf minHeight run rest.
  pose proof (take_drop_while (height_at_least minHeight) l) as Hsplit.
  fold run in Hsplit. fold rest in Hsplit.
  destruct (path_nonempty _ _ _ _ Hp) as [l0 El].
  assert (Hrun : exists run', run = base :: run').
  { unfold run. rewrite El. cbn [take_while].
    rewrite (height_at_least_eq minHeight base h Hb).
    replace (h <? minHeight) with false by (symmetry; apply Z.ltb_ge; exact Hle).
    cbn [negb]. eauto. }
  destruct Hrun as [run' Er].
  assert (Hne : run <> []) by (rewrite Er; discriminate).
  assert (Hpre : run ++ firstn (N.to_nat lookback) rest
                 = firstn (length run + N.to_nat lookback) l).
  { transitivity (firstn (length run + N.to_nat lookback) (run ++ rest)).
    - rewrite firstn_app_2. reflexivity.
    - rewrite <- Hsplit. reflexivity. }
  assert (Hlen : length (run ++ firstn (N.to_nat lookback) rest)
                 = (length run + Nat.min (N.to_nat lookback) (length rest))%nat).
  { rewrite length_app, length_firstn. reflexivity. }
  destruct (CollectTipSetsOfHeightAtLeast_loop_path chainReader minHeight
              base l g Hp Hg Hh fuel [] log Hf) as [it' [E D]].
  fold run in E. fold rest in D. cbn [app] in E.
  assert (Hsame : with_iterator (IterAncestors chainReader base)
                    (CollectTipSetsOfHeightAtLeast fuel minHeight) log
                  = (Ok run, log ++ reads_of run)).
  { unfold with_iterator, CollectTipSetsOfHeightAtLeast, IterAncestors.
    rewrite E. reflexivity. }
  destruct rest as [|nxt rest'] eqn:Erest.
  - (* the run reaches the tipset without parents *)
    rewrite app_nil_r in Hsplit.
    exists (log ++ reads_of run). split; [|rewrite Er in *; cbn [hd]; auto].
    unfold GetRecentAncestors. rewrite Hl. cbv zeta. fold minHeight.
    unfold bind at 1. rewrite Hsame.
    unfold bind at 1. rewrite (index_last run base _ Hne).
    rewrite <- Hsplit. rewrite (path_last chainReader base g l Hp base).
    unfold bind at 1. unfold lift at 1. rewrite Hg. cbn [Len length Z.of_nat Z.eqb].
    rewrite firstn_nil, app_nil_r. reflexivity.
  - (* the run stops above [nxt] *)
    destruct D as [Dc Dv].
    pose proof (CollectTipSetsOfHeightAtLeast_loop_stands minHeight fuel [] None
                  (IterAncestors chainReader base) log run it'
                  (log ++ reads_of run) (or_introl eq_refl) E)
      as [[Hs|[pre [z [Ep Hs]]]] Hst]; [contradiction|].
    destruct Hs as [[Hc _]|[_ [k [log0 [Hz [Hk [HG _]]]]]]]; [congruence|].
    cbn [IterAncestors store] in Hst. rewrite Hst, Dv in HG.
    assert (Hpn : path chainReader nxt (nxt :: rest') g).
    { eapply path_suffix. rewrite <- Hsplit. exact Hp. }
    destruct (CollectAtMostNTipSets_loop_ancestry chainReader nxt (nxt :: rest') g
                Hpn Hg (N.to_nat lookback) [] ((log ++ reads_of run) ++ [k]))
      as [it2 E2].
    eexists. split; [|rewrite Er in *; cbn [hd]; auto].
    unfold GetRecentAncestors. rewrite Hl. cbv zeta. fold minHeight.
    unfold bind at 1. rewrite Hsame.
    unfold bind at 1. rewrite (index_last run base _ Hne).
    rewrite Ep, last_last.
    unfold bind at 1. unfold lift at 1. rewrite Hz. rewrite (Len_nonempty k Hk).
    unfold bind at 1. unfold readTipSet. rewrite HG.
    unfold bind at 1. unfold with_iterator, CollectAtMostNTipSets, IterAncestors.
    rewrite Ep in E2. rewrite E2. cbn [app]. reflexivity.
Qed.

Lemma fork_chain_valid : valid_chain fork_store fork_tipset_8 fork_chain (tipset_at 0).
Proof.
  split; [solve_path|]. split; [reflexivity|]. split.
  - cbn. repeat split; try (do 2 eexists; repeat split; try reflexivity; lia).
  - unfold valid_heights, fork_chain. cbn.
    repeat constructor; eexists; (split; [reflexivity | lia]).
Qed.

Lemma main_chain_valid :
  valid_chain fork_store (tipset_at 9) (chain_down 9) (tipset_at 0).
Proof.
  split; [solve_path|]. split; [reflexivity|]. split.
  - cbn. repeat split; try (do 2 eexists; repeat split; try reflexivity; lia).
  - unfold valid_heights. cbn.
    repeat constructor; eexists; (split; [reflexivity | lia]).
Qed.

Lemma GetRecentAncestors_window_then_lookback_witness :
  let minHeight := earliestAncestorHeight 9 3 in
  let run := take_while (height_at_least minHeight) fork_chain in
  let rest := drop_while (height_at_least minHeight) fork_chain in
  exists log',
    GetRecentAncestors 20 fork_tipset_8 fork_store 9 3 2 []
      = (Ok (run ++ firstn (N.to_nat 2) rest), log')
    /\ run ++ firstn (N.to_nat 2) rest = firstn (length run + N.to_nat 2) fork_chain
    /\ hd fork_tipset_8 run = fork_tipset_8 /\ run <> []
    /\ length (run ++ firstn (N.to_nat 2) rest)
       = (length run + Nat.min (N.to_nat 2) (length rest))%nat.
Proof.
  apply (GetRecentAncestors_window_then_lookback 20 fork_tipset_8 fork_store
           9 3 2 [] fork_chain 8).
  - reflexivity.
  - exists (tipset_at 0). split; [apply fork_chain_valid | reflexivity].
  - apply valid_heights_has_height. apply fork_chain_valid.
  - reflexivity.
  - vm_compute. discriminate.
  - cbn. lia.
Defined.

(** ** Further properties of [FindCommonAncestor] *)

(** X9: two iterators on equal tipsets whose heights can be computed:
    [FindCommonAncestor] returns the tipset of the first one at once, the
    iterators where they were and the store not read. *)
Theorem FindCommonAncestor_equal_at_once (fuel : nat) (s : FcaSt) (ha hb : Z) :
  Height (value (oldIter s)) = Ok ha -> Height (value (newIter s)) = Ok hb ->
  Equals (value (oldIter s)) (value (newIter s)) = true ->
  FindCommonAncestor (S fuel) s = (Ok (value (oldIter s)), s).
Proof.
  intros Ha Hb He. cbn [FindCommonAncestor]. unfold bind.
  rewrite (FindCommonAncestor_body_equal fuel s ha hb Ha Hb He). reflexivity.
Qed.

Lemma FindCommonAncestor_equal_at_once_witness :
  FindCommonAncestor 1
    (mkFcaSt (IterAncestors fork_store (tipset_at 4))
             (IterAncestors (linear_store 9) (tipset_at 4)) [])
  = (Ok (tipset_at 4),
     mkFcaSt (IterAncestors fork_store (tipset_at 4))
             (IterAncestors (linear_store 9) (tipset_at 4)) []).
Proof.
  apply (FindCommonAncestor_equal_at_once 0
           (mkFcaSt (IterAncestors fork_store (tipset_at 4))
                    (IterAncestors (linear_store 9) (tipset_at 4)) []) 4 4);
    reflexivity.
Defined.

(** X10: [FindCommonAncestor] computes both heights before it compares the
    tipsets: when the height of either current tipset cannot be computed
    the error is returned, also when the two iterators are on the same
    tipset, the iterators where they were and the store not read. *)
Theorem FindCommonAncestor_height_error_first (fuel : nat) (s : FcaSt) (e : error) :
  Height (value (oldIter s)) = Err e
  \/ ((exists h, Height (value (oldIter s)) = Ok h)
      /\ Height (value (newIter s)) = Err e) ->
  FindCommonAncestor (S fuel) s = (Err e, s)
  /\ exists msg, e = HeightError msg.
Proof.
  destruct s as [old new log]. cbn [oldIter newIter].
  intros H. split.
  - cbn [FindCommonAncestor]. unfold bind at 1. unfold FindCommonAncestor_body.
    unfold bind, on_old, on_new, Value, lift, ret. cbn [oldIter newIter reads fst].
    destruct H as [H|[[h Ho] H]].
    + rewrite H. destruct old, new; reflexivity.
    + rewrite Ho, H. destruct old, new; reflexivity.
  - destruct H as [H|[_ H]]; eapply Height_error_kind; exact H.
Qed.

Lemma FindCommonAncestor_height_error_first_witness :
  FindCommonAncestor 1
    (mkFcaSt (IterAncestors empty_store malformed_tipset)
             (IterAncestors empty_store malformed_tipset) [])
  = (Err (HeightError not_found),
     mkFcaSt (IterAncestors empty_store malformed_tipset)
             (IterAncestors empty_store malformed_tipset) [])
  /\ exists msg, HeightError not_found = HeightError msg.
Proof.
  apply (FindCommonAncestor_height_error_first 0
           (mkFcaSt (IterAncestors empty_store malformed_tipset)
                    (IterAncestors empty_store malformed_tipset) [])
           (HeightError not_found)).
  left. reflexivity.
Defined.

(** X11: on two valid chains (error-free down to a tipset without parents,
    [uint64] heights strictly decreasing), [FindCommonAncestor] given more
    fuel than there are tipsets has one of three outcomes: it returns a
    tipset of the first chain equal to one of the second; or it fails with
    [errIterComplete], and then the chains do not both end at height 0; or
    it is caught between two distinct tipsets of height 0, one in each
    chain, and uses up its fuel. *)
Theorem FindCommonAncestor_outcomes_on_valid_chains
    (st1 st2 : ReadStore) (a b z1 z2 : TipSet) (l1 l2 : list TipSet)
    (log : Log) (fuel : nat) :
  valid_chain st1 a l1 z1 -> valid_chain st2 b l2 z2 ->
  (length l1 + length l2 < fuel)%nat ->
  (exists ts ts' s',
      FindCommonAncestor fuel
        (mkFcaSt (IterAncestors st1 a) (IterAncestors st2 b) log) = (Ok ts, s')
      /\ In ts l1 /\ In ts' l2 /\ Equals ts ts' = true)
  \/ (exists s',
        FindCommonAncestor fuel
          (mkFcaSt (IterAncestors st1 a) (IterAncestors st2 b) log)
        = (Err errIterComplete, s')
        /\ ~ (Height z1 = Ok 0 /\ Height z2 = Ok 0))
  \/ (exists a' b' s',
        FindCommonAncestor fuel
          (mkFcaSt (IterAncestors st1 a) (IterAncestors st2 b) log)
        = (OutOfFuel, s')
        /\ In a' l1 /\ In b' l2 /\ stuck a' b').
Proof.
  intros Hv1 Hv2 Hf.
  exact (FindCommonAncestor_progress (length l1 + length l2)
           st1 st2 a b z1 z2 l1 l2 log fuel (le_n _) Hv1 Hv2 Hf).
Qed.

Lemma FindCommonAncestor_outcomes_on_valid_chains_witness :
  (exists ts ts' s',
      FindCommonAncestor 20
        (mkFcaSt (IterAncestors fork_store (tipset_at 9))
                 (IterAncestors fork_store fork_tipset_8) []) = (Ok ts, s')
      /\ In ts (chain_down 9) /\ In ts' fork_chain /\ Equals ts ts' = true)
  \/ (exists s',
        FindCommonAncestor 20
          (mkFcaSt (IterAncestors fork_store (tipset_at 9))
                   (IterAncestors fork_store fork_tipset_8) [])
        = (Err errIterComplete, s')
        /\ ~ (Height (tipset_at 0) = Ok 0 /\ Height (tipset_at 0) = Ok 0))
  \/ (exists a' b' s',
        FindCommonAncestor 20
          (mkFcaSt (IterAncestors fork_store (tipset_at 9))
                   (IterAncestors fork_store fork_tipset_8) [])
        = (OutOfFuel, s')
        /\ In a' (chain_down 9) /\ In b' fork_chain /\ stuck a' b').
Proof.
  apply (FindCommonAncestor_outcomes_on_valid_chains fork_store fork_store
           (tipset_at 9) fork_tipset_8 (tipset_at 0) (tipset_at 0)
           (chain_down 9) fork_chain [] 20).
  - exact main_chain_valid.
  - exact fork_chain_valid.
  - cbn. lia.
Defined.

Lemma FindCommonAncestor_shared_genesis_witness :
  exists ts ts' s',
    FindCommonAncestor 20
      (mkFcaSt (mkIter fork_store (tipset_at 9) false)
               (mkIter fork_store fork_tipset_8 false) []) = (Ok ts, s')
    /\ In ts (chain_down 9) /\ In ts' fork_chain /\ Equals ts ts' = true.
Proof.
  apply (FindCommonAncestor_shared_genesis fork_store fork_store
           (tipset_at 9) fork_tipset_8 (tipset_at 0) (chain_down 9) fork_chain [] 20).
  - exact main_chain_valid.
  - exact fork_chain_valid.
  - reflexivity.
  - cbn. lia.
Defined.

(** X13: whatever the stores and the tipsets, once both iterators stand on
    distinct tipsets that both have height 0, a turn of the loop leaves the
    iterators and the log of reads as they were and [FindCommonAncestor]
    returns nothing for any amount of fuel. *)
Theorem FindCommonAncestor_no_progress_at_height_zero (s : FcaSt) (fuel : nat) :
  complete (oldIter s) = false -> complete (newIter s) = false ->
  Height (value (oldIter s)) = Ok 0 -> Height (value (newIter s)) = Ok 0 ->
  Equals (value (oldIter s)) (value (newIter s)) = false ->
  FindCommonAncestor_body (S fuel) s = (Ok None, s)
  /\ FindCommonAncestor fuel s = (OutOfFuel, s).
Proof.
  intros Hco Hcn Ho Hn He.
  assert (Hs : stuck (value (oldIter s)) (value (newIter s)))
    by (repeat split; assumption).
  split.
  - exact (FindCommonAncestor_body_stuck fuel s Hco Hcn Hs).
  - exact (FindCommonAncestor_stuck s Hco Hcn Hs fuel).
Qed.

Lemma FindCommonAncestor_no_progress_at_height_zero_witness :
  FindCommonAncestor_body 8
    (mkFcaSt (IterAncestors (linear_store 9) (tipset_at 0))
             (IterAncestors empty_store (lone_tipset 50 0)) [])
  = (Ok None,
     mkFcaSt (IterAncestors (linear_store 9) (tipset_at 0))
             (IterAncestors empty_store (lone_tipset 50 0)) [])
  /\ FindCommonAncestor 7
       (mkFcaSt (IterAncestors (linear_store 9) (tipset_at 0))
                (IterAncestors empty_store (lone_tipset 50 0)) [])
     = (OutOfFuel,
        mkFcaSt (IterAncestors (linear_store 9) (tipset_at 0))
                (IterAncestors empty_store (lone_tipset 50 0)) []).
Proof.
  apply (FindCommonAncestor_no_progress_at_height_zero
           (mkFcaSt (IterAncestors (linear_store 9) (tipset_at 0))
                    (IterAncestors empty_store (lone_tipset 50 0)) []) 7);
    reflexivity.
Defined.

(** X14: two valid chains without a tipset in common, one of which does not
    end at height 0: given more fuel than there are tipsets,
    [FindCommonAncestor] fails with [errIterComplete]. *)
Theorem FindCommonAncestor_disjoint_chains
    (st1 st2 : ReadStore) (a b z1 z2 : TipSet) (l1 l2 : list TipSet)
    (log : Log) (fuel : nat) :
  valid_chain st1 a l1 z1 -> valid_chain st2 b l2 z2 ->
  (forall x x', In x l1 -> In x' l2 -> Equals x x' = false) ->
  Height z1 <> Ok 0 \/ Height z2 <> Ok 0 ->
  (length l1 + length l2 < fuel)%nat ->
  exists s',
    FindCommonAncestor fuel
      (mkFcaSt (IterAncestors st1 a) (IterAncestors st2 b) log)
    = (Err errIterComplete, s').
Proof.
  intros Hv1 Hv2 Hdis Hz Hf.
  destruct (FindCommonAncestor_progress (length l1 + length l2)
              st1 st2 a b z1 z2 l1 l2 log fuel (le_n _) Hv1 Hv2 Hf)
    as [[ts [ts' [s' [_ [I1 [I2 He]]]]]]|[[s' [E _]]|[a' [b' [s' [_ [I1 [I2 S]]]]]]]].
  - rewrite (Hdis ts ts' I1 I2) in He. discriminate.
  - exists s'. exact E.
  - exfalso. destruct S as [Ha' [Hb' _]].
    destruct Hv1 as [Hp1 [_ [Hd1 Hh1]]]. destruct Hv2 as [Hp2 [_ [Hd2 Hh2]]].
    pose proof (height_zero_is_last st1 a l1 z1 Hp1 Hd1 Hh1 a' I1 Ha') as E1.
    pose proof (height_zero_is_last st2 b l2 z2 Hp2 Hd2 Hh2 b' I2 Hb') as E2.
    subst a' b'. destruct Hz as [Hz|Hz]; contradiction.
Qed.

Lemma lone_chain_valid (c : N) :
  valid_chain empty_store (lone_tipset c 1) [lone_tipset c 1] (lone_tipset c 1).
Proof.
  split; [apply path_end|]. split; [reflexivity|]. split; [cbn; auto|].
  constructor; [|constructor]. exists 1. split; [reflexivity | lia].
Qed.

Lemma FindCommonAncestor_disjoint_chains_witness :
  exists s',
    FindCommonAncestor 5
      (mkFcaSt (IterAncestors empty_store (lone_tipset 1 1))
               (IterAncestors empty_store (lone_tipset 2 1)) [])
    = (Err errIterComplete, s').
Proof.
  apply (FindCommonAncestor_disjoint_chains empty_store empty_store
           (lone_tipset 1 1) (lone_tipset 2 1) (lone_tipset 1 1) (lone_tipset 2 1)
           [lone_tipset 1 1] [lone_tipset 2 1] [] 5).
  - exact (lone_chain_valid 1).
  - exact (lone_chain_valid 2).
  - intros x x' [<-|[]] [<-|[]]. reflexivity.
  - left. discriminate.
  - cbn. lia.
Defined.

(** The head of a valid chain is its highest tipset, and the only one of its
    height. *)
Lemma head_highest :
  forall t a x,
    descending (a :: t) -> valid_heights (a :: t) -> In x (a :: t) ->
    exists ha hx,
      Height a = Ok ha /\ Height x = Ok hx /\ 0 <= hx <= ha /\ (hx = ha -> x = a).
Proof.
  induction t as [|b t IH]; intros a x Hd Hv Hin.
  - destruct Hin as [<-|[]]. inversion Hv as [|? ? [ha [Ha Hr]] _]; subst.
    exists ha, ha. repeat split; auto; lia.
  - inversion Hv as [|? ? [ha [Ha Hr]] Hv']; subst.
    destruct Hin as [<-|Hin].
    + exists ha, ha. repeat split; auto; lia.
    + destruct Hd as [[ha' [hb [Ha' [Hb Hlt]]]] Hd'].
      rewrite Ha in Ha'. inversion Ha'; subst ha'.
      destruct (IH b x Hd' Hv' Hin) as [hb' [hx [Hb' [Hx [Hr' _]]]]].
      rewrite Hb in Hb'. inversion Hb'; subst hb'.
      exists ha, hx. repeat split; auto; lia.
Qed.

Lemma in_app_not_above (endHeight hx : Z) (x : TipSet) (pre l' : list TipSet) :
  In x (pre ++ l') -> Forall (above endHeight) pre ->
  Height x = Ok hx -> hx <= endHeight -> In x l'.
Proof.
  intros Hin Hpre Hx Hle. apply in_app_or in Hin. destruct Hin as [Hin|Hin]; [|exact Hin].
  rewrite Forall_forall in Hpre. destruct (Hpre x Hin) as [h [Hh Hlt]].
  rewrite Hx in Hh. inversion Hh; subst. lia.
Qed.

Lemma iterToHeightOrLower_descends_above (st : ReadStore) (a z : TipSet)
    (l : list TipSet) (endHeight ha : Z) (fuel : nat) (log : Log) :
  valid_chain st a l z -> Height a = Ok ha -> endHeight < ha ->
  (length l < fuel)%nat ->
  (exists b l' pre log',
      l = pre ++ l' /\ pre <> [] /\ Forall (above endHeight) pre
      /\ valid_chain st b l' z
      /\ iterToHeightOrLower fuel endHeight (mkIter st a false, log)
         = (Ok tt, (mkIter st b false, log')))
  \/ (Forall (above endHeight) l
      /\ exists it' log',
           iterToHeightOrLower fuel endHeight (mkIter st a false, log)
           = (Err errIterComplete, (it', log'))).
Proof.
  intros Hv Ha Hlt Hf.
  pose proof Hv as [Hp [Hz [Hd Hh]]].
  destruct (iterToHeightOrLower_first_loop st endHeight a l z Hp Hz
              (valid_heights_has_height l Hh) fuel log Hf)
    as [[pre [b [post [hb [El [Hpb [Hpre [Hb [Hle Ei]]]]]]]]]|[Hall Ei]].
  - left. exists b, (b :: post), pre, (log ++ reads_of pre).
    split; [exact El|]. split.
    + intros ->. cbn [app] in El. destruct (path_nonempty _ _ _ _ Hp) as [l' El'].
      rewrite El' in El. inversion El; subst. rewrite Ha in Hb. inversion Hb. lia.
    + split; [exact Hpre|]. split; [|exact Ei].
      subst l. eapply valid_chain_suffix; eassumption.
  - right. split; [exact Hall|]. eauto.
Qed.

(** A turn of the loop on two valid chains that have a tipset in common and
    whose current tipsets differ: the iterators are left on two suffixes of
    the chains, shorter in all, that still hold every common tipset. *)
Lemma FindCommonAncestor_body_keeps_common
    (st1 st2 : ReadStore) (a b z1 z2 : TipSet) (l1 l2 : list TipSet)
    (log : Log) (fuel : nat) :
  valid_chain st1 a l1 z1 -> valid_chain st2 b l2 z2 ->
  same_height_when_equal l1 l2 ->
  (exists x x', common l1 l2 x x') ->
  Equals a b = false ->
  (length l1 < fuel)%nat -> (length l2 < fuel)%nat ->
  exists a' b' l1' l2' p1 p2 log',
    FindCommonAncestor_body fuel
      (mkFcaSt (mkIter st1 a false) (mkIter st2 b false) log)
    = (Ok None, mkFcaSt (mkIter st1 a' false) (mkIter st2 b' false) log')
    /\ valid_chain st1 a' l1' z1 /\ valid_chain st2 b' l2' z2
    /\ l1 = p1 ++ l1' /\ l2 = p2 ++ l2'
    /\ (length l1' + length l2' < length l1 + length l2)%nat
    /\ (forall x x', common l1 l2 x x' -> common l1' l2' x x').
Proof.
  intros Hv1 Hv2 Hsame [x0 [x0' Hc0]] He Hf1 Hf2.
  destruct (valid_chain_head _ _ _ _ Hv1) as [t1 [ha [E1 [Ha Ra]]]].
  destruct (valid_chain_head _ _ _ _ Hv2) as [t2 [hb [E2 [Hb Rb]]]].
  (* every common tipset is at or below both current heights *)
  assert (Hbound : forall x x', common l1 l2 x x' ->
            exists hx, Height x = Ok hx /\ Height x' = Ok hx
                       /\ 0 <= hx <= ha /\ hx <= hb
                       /\ (hx = ha -> x = a) /\ (hx = hb -> x' = b)).
  { intros x x' [I1 [I2 Hxx]].
    pose proof (Hsame x x' I1 I2 Hxx) as Hh.
    destruct Hv1 as [_ [_ [Hd1 Hh1]]]. destruct Hv2 as [_ [_ [Hd2 Hh2]]].
    rewrite E1 in I1, Hd1, Hh1. rewrite E2 in I2, Hd2, Hh2.
    destruct (head_highest t1 a x Hd1 Hh1 I1) as [ha' [hx [Ha' [Hx [Rx Ux]]]]].
    destruct (head_highest t2 b x' Hd2 Hh2 I2) as [hb' [hx' [Hb' [Hx' [Rx' Ux']]]]].
    rewrite Ha in Ha'. inversion Ha'; subst ha'.
    rewrite Hb in Hb'. inversion Hb'; subst hb'.
    rewrite Hh, Hx' in Hx. inversion Hx; subst hx'.
    exists hx. repeat split; auto; try lia. congruence. }
  remember (FindCommonAncestor_body fuel
              (mkFcaSt (mkIter st1 a false) (mkIter st2 b false) log)) as R eqn:ER.
  unfold FindCommonAncestor_body in ER.
  unfold bind at 1 in ER. unfold on_old at 1, Value at 1 in ER.
  cbn [oldIter newIter reads fst value] in ER.
  unfold bind at 1 in ER. unfold on_new at 1, Value at 1 in ER.
  cbn [oldIter newIter reads fst value] in ER.
  unfold bind at 1 in ER. unfold lift at 1 in ER. rewrite Ha in ER.
  unfold bind at 1 in ER. unfold lift at 1 in ER. rewrite Hb in ER.
  rewrite He in ER.
  destruct (ha <? hb) eqn:Elt.
  { apply Z.ltb_lt in Elt.
    unfold bind, on_new, ret in ER. cbn [oldIter newIter reads] in ER.
    destruct (iterToHeightOrLower_descends_above st2 b z2 l2 ha hb fuel log Hv2 Hb
                Elt Hf2)
      as [[b' [l2' [pre [log' [El [Hpre [Habove [Hv' Ei]]]]]]]]|[Hall [it' [log' Ei]]]].
    - rewrite Ei in ER; subst R.
      exists a, b', l1, l2', [], pre, log'.
      split; [reflexivity|]. split; [exact Hv1|]. split; [exact Hv'|].
      split; [reflexivity|]. split; [exact El|]. split.
      + rewrite El, length_app. destruct pre; [contradiction | cbn [length]; lia].
      + intros x x' Hc. destruct (Hbound x x' Hc) as [hx [Hx [Hx' [Rx [Rb' _]]]]].
        destruct Hc as [I1 [I2 Hxx]]. split; [exact I1|]. split; [|exact Hxx].
        rewrite El in I2. eapply in_app_not_above; try eassumption. lia.
    - exfalso. destruct (Hbound x0 x0' Hc0) as [hx [Hx [Hx' [Rx _]]]].
      destruct Hc0 as [_ [I2 _]]. rewrite Forall_forall in Hall.
      destruct (Hall x0' I2) as [h' [Hh' Hgt]]. rewrite Hx' in Hh'.
      inversion Hh'; subst. lia. }
  destruct (hb <? ha) eqn:Egt.
  { apply Z.ltb_lt in Egt.
    unfold bind, on_old, ret in ER. cbn [oldIter newIter reads] in ER.
    destruct (iterToHeightOrLower_descends_above st1 a z1 l1 hb ha fuel log Hv1 Ha
                Egt Hf1)
      as [[a' [l1' [pre [log' [El [Hpre [Habove [Hv' Ei]]]]]]]]|[Hall [it' [log' Ei]]]].
    - rewrite Ei in ER; subst R.
      exists a', b, l1', l2, pre, [], log'.
      split; [reflexivity|]. split; [exact Hv'|]. split; [exact Hv2|].
      split; [exact El|]. split; [reflexivity|]. split.
      + rewrite El, length_app. destruct pre; [contradiction | cbn [length]; lia].
      + intros x x' Hc. destruct (Hbound x x' Hc) as [hx [Hx [Hx' [Rx [Rb' _]]]]].
        destruct Hc as [I1 [I2 Hxx]]. split; [|split; [exact I2 | exact Hxx]].
        rewrite El in I1. eapply in_app_not_above; try eassumption.
    - exfalso. destruct (Hbound x0 x0' Hc0) as [hx [Hx [Hx' [Rx [Rb' _]]]]].
      destruct Hc0 as [I1 _]. rewrite Forall_forall in Hall.
      destruct (Hall x0 I1) as [h' [Hh' Hgt]]. rewrite Hx in Hh'.
      inversion Hh'; subst. lia. }
  apply Z.ltb_ge in Elt. apply Z.ltb_ge in Egt.
  assert (hb = ha) by lia. subst hb.
  (* a common tipset at the current height would make the current tipsets equal *)
  assert (Hlow : forall x x', common l1 l2 x x' ->
            exists hx, Height x = Ok hx /\ Height x' = Ok hx /\ 0 <= hx <= ha - 1).
  { intros x x' Hc. destruct (Hbound x x' Hc) as [hx [Hx [Hx' [Rx [_ [Ua Ub]]]]]].
    exists hx. split; [exact Hx|]. split; [exact Hx'|].
    destruct (Z.eq_dec hx ha) as [Heq|Hneq]; [|lia].
    exfalso. destruct Hc as [_ [_ Hxx]].
    rewrite (Ua Heq), (Ub Heq) in Hxx. congruence. }
  assert (Hpos : 0 < ha).
  { destruct (Hlow x0 x0' Hc0) as [hx [_ [_ Rx]]]. lia. }
  rewrite (sub64_positive ha) in ER by lia.
  unfold bind, on_old, on_new, ret in ER. cbn [oldIter newIter reads] in ER.
  destruct (iterToHeightOrLower_descends_above st1 a z1 l1 (ha - 1) ha fuel log Hv1 Ha
              ltac:(lia) Hf1)
    as [[a' [l1' [pre1 [log1 [El1 [Hpre1 [Hab1 [Hv1' Ei1]]]]]]]]|[Hall [it' [log' Ei1]]]].
  2:{ exfalso. destruct (Hlow x0 x0' Hc0) as [hx [Hx [_ Rx]]].
      destruct Hc0 as [I1 _]. rewrite Forall_forall in Hall.
      destruct (Hall x0 I1) as [h' [Hh' Hgt]]. rewrite Hx in Hh'.
      inversion Hh'; subst. lia. }
  rewrite Ei1 in ER. cbn [oldIter newIter reads] in ER.
  destruct (iterToHeightOrLower_descends_above st2 b z2 l2 (ha - 1) ha fuel log1 Hv2 Hb
              ltac:(lia) Hf2)
    as [[b' [l2' [pre2 [log2 [El2 [Hpre2 [Hab2 [Hv2' Ei2]]]]]]]]|[Hall [it' [log' Ei2]]]].
  2:{ exfalso. destruct (Hlow x0 x0' Hc0) as [hx [_ [Hx' Rx]]].
      destruct Hc0 as [_ [I2 _]]. rewrite Forall_forall in Hall.
      destruct (Hall x0' I2) as [h' [Hh' Hgt]]. rewrite Hx' in Hh'.
      inversion Hh'; subst. lia. }
  rewrite Ei2 in ER; subst R.
  exists a', b', l1', l2', pre1, pre2, log2.
  split; [reflexivity|]. split; [exact Hv1'|]. split; [exact Hv2'|].
  split; [exact El1|]. split; [exact El2|]. split.
  - rewrite El1, El2, !length_app. destruct pre1; [contradiction|]. cbn [length]. lia.
  - intros x x' Hc. destruct (Hlow x x' Hc) as [hx [Hx [Hx' Rx]]].
    destruct Hc as [I1 [I2 Hxx]]. split; [|split; [|exact Hxx]].
    + rewrite El1 in I1. eapply in_app_not_above; try eassumption. lia.
    + rewrite El2 in I2. eapply in_app_not_above; try eassumption. lia.
Qed.

Lemma same_height_when_equal_suffix (p1 p2 l1' l2' : list TipSet) :
  same_height_when_equal (p1 ++ l1') (p2 ++ l2') -> same_height_when_equal l1' l2'.
Proof.
  intros H x x' I1 I2. apply H; apply in_or_app; right; assumption.
Qed.

Lemma FindCommonAncestor_highest_common_loop :
  forall n st1 st2 a b z1 z2 l1 l2 log fuel,
    (length l1 + length l2 <= n)%nat ->
    valid_chain st1 a l1 z1 -> valid_chain st2 b l2 z2 ->
    same_height_when_equal l1 l2 ->
    (exists x x', common l1 l2 x x') ->
    (n < fuel)%nat ->
    exists ts ts' s',
      FindCommonAncestor fuel
        (mkFcaSt (mkIter st1 a false) (mkIter st2 b false) log) = (Ok ts, s')
      /\ common l1 l2 ts ts'
      /\ (forall x x', common l1 l2 x x' ->
            exists hx hts, Height x = Ok hx /\ Height ts = Ok hts /\ hx <= hts).
Proof.
  induction n as [|n IH];
    intros st1 st2 a b z1 z2 l1 l2 log fuel Hn Hv1 Hv2 Hsame Hex Hf;
    destruct (valid_chain_head _ _ _ _ Hv1) as [t1 [ha [E1 [Ha Ra]]]];
    destruct (valid_chain_head _ _ _ _ Hv2) as [t2 [hb [E2 [Hb Rb]]]].
  - subst l1. cbn [length] in Hn. lia.
  - destruct fuel as [|fuel]; [lia|].
    assert (Hl1 : (length l1 < fuel)%nat) by (subst l1 l2; cbn [length] in *; lia).
    assert (Hl2 : (length l2 < fuel)%nat) by (subst l1 l2; cbn [length] in *; lia).
    destruct (Equals a b) eqn:He.
    + exists a, b. eexists. split.
      { cbn [FindCommonAncestor]. unfold bind.
        rewrite (FindCommonAncestor_body_equal fuel _ ha hb) by assumption.
        reflexivity. }
      split.
      { subst l1 l2. repeat split; try (left; reflexivity). exact He. }
      intros x x' [I1 _]. destruct Hv1 as [_ [_ [Hd1 Hh1]]].
      rewrite E1 in I1, Hd1, Hh1.
      destruct (head_highest t1 a x Hd1 Hh1 I1) as [ha' [hx [Ha' [Hx [Rx _]]]]].
      exists hx, ha'. repeat split; auto; lia.
    + destruct (FindCommonAncestor_body_keeps_common st1 st2 a b z1 z2 l1 l2 log fuel
                  Hv1 Hv2 Hsame Hex He Hl1 Hl2)
        as [a' [b' [l1' [l2' [p1 [p2 [log' [Eb [Hv1' [Hv2' [El1 [El2 [Hlen Hkeep]]]]]]]]]]]]].
      assert (Hsame' : same_height_when_equal l1' l2').
      { eapply same_height_when_equal_suffix. rewrite <- El1, <- El2. exact Hsame. }
      assert (Hex' : exists x x', common l1' l2' x x').
      { destruct Hex as [x [x' Hc]]. exists x, x'. apply Hkeep. exact Hc. }
      assert (Hn' : (length l1' + length l2' <= n)%nat) by lia.
      assert (Hf' : (n < fuel)%nat) by lia.
      destruct (IH st1 st2 a' b' z1 z2 l1' l2' log' fuel Hn' Hv1' Hv2' Hsame' Hex' Hf')
        as [ts [ts' [s' [E [[I1 [I2 Hxx]] Hmax]]]]].
      exists ts, ts', s'. split.
      { cbn [FindCommonAncestor]. unfold bind. rewrite Eb. exact E. }
      split.
      { split; [rewrite El1; apply in_or_app; right; exact I1|].
        split; [rewrite El2; apply in_or_app; right; exact I2 | exact Hxx]. }
      intros x x' Hc. apply (Hmax x x'). apply Hkeep. exact Hc.
Qed.

(** X15: two valid chains in which equal tipsets have equal heights and
    that have a tipset in common: given more fuel than there are tipsets,
    [FindCommonAncestor] returns a common tipset, and no common tipset is
    higher than the one returned. *)
Theorem FindCommonAncestor_highest_common
    (st1 st2 : ReadStore) (a b z1 z2 : TipSet) (l1 l2 : list TipSet)
    (log : Log) (fuel : nat) :
  valid_chain st1 a l1 z1 -> valid_chain st2 b l2 z2 ->
  same_height_when_equal l1 l2 ->
  (exists x x', common l1 l2 x x') ->
  (length l1 + length l2 < fuel)%nat ->
  exists ts ts' s',
    FindCommonAncestor fuel
      (mkFcaSt (IterAncestors st1 a) (IterAncestors st2 b) log) = (Ok ts, s')
    /\ common l1 l2 ts ts'
    /\ (forall x x', common l1 l2 x x' ->
          exists hx hts, Height x = Ok hx /\ Height ts = Ok hts /\ hx <= hts).
Proof.
  intros Hv1 Hv2 Hsame Hex Hf.
  exact (FindCommonAncestor_highest_common_loop (length l1 + length l2)
           st1 st2 a b z1 z2 l1 l2 log fuel (le_n _) Hv1 Hv2 Hsame Hex Hf).
Qed.

Lemma fork_chains_same_height :
  same_height_when_equal (chain_down 9) fork_chain.
Proof.
  intros x x' I1 I2 H. cbn in I1, I2.
  repeat (destruct I1 as [<-|I1]); try contradiction;
    repeat (destruct I2 as [<-|I2]); try contradiction;
    try reflexivity; vm_compute in H; discriminate.
Qed.

Lemma FindCommonAncestor_highest_common_witness :
  fst (FindCommonAncestor 20
         (mkFcaSt (IterAncestors fork_store (tipset_at 9))
                  (IterAncestors fork_store fork_tipset_8) []))
  = Ok (tipset_at 4)
  /\ exists ts ts' s',
       FindCommonAncestor 20
         (mkFcaSt (IterAncestors fork_store (tipset_at 9))
                  (IterAncestors fork_store fork_tipset_8) []) = (Ok ts, s')
       /\ common (chain_down 9) fork_chain ts ts'
       /\ (forall x x', common (chain_down 9) fork_chain x x' ->
             exists hx hts, Height x = Ok hx /\ Height ts = Ok hts /\ hx <= hts).
Proof.
  split; [vm_compute; reflexivity|].
  apply (FindCommonAncestor_highest_common fork_store fork_store
           (tipset_at 9) fork_tipset_8 (tipset_at 0) (tipset_at 0)
           (chain_down 9) fork_chain [] 20).
  - exact main_chain_valid.
  - exact fork_chain_valid.
  - exact fork_chains_same_height.
  - exists (tipset_at 4), (tipset_at 4). unfold common. cbn. intuition.
  - cbn. lia.
Defined.

(** X16: for every store, a call of [GetRecentAncestors] that returns a list
    returns one that starts with [base]; the lookback was not 0 and the
    height of [base] was computed and found at or above the threshold. *)
Theorem GetRecentAncestors_result_starts_with_base
    (fuel : nat) (base : TipSet) (chainReader : ReadStore)
    (childBH ancestorRoundsNeeded : BlockHeight) (lookback : N) (log log' : Log)
    (ts : list TipSet) :
  GetRecentAncestors fuel base chainReader childBH ancestorRoundsNeeded lookback log
    = (Ok ts, log') ->
  (exists rest, ts = base :: rest)
  /\ (exists h, Height base = Ok h
                /\ earliestAncestorHeight childBH ancestorRoundsNeeded <= h)
  /\ lookback <> 0%N.
Proof.
  unfold GetRecentAncestors.
  destruct (lookback =? 0)%N eqn:Hl; [discriminate|]. cbv zeta.
  unfold bind, lift, ret, readTipSet.
  destruct (with_iterator (IterAncestors chainReader base)
              (CollectTipSetsOfHeightAtLeast fuel
                 (earliestAncestorHeight childBH ancestorRoundsNeeded)) log)
    as [r log1] eqn:E.
  destruct (with_iterator_inv _ _ _ _ _ E) as [it1 E1].
  destruct r as [prov|e| |]; try discriminate.
  intros H.
  assert (Hprov : (exists suffix, prov = base :: suffix)
                  /\ exists h, Height base = Ok h
                     /\ earliestAncestorHeight childBH ancestorRoundsNeeded <= h).
  { unfold CollectTipSetsOfHeightAtLeast in E1.
    destruct fuel as [|fuel]; [discriminate|].
    destruct (Height_cases base) as [[h Hh]|[msg Hh]].
    - rewrite (CollectTipSetsOfHeightAtLeast_loop_turn fuel _ h) in E1
        by (try reflexivity; exact Hh).
      destruct (h <? earliestAncestorHeight childBH ancestorRoundsNeeded) eqn:Elt.
      + inversion E1; subst. discriminate.
      + unfold bind in E1.
        destruct (Next_total (IterAncestors chainReader base, log)) as [err' [s1 HN]].
        rewrite HN in E1.
        destruct (CollectTipSetsOfHeightAtLeast_loop_grows _ _ _ _ _ _ _ E1)
          as [_ Hpre].
        destruct (Hpre prov eq_refl) as [suffix ->].
        split; [exists suffix; reflexivity|].
        exists h. split; [exact Hh|]. apply Z.ltb_ge. exact Elt.
    - exfalso. cbn [CollectTipSetsOfHeightAtLeast_loop] in E1.
      unfold bind, Complete, check, Value, lift, ret in E1.
      cbn [fst IterAncestors complete value] in E1. rewrite Hh in E1. discriminate. }
  destruct Hprov as [[suffix ->] Hh].
  split; [|split; [exact Hh | intros ->; discriminate]].
  destruct (index (base :: suffix) (Z.of_nat (length (base :: suffix)) - 1) log1)
    as [[lastTs|e| |] s1]; try discriminate.
  destruct (Parents lastTs) as [cids|e| |]; try discriminate.
  destruct (Len cids =? 0).
  - inversion H; subst. eauto.
  - destruct (GetTipSet chainReader cids) as [lookBackTS|e| |]; try discriminate.
    destruct (with_iterator (IterAncestors chainReader lookBackTS)
                (CollectAtMostNTipSets lookback) (s1 ++ [cids]))
      as [[extra|e| |] s3]; try discriminate.
    inversion H; subst. cbn [app]. eauto.
Qed.

Lemma GetRecentAncestors_result_starts_with_base_witness :
  (exists rest, map tipset_at [9; 8; 7; 6; 5; 4] = tipset_at 9 :: rest)
  /\ (exists h, Height (tipset_at 9) = Ok h /\ earliestAncestorHeight 9 3 <= h)
  /\ 2%N <> 0%N.
Proof.
  apply (GetRecentAncestors_result_starts_with_base 20 (tipset_at 9) (linear_store 9)
           9 3 2 [] (snd (GetRecentAncestors 20 (tipset_at 9) (linear_store 9) 9 3 2 []))
           (map tipset_at [9; 8; 7; 6; 5; 4])).
  vm_compute. reflexivity.
Defined.

(** ** The threshold of [GetRecentAncestors]: claim C7 *)

Lemma earliestAncestorHeight_with_max
    (sub : BlockHeight -> BlockHeight -> BlockHeight)
    (childBH ancestorRoundsNeeded : BlockHeight) :
  (forall a b, sub a b = a - b \/ sub a b = Z.max 0 (a - b)) ->
  earliestAncestorHeight_with sub childBH ancestorRoundsNeeded
  = Z.max 0 (childBH - ancestorRoundsNeeded).
Proof.
  intros Hsub. unfold earliestAncestorHeight_with, LessThan, NewBlockHeight.
  destruct (Hsub childBH ancestorRoundsNeeded) as [-> | ->];
    destruct (_ <? 0) eqn:E; lia.
Qed.

Lemma GetRecentAncestors_on_chain
    (fuel : nat) (base : TipSet) (chainReader : ReadStore) (minHeight : Z)
    (childBH ancestorRoundsNeeded : BlockHeight) (lookback : N) (log : Log)
    (l : list TipSet) :
  (lookback =? 0)%N = false ->
  ancestry chainReader base l ->
  Forall has_height l ->
  (length l < fuel)%nat ->
  earliestAncestorHeight childBH ancestorRoundsNeeded = minHeight ->
  fst (CollectTipSetsOfHeightAtLeast fuel minHeight (IterAncestors chainReader base, log))
    = Ok (take_while (height_at_least minHeight) l)
  /\ (take_while (height_at_least minHeight) l <> [] ->
      fst (GetRecentAncestors fuel base chainReader childBH ancestorRoundsNeeded
             lookback log)
      = Ok (take_while (height_at_least minHeight) l
            ++ firstn (N.to_nat lookback) (drop_while (height_at_least minHeight) l)))
  /\ (take_while (height_at_least minHeight) l = [] ->
      fst (GetRecentAncestors fuel base chainReader childBH ancestorRoundsNeeded
             lookback log) = Panic).
Proof.
  intros Hl [g [Hp Hg]] Hh Hf Hmin.
  pose proof (take_drop_while (height_at_least minHeight) l) as Hsplit.
  destruct (CollectTipSetsOfHeightAtLeast_loop_path chainReader minHeight
              base l g Hp Hg Hh fuel [] log Hf) as [it' [E D]].
  cbn [app] in E.
  remember (take_while (height_at_least minHeight) l) as run eqn:Erun.
  remember (drop_while (height_at_least minHeight) l) as rest eqn:Erest.
  assert (Hsame : with_iterator (IterAncestors chainReader base)
                    (CollectTipSetsOfHeightAtLeast fuel minHeight) log
                  = (Ok run, log ++ reads_of run)).
  { unfold with_iterator, CollectTipSetsOfHeightAtLeast, IterAncestors.
    rewrite E. reflexivity. }
  split.
  { unfold CollectTipSetsOfHeightAtLeast, IterAncestors. rewrite E. reflexivity. }
  split.
  - intros Hne. unfold GetRecentAncestors. rewrite Hl. cbv zeta. rewrite Hmin.
    unfold bind at 1. rewrite Hsame.
    unfold bind at 1. rewrite (index_last run base _ Hne).
    destruct rest as [|nxt rest'].
    + rewrite app_nil_r in Hsplit. rewrite <- Hsplit.
      rewrite (path_last chainReader base g l Hp base).
      unfold bind at 1. unfold lift at 1. rewrite Hg.
      cbn [Len length Z.of_nat Z.eqb]. rewrite firstn_nil, app_nil_r. reflexivity.
    + destruct D as [Dc Dv].
      pose proof (CollectTipSetsOfHeightAtLeast_loop_stands minHeight fuel [] None
                    (IterAncestors chainReader base) log run it'
                    (log ++ reads_of run) (or_introl eq_refl) E)
        as [[Hs|[pre [z [Ep Hs]]]] Hst]; [contradiction|].
      destruct Hs as [[Hc _]|[_ [k [log0 [Hz [Hk [HG _]]]]]]]; [congruence|].
      cbn [IterAncestors store] in Hst. rewrite Hst, Dv in HG.
      assert (Hpn : path chainReader nxt (nxt :: rest') g).
      { eapply path_suffix. rewrite <- Hsplit. exact Hp. }
      destruct (CollectAtMostNTipSets_loop_ancestry chainReader nxt (nxt :: rest') g
                  Hpn Hg (N.to_nat lookback) [] ((log ++ reads_of run) ++ [k]))
        as [it2 E2].
      rewrite Ep, last_last.
      unfold bind at 1. unfold lift at 1. rewrite Hz. rewrite (Len_nonempty k Hk).
      unfold bind at 1. unfold readTipSet. rewrite HG.
      unfold bind at 1. unfold with_iterator, CollectAtMostNTipSets, IterAncestors.
      rewrite Ep in E2. rewrite E2. cbn [app]. reflexivity.
  - intros Hnil. unfold GetRecentAncestors. rewrite Hl. cbv zeta. rewrite Hmin.
    unfold bind at 1. rewrite Hsame. rewrite Hnil. reflexivity.
Qed.

(** C7: the threshold of [GetRecentAncestors] is
    [max 0 (childBH - ancestorRoundsNeeded)], whether the subtraction of
    block heights is exact (the guard of the source then clamps a negative
    difference to 0) or itself clamps at 0; and the proving-period prefix is
    collected against exactly that threshold: on an error-free chain [l] of
    [base] the prefix is the longest initial run [run] of [l] whose heights
    are at least [max 0 (childBH - ancestorRoundsNeeded)], the tipset after
    it being below, and the call returns [run] followed by the next
    [lookback] tipsets, or panics when [run] is empty. *)
Theorem GetRecentAncestors_collects_at_threshold
    (fuel : nat) (base : TipSet) (chainReader : ReadStore)
    (childBH ancestorRoundsNeeded : BlockHeight) (lookback : N) (log : Log)
    (l : list TipSet) :
  (lookback =? 0)%N = false ->
  ancestry chainReader base l ->
  Forall has_height l ->
  (length l < fuel)%nat ->
  let threshold := Z.max 0 (childBH - ancestorRoundsNeeded) in
  let run := take_while (height_at_least threshold) l in
  let rest := drop_while (height_at_least threshold) l in
  earliestAncestorHeight childBH ancestorRoundsNeeded = threshold
  /\ (forall sub,
        (forall a b, sub a b = a - b \/ sub a b = Z.max 0 (a - b)) ->
        earliestAncestorHeight_with sub childBH ancestorRoundsNeeded = threshold)
  /\ (childBH < ancestorRoundsNeeded -> threshold = 0)
  /\ fst (CollectTipSetsOfHeightAtLeast fuel
            (earliestAncestorHeight childBH ancestorRoundsNeeded)
            (IterAncestors chainReader base, log)) = Ok run
  /\ l = run ++ rest
  /\ Forall (fun ts => exists h, Height ts = Ok h /\ threshold <= h) run
  /\ match rest with
     | [] => True
     | nxt :: _ => height_below threshold nxt
     end
  /\ (run <> [] ->
      fst (GetRecentAncestors fuel base chainReader childBH ancestorRoundsNeeded
             lookback log)
      = Ok (run ++ firstn (N.to_nat lookback) rest))
  /\ (run = [] ->
      fst (GetRecentAncestors fuel base chainReader childBH ancestorRoundsNeeded
             lookback log) = Panic).
Proof.
  intros Hl Ha Hh Hf threshold run rest.
  pose proof (earliestAncestorHeight_max childBH ancestorRoundsNeeded) as Hmax.
  fold threshold in Hmax.
  destruct (GetRecentAncestors_on_chain fuel base chainReader threshold
              childBH ancestorRoundsNeeded lookback log l Hl Ha Hh Hf Hmax)
    as [Hc [Hok Hpanic]].
  fold run in Hc, Hok, Hpanic. fold rest in Hok.
  pose proof (take_drop_while (height_at_least threshold) l) as Hsplit.
  fold run in Hsplit. fold rest in Hsplit.
  split; [exact Hmax|].
  split; [intros sub Hsub; apply earliestAncestorHeight_with_max; exact Hsub|].
  split; [intros Hlt; unfold threshold; lia|].
  split; [rewrite Hmax; exact Hc|].
  split; [exact Hsplit|].
  split.
  { unfold run. eapply Forall_impl; [|apply take_while_all].
    intros a Hat. apply at_least_true. exact Hat. }
  split.
  { destruct rest as [|nxt rest'] eqn:Er; [exact I|].
    apply not_at_least_below.
    - rewrite Forall_forall in Hh. apply Hh. rewrite Hsplit.
      apply in_or_app. right. left. reflexivity.
    - eapply drop_while_head. exact Er. }
  split; assumption.
Qed.

Lemma GetRecentAncestors_collects_at_threshold_witness :
  let threshold := Z.max 0 (9 - 3) in
  let run := take_while (height_at_least threshold) fork_chain in
  let rest := drop_while (height_at_least threshold) fork_chain in
  earliestAncestorHeight 9 3 = threshold
  /\ (forall sub,
        (forall a b, sub a b = a - b \/ sub a b = Z.max 0 (a - b)) ->
        earliestAncestorHeight_with sub 9 3 = threshold)
  /\ (9 < 3 -> threshold = 0)
  /\ fst (CollectTipSetsOfHeightAtLeast 20 (earliestAncestorHeight 9 3)
            (IterAncestors fork_store fork_tipset_8, [])) = Ok run
  /\ fork_chain = run ++ rest
  /\ Forall (fun ts => exists h, Height ts = Ok h /\ threshold <= h) run
  /\ match rest with
     | [] => True
     | nxt :: _ => height_below threshold nxt
     end
  /\ (run <> [] ->
      fst (GetRecentAncestors 20 fork_tipset_8 fork_store 9 3 2 [])
      = Ok (run ++ firstn (N.to_nat 2) rest))
  /\ (run = [] ->
      fst (GetRecentAncestors 20 fork_tipset_8 fork_store 9 3 2 []) = Panic).
Proof.
  apply (GetRecentAncestors_collects_at_threshold 20 fork_tipset_8 fork_store
           9 3 2 [] fork_chain).
  - reflexivity.
  - exists (tipset_at 0). split; [apply fork_chain_valid | reflexivity].
  - apply valid_heights_has_height. apply fork_chain_valid.
  - cbn. lia.
Defined.

(** ** The errors of [FindCommonAncestor]: claim C9 *)

Lemma path_last_in (st : ReadStore) (a z : TipSet) (l : list TipSet) :
  path st a l z -> In z l.
Proof.
  intros Hp. induction Hp as [a|a k p l z HP Hk HG Hp IH]; [left; reflexivity|].
  right. exact IH.
Qed.

Lemma Next_parents_failure (st : ReadStore) (ts : TipSet) (c : bool)
    (log : Log) (e : error) :
  Parents ts = Err e ->
  Next (mkIter st ts c, log) = (Ok (Some e), (mkIter st ts c, log)).
Proof.
  intros HP. unfold Next. cbn [value]. rewrite HP. reflexivity.
Qed.

(** [iterToHeightOrLower] on a chain that may end on a failure: it stops on
    the first tipset at or below [endHeight], or, every tipset being above
    it, returns the error met beyond the last one. *)
Lemma iterToHeightOrLower_walk (st : ReadStore) (endHeight : Z) (e : error) :
  forall a l z, path st a l z -> beyond st z e -> Forall has_height l ->
  forall fuel log, (length l < fuel)%nat ->
    (exists pre b post hb log',
        l = pre ++ b :: post /\ path st b (b :: post) z
        /\ Forall (above endHeight) pre
        /\ Height b = Ok hb /\ hb <= endHeight
        /\ iterToHeightOrLower fuel endHeight (mkIter st a false, log)
           = (Ok tt, (mkIter st b false, log')))
    \/ (Forall (above endHeight) l
        /\ exists it' log',
             iterToHeightOrLower fuel endHeight (mkIter st a false, log)
             = (Err e, (it', log'))).
Proof.
  intros a l z Hp. induction Hp as [a|a k p l z HP Hk HG Hp IH];
    intros Hz Hh fuel log Hf.
  - inversion Hh as [|? ? [ha Ha] _]; subst.
    destruct fuel as [|fuel]; [cbn in Hf; lia|].
    rewrite iterToHeightOrLower_unfold. cbn [complete value]. rewrite Ha.
    destruct (ha <=? endHeight) eqn:E.
    + left. exists [], a, [], ha, log. apply Z.leb_le in E.
      split; [reflexivity|]. split; [apply path_end|]. split; [constructor|].
      split; [exact Ha|]. split; [exact E | reflexivity].
    + right. apply Z.leb_gt in E.
      split; [constructor; [exists ha; auto | constructor]|].
      destruct Hz as [[Hg ->]|[Hpe|[[k [Hpk [Hk HG]]]|[k [p [Hpk [Hk [HG Hph]]]]]]]].
      * rewrite (Next_genesis st a false log Hg).
        destruct fuel as [|fuel]; [cbn in Hf; lia|].
        rewrite iterToHeightOrLower_unfold. cbn [complete]. eauto.
      * rewrite (Next_parents_failure st a false log e Hpe). eauto.
      * rewrite (Next_store_failure st a k false log e Hpk Hk HG). eauto.
      * rewrite (Next_link st a p k false log Hpk Hk HG).
        destruct fuel as [|fuel]; [cbn in Hf; lia|].
        rewrite iterToHeightOrLower_unfold. cbn [complete value]. rewrite Hph. eauto.
  - inversion Hh as [|? ? [ha Ha] Hh']; subst.
    destruct fuel as [|fuel]; [cbn in Hf; lia|].
    rewrite iterToHeightOrLower_unfold. cbn [complete value]. rewrite Ha.
    destruct (ha <=? endHeight) eqn:E.
    + left. exists [], a, l, ha, log. apply Z.leb_le in E.
      split; [reflexivity|]. split; [eapply path_link; eassumption|].
      split; [constructor|]. split; [exact Ha|]. split; [exact E | reflexivity].
    + rewrite (Next_link st a p k false log HP Hk HG).
      assert (Hf' : (length l < fuel)%nat) by (cbn in Hf; lia).
      apply Z.leb_gt in E.
      assert (Hab : above endHeight a) by (exists ha; auto).
      destruct (IH Hz Hh' fuel (log ++ [k]) Hf')
        as [[pre [b [post [hb [log' [El [Hpb [Hpre [Hb [Hle Ei]]]]]]]]]]
           |[Hall [it' [log' Ei]]]].
      * left. exists (a :: pre), b, post, hb, log'. subst l.
        split; [reflexivity|]. split; [exact Hpb|].
        split; [constructor; assumption|]. split; [exact Hb|]. split; [exact Hle|].
        exact Ei.
      * right. split; [constructor; assumption|]. exists it', log'. exact Ei.
Qed.

Lemma open_chain_head (st : ReadStore) (a z : TipSet) (l : list TipSet) :
  open_chain st a l z ->
  exists l' h, l = a :: l' /\ Height a = Ok h /\ 0 <= h < 2 ^ 64.
Proof.
  intros [Hp [_ Hv]]. destruct (path_nonempty _ _ _ _ Hp) as [l' ->].
  inversion Hv as [|? ? [h [Hh Hr]] _]; subst. exists l', h. auto.
Qed.

Lemma open_chain_suffix (st : ReadStore) (a b z : TipSet) (pre post : list TipSet) :
  open_chain st a (pre ++ b :: post) z -> path st b (b :: post) z ->
  open_chain st b (b :: post) z.
Proof.
  intros [_ [Hd Hv]] Hp. split; [exact Hp|]. split.
  - eapply descending_app_r. exact Hd.
  - unfold valid_heights in *. apply Forall_app in Hv. apply Hv.
Qed.

Lemma iterToHeightOrLower_descends_open (st : ReadStore) (a z : TipSet)
    (l : list TipSet) (e : error) (endHeight ha : Z) (fuel : nat) (log : Log) :
  open_chain st a l z -> beyond st z e ->
  Height a = Ok ha -> endHeight < ha -> 0 <= endHeight ->
  (length l < fuel)%nat ->
  (exists b l' pre log',
      l = pre ++ l' /\ pre <> [] /\ open_chain st b l' z
      /\ iterToHeightOrLower fuel endHeight (mkIter st a false, log)
         = (Ok tt, (mkIter st b false, log')))
  \/ (Height z <> Ok 0
      /\ exists it' log',
           iterToHeightOrLower fuel endHeight (mkIter st a false, log)
           = (Err e, (it', log'))).
Proof.
  intros Hv Hz Ha Hlt H0 Hf.
  pose proof Hv as [Hp [Hd Hh]].
  destruct (iterToHeightOrLower_walk st endHeight e a l z Hp Hz
              (valid_heights_has_height l Hh) fuel log Hf)
    as [[pre [b [post [hb [log' [El [Hpb [Hpre [Hb [Hle Ei]]]]]]]]]]
       |[Hall [it' [log' Ei]]]].
  - left. exists b, (b :: post), pre, log'. split; [exact El|]. split.
    + intros ->. cbn [app] in El. destruct (path_nonempty _ _ _ _ Hp) as [l' El'].
      rewrite El' in El. inversion El; subst. rewrite Ha in Hb. inversion Hb. lia.
    + split; [|exact Ei]. subst l. eapply open_chain_suffix; eassumption.
  - right. split; [|eauto].
    rewrite Forall_forall in Hall.
    destruct (Hall z (path_last_in st a z l Hp)) as [hz [Hhz Hgt]].
    rewrite Hhz. intros H. inversion H. lia.
Qed.

(** A turn of the loop on two chains that may end on a failure, the current
    tipsets differing and not both at height 0: the iterators are left on
    two suffixes of the chains, shorter in all, or the turn returns the
    error met beyond the end of one of the chains. *)
Lemma FindCommonAncestor_body_open
    (st1 st2 : ReadStore) (a b z1 z2 : TipSet) (l1 l2 : list TipSet)
    (e1 e2 : error) (log : Log) (fuel : nat) :
  open_chain st1 a l1 z1 -> beyond st1 z1 e1 ->
  open_chain st2 b l2 z2 -> beyond st2 z2 e2 ->
  Equals a b = false -> ~ stuck a b ->
  (length l1 < fuel)%nat -> (length l2 < fuel)%nat ->
  (exists a' b' l1' l2' p1 p2 log',
      FindCommonAncestor_body fuel
        (mkFcaSt (mkIter st1 a false) (mkIter st2 b false) log)
      = (Ok None, mkFcaSt (mkIter st1 a' false) (mkIter st2 b' false) log')
      /\ open_chain st1 a' l1' z1 /\ open_chain st2 b' l2' z2
      /\ l1 = p1 ++ l1' /\ l2 = p2 ++ l2'
      /\ (length l1' + length l2' < length l1 + length l2)%nat)
  \/ (Height z1 <> Ok 0
      /\ fst (FindCommonAncestor_body fuel
                (mkFcaSt (mkIter st1 a false) (mkIter st2 b false) log)) = Err e1)
  \/ (Height z2 <> Ok 0
      /\ fst (FindCommonAncestor_body fuel
                (mkFcaSt (mkIter st1 a false) (mkIter st2 b false) log)) = Err e2).
Proof.
  intros Hv1 Hz1 Hv2 Hz2 He Hns Hf1 Hf2.
  destruct (open_chain_head _ _ _ _ Hv1) as [t1 [ha [E1 [Ha Ra]]]].
  destruct (open_chain_head _ _ _ _ Hv2) as [t2 [hb [E2 [Hb Rb]]]].
  remember (FindCommonAncestor_body fuel
              (mkFcaSt (mkIter st1 a false) (mkIter st2 b false) log)) as R eqn:ER.
  unfold FindCommonAncestor_body in ER.
  unfold bind at 1 in ER. unfold on_old at 1, Value at 1 in ER.
  cbn [oldIter newIter reads fst value] in ER.
  unfold bind at 1 in ER. unfold on_new at 1, Value at 1 in ER.
  cbn [oldIter newIter reads fst value] in ER.
  unfold bind at 1 in ER. unfold lift at 1 in ER. rewrite Ha in ER.
  unfold bind at 1 in ER. unfold lift at 1 in ER. rewrite Hb in ER.
  rewrite He in ER.
  destruct (ha <? hb) eqn:Elt.
  { apply Z.ltb_lt in Elt.
    unfold bind, on_new, ret in ER. cbn [oldIter newIter reads] in ER.
    destruct (iterToHeightOrLower_descends_open st2 b z2 l2 e2 ha hb fuel log
                Hv2 Hz2 Hb Elt ltac:(lia) Hf2)
      as [[b' [l2' [pre [log' [El [Hpre [Hv' Ei]]]]]]]|[Hnz [it' [log' Ei]]]];
      rewrite Ei in ER; subst R.
    - left. exists a, b', l1, l2', [], pre, log'.
      split; [reflexivity|]. split; [exact Hv1|]. split; [exact Hv'|].
      split; [reflexivity|]. split; [exact El|].
      rewrite El, length_app. destruct pre; [contradiction | cbn [length]; lia].
    - right. right. split; [exact Hnz | reflexivity]. }
  destruct (hb <? ha) eqn:Egt.
  { apply Z.ltb_lt in Egt.
    unfold bind, on_old, ret in ER. cbn [oldIter newIter reads] in ER.
    destruct (iterToHeightOrLower_descends_open st1 a z1 l1 e1 hb ha fuel log
                Hv1 Hz1 Ha Egt ltac:(lia) Hf1)
      as [[a' [l1' [pre [log' [El [Hpre [Hv' Ei]]]]]]]|[Hnz [it' [log' Ei]]]];
      rewrite Ei in ER; subst R.
    - left. exists a', b, l1', l2, pre, [], log'.
      split; [reflexivity|]. split; [exact Hv'|]. split; [exact Hv2|].
      split; [exact El|]. split; [reflexivity|].
      rewrite El, length_app. destruct pre; [contradiction | cbn [length]; lia].
    - right. left. split; [exact Hnz | reflexivity]. }
  apply Z.ltb_ge in Elt. apply Z.ltb_ge in Egt.
  assert (hb = ha) by lia. subst hb.
  assert (Hpos : 0 < ha).
  { destruct (Z.eq_dec ha 0) as [->|]; [|lia].
    exfalso. apply Hns. repeat split; assumption. }
  rewrite (sub64_positive ha) in ER by lia.
  unfold bind, on_old, on_new, ret in ER. cbn [oldIter newIter reads] in ER.
  destruct (iterToHeightOrLower_descends_open st1 a z1 l1 e1 (ha - 1) ha fuel log
              Hv1 Hz1 Ha ltac:(lia) ltac:(lia) Hf1)
    as [[a' [l1' [pre1 [log1 [El1 [Hpre1 [Hv1' Ei1]]]]]]]|[Hnz [it' [log' Ei1]]]];
    rewrite Ei1 in ER.
  2:{ subst R. right. left. split; [exact Hnz | reflexivity]. }
  cbn [oldIter newIter reads] in ER.
  destruct (iterToHeightOrLower_descends_open st2 b z2 l2 e2 (ha - 1) ha fuel log1
              Hv2 Hz2 Hb ltac:(lia) ltac:(lia) Hf2)
    as [[b' [l2' [pre2 [log2 [El2 [Hpre2 [Hv2' Ei2]]]]]]]|[Hnz [it' [log' Ei2]]]];
    rewrite Ei2 in ER; subst R.
  2:{ right. right. split; [exact Hnz | reflexivity]. }
  left. exists a', b', l1', l2', pre1, pre2, log2.
  split; [reflexivity|]. split; [exact Hv1'|]. split; [exact Hv2'|].
  split; [exact El1|]. split; [exact El2|].
  rewrite El1, El2, !length_app.
  destruct pre1; [contradiction|]. cbn [length]. lia.
Qed.

Lemma FindCommonAncestor_body_error (fuel : nat) (s : FcaSt) (e : error) :
  fst (FindCommonAncestor_body fuel s) = Err e ->
  fst (FindCommonAncestor (S fuel) s) = Err e.
Proof.
  intros H. cbn [FindCommonAncestor]. unfold bind.
  destruct (FindCommonAncestor_body fuel s) as [r s']. cbn [fst] in H. subst r.
  reflexivity.
Qed.

Lemma FindCommonAncestor_open_loop :
  forall n st1 st2 a b z1 z2 l1 l2 e1 e2 log fuel,
    (length l1 + length l2 <= n)%nat ->
    open_chain st1 a l1 z1 -> beyond st1 z1 e1 ->
    open_chain st2 b l2 z2 -> beyond st2 z2 e2 ->
    (n < fuel)%nat ->
    (exists ts ts',
        fst (FindCommonAncestor fuel
               (mkFcaSt (mkIter st1 a false) (mkIter st2 b false) log)) = Ok ts
        /\ In ts l1 /\ In ts' l2 /\ Equals ts ts' = true)
    \/ (Height z1 <> Ok 0
        /\ fst (FindCommonAncestor fuel
                  (mkFcaSt (mkIter st1 a false) (mkIter st2 b false) log)) = Err e1)
    \/ (Height z2 <> Ok 0
        /\ fst (FindCommonAncestor fuel
                  (mkFcaSt (mkIter st1 a false) (mkIter st2 b false) log)) = Err e2)
    \/ (exists a' b',
          fst (FindCommonAncestor fuel
                 (mkFcaSt (mkIter st1 a false) (mkIter st2 b false) log)) = OutOfFuel
          /\ In a' l1 /\ In b' l2 /\ stuck a' b').
Proof.
  induction n as [|n IH];
    intros st1 st2 a b z1 z2 l1 l2 e1 e2 log fuel Hn Hv1 Hz1 Hv2 Hz2 Hf;
    destruct (open_chain_head _ _ _ _ Hv1) as [t1 [ha [E1 [Ha Ra]]]];
    destruct (open_chain_head _ _ _ _ Hv2) as [t2 [hb [E2 [Hb Rb]]]].
  - subst l1. cbn [length] in Hn. lia.
  - destruct fuel as [|fuel]; [lia|].
    assert (Hl1 : (length l1 < fuel)%nat) by (subst l1 l2; cbn [length] in *; lia).
    assert (Hl2 : (length l2 < fuel)%nat) by (subst l1 l2; cbn [length] in *; lia).
    destruct (Equals a b) eqn:He.
    { left. exists a, b. split.
      - cbn [FindCommonAncestor]. unfold bind.
        rewrite (FindCommonAncestor_body_equal fuel _ ha hb) by assumption.
        reflexivity.
      - subst l1 l2. repeat split; try (left; reflexivity). exact He. }
    destruct (stuck_or_not a b ha hb Ha Hb He) as [Hs|Hs].
    { right. right. right. exists a, b. split.
      - rewrite FindCommonAncestor_stuck; try reflexivity. exact Hs.
      - subst l1 l2. repeat split; try (left; reflexivity); apply Hs. }
    destruct (FindCommonAncestor_body_open st1 st2 a b z1 z2 l1 l2 e1 e2 log fuel
                Hv1 Hz1 Hv2 Hz2 He Hs Hl1 Hl2) as [P|[[Hnz P]|[Hnz P]]].
    + destruct P as [a' [b' [l1' [l2' [p1 [p2 [log' [Eb [Hv1' [Hv2' [El1 [El2 Hlen]]]]]]]]]]]].
      assert (Hstep : FindCommonAncestor (S fuel)
                        (mkFcaSt (mkIter st1 a false) (mkIter st2 b false) log)
                      = FindCommonAncestor fuel
                          (mkFcaSt (mkIter st1 a' false) (mkIter st2 b' false) log')).
      { cbn [FindCommonAncestor]. unfold bind. rewrite Eb. reflexivity. }
      rewrite Hstep.
      destruct (IH st1 st2 a' b' z1 z2 l1' l2' e1 e2 log' fuel) as [Q|[Q|[Q|Q]]];
        try assumption; try lia.
      * left. destruct Q as [ts [ts' [E [I1 [I2 Eq]]]]].
        exists ts, ts'. split; [exact E|].
        split; [rewrite El1; apply in_or_app; right; exact I1|].
        split; [rewrite El2; apply in_or_app; right; exact I2 | exact Eq].
      * right. left. exact Q.
      * right. right. left. exact Q.
      * right. right. right. destruct Q as [a'' [b'' [E [I1 [I2 S]]]]].
        exists a'', b''. split; [exact E|].
        split; [rewrite El1; apply in_or_app; right; exact I1|].
        split; [rewrite El2; apply in_or_app; right; exact I2 | exact S].
    + right. left. split; [exact Hnz|].
      apply FindCommonAncestor_body_error. exact P.
    + right. right. left. split; [exact Hnz|].
      apply FindCommonAncestor_body_error. exact P.
Qed.

Lemma beyond_complete_error (st : ReadStore) (z : TipSet) (e : error) :
  beyond st z e -> (e = errIterComplete <-> Parents z = Ok []).
Proof.
  intros [[Hg ->]|[Hpe|[[k [Hpk [Hk HG]]]|[k [p [Hpk [Hk [HG Hph]]]]]]]].
  - split; auto.
  - destruct (Parents_cases z) as [[k Hk]|[msg Hm]]; [congruence|].
    rewrite Hm in Hpe. inversion Hpe; subst. split; [discriminate|congruence].
  - destruct (GetTipSet_cases st k) as [[ts Hts]|[msg Hm]]; [congruence|].
    rewrite Hm in HG. inversion HG; subst. split; [discriminate|].
    intros H. rewrite H in Hpk. inversion Hpk; subst. contradiction.
  - destruct (Height_error_kind p e Hph) as [msg ->]. split; [discriminate|].
    intros H. rewrite H in Hpk. inversion Hpk; subst. contradiction.
Qed.

(** C9: the two iterators are on error-free chains [l1] and [l2] with
    strictly decreasing heights, and a search that has to go past the last
    tipset [z1] (or [z2]) of a chain meets [e1] (or [e2]) there:
    [errIterComplete] exactly when that tipset has no parents, so that the
    iterator completes, and otherwise the error of [Parents], of the store
    or of [Height].  With more fuel than there are tipsets
    [FindCommonAncestor] then returns a tipset the chains share, or returns
    [e1] or [e2] itself, or is caught between two distinct tipsets of height
    0.  So when the chains share no tipset and do not both end at height 0
    the call fails with [e1] or [e2]: with [errIterComplete] if it is an
    iterator that completed, with the very error of the store or of the
    height otherwise; [errIterComplete] is none of those errors.  The height
    error of a current tipset is returned as it is too. *)
Theorem FindCommonAncestor_errors_returned
    (st1 st2 : ReadStore) (a b z1 z2 : TipSet) (l1 l2 : list TipSet)
    (e1 e2 : error) (log : Log) (fuel : nat) :
  open_chain st1 a l1 z1 -> beyond st1 z1 e1 ->
  open_chain st2 b l2 z2 -> beyond st2 z2 e2 ->
  (length l1 + length l2 < fuel)%nat ->
  let r := fst (FindCommonAncestor fuel
                  (mkFcaSt (IterAncestors st1 a) (IterAncestors st2 b) log)) in
  ((exists ts ts', r = Ok ts /\ In ts l1 /\ In ts' l2 /\ Equals ts ts' = true)
   \/ (Height z1 <> Ok 0 /\ r = Err e1)
   \/ (Height z2 <> Ok 0 /\ r = Err e2)
   \/ (exists a' b', r = OutOfFuel /\ In a' l1 /\ In b' l2 /\ stuck a' b'))
  /\ ((forall x x', In x l1 -> In x' l2 -> Equals x x' = false) ->
      Height z1 <> Ok 0 \/ Height z2 <> Ok 0 ->
      r = Err e1 \/ r = Err e2)
  /\ (e1 = errIterComplete <-> Parents z1 = Ok [])
  /\ (e2 = errIterComplete <-> Parents z2 = Ok [])
  /\ (forall msg, errIterComplete <> StoreError msg
                  /\ errIterComplete <> HeightError msg
                  /\ errIterComplete <> ParentsError msg)
  /\ (forall fuel' s e,
        Height (value (oldIter s)) = Err e
        \/ ((exists h, Height (value (oldIter s)) = Ok h)
            /\ Height (value (newIter s)) = Err e) ->
        fst (FindCommonAncestor (S fuel') s) = Err e).
Proof.
  intros Hv1 Hz1 Hv2 Hz2 Hf r.
  pose proof (FindCommonAncestor_open_loop (length l1 + length l2)
                st1 st2 a b z1 z2 l1 l2 e1 e2 log fuel (le_n _)
                Hv1 Hz1 Hv2 Hz2 Hf) as Hmain.
  fold r in Hmain.
  split; [exact Hmain|]. split.
  { intros Hdis Hnz.
    destruct Hmain as [[ts [ts' [_ [I1 [I2 He]]]]]|[[_ E]|[[_ E]|[a' [b' [_ [I1 [I2 S]]]]]]]].
    - rewrite (Hdis ts ts' I1 I2) in He. discriminate.
    - left. exact E.
    - right. exact E.
    - exfalso. destruct S as [Ha' [Hb' _]].
      destruct Hv1 as [Hp1 [Hd1 Hh1]]. destruct Hv2 as [Hp2 [Hd2 Hh2]].
      pose proof (height_zero_is_last st1 a l1 z1 Hp1 Hd1 Hh1 a' I1 Ha') as E1.
      pose proof (height_zero_is_last st2 b l2 z2 Hp2 Hd2 Hh2 b' I2 Hb') as E2.
      subst a' b'. destruct Hnz as [Hnz|Hnz]; contradiction. }
  split; [exact (beyond_complete_error st1 z1 e1 Hz1)|].
  split; [exact (beyond_complete_error st2 z2 e2 Hz2)|].
  split; [intros msg; repeat split; discriminate|].
  intros fuel' [old new lg] e H. cbn [oldIter newIter] in H.
  cbn [FindCommonAncestor]. unfold bind at 1. unfold FindCommonAncestor_body.
  unfold bind, on_old, on_new, Value, lift, ret. cbn [oldIter newIter reads fst].
  destruct H as [H|[[h Ho] H]].
  - rewrite H. reflexivity.
  - rewrite Ho, H. reflexivity.
Qed.

Lemma broken_chain_open :
  open_chain broken_store (tipset_at 6) [tipset_at 6; tipset_at 5] (tipset_at 5).
Proof.
  split; [solve_path|]. split.
  - cbn. repeat split; try (do 2 eexists; repeat split; try reflexivity; lia).
  - unfold valid_heights.
    repeat constructor; eexists; (split; [reflexivity | lia]).
Qed.

Lemma broken_chain_3_open :
  open_chain broken_store (tipset_at 3) (chain_down 3) (tipset_at 0).
Proof.
  split; [solve_path|]. split.
  - cbn. repeat split; try (do 2 eexists; repeat split; try reflexivity; lia).
  - unfold valid_heights. cbn.
    repeat constructor; eexists; (split; [reflexivity | lia]).
Qed.

Lemma FindCommonAncestor_errors_returned_witness :
  let r := fst (FindCommonAncestor 10
                  (mkFcaSt (IterAncestors broken_store (tipset_at 6))
                           (IterAncestors broken_store (tipset_at 3)) [])) in
  r = Err (StoreError not_found)
  /\ ((exists ts ts', r = Ok ts /\ In ts [tipset_at 6; tipset_at 5]
                      /\ In ts' (chain_down 3) /\ Equals ts ts' = true)
      \/ (Height (tipset_at 5) <> Ok 0 /\ r = Err (StoreError not_found))
      \/ (Height (tipset_at 0) <> Ok 0 /\ r = Err errIterComplete)
      \/ (exists a' b', r = OutOfFuel /\ In a' [tipset_at 6; tipset_at 5]
                        /\ In b' (chain_down 3) /\ stuck a' b'))
  /\ ((forall x x', In x [tipset_at 6; tipset_at 5] -> In x' (chain_down 3) ->
                    Equals x x' = false) ->
      Height (tipset_at 5) <> Ok 0 \/ Height (tipset_at 0) <> Ok 0 ->
      r = Err (StoreError not_found) \/ r = Err errIterComplete)
  /\ (StoreError not_found = errIterComplete <-> Parents (tipset_at 5) = Ok [])
  /\ (errIterComplete = errIterComplete <-> Parents (tipset_at 0) = Ok [])
  /\ (forall msg, errIterComplete <> StoreError msg
                  /\ errIterComplete <> HeightError msg
                  /\ errIterComplete <> ParentsError msg)
  /\ (forall fuel' s e,
        Height (value (oldIter s)) = Err e
        \/ ((exists h, Height (value (oldIter s)) = Ok h)
            /\ Height (value (newIter s)) = Err e) ->
        fst (FindCommonAncestor (S fuel') s) = Err e).
Proof.
  cbv zeta. split; [vm_compute; reflexivity|].
  apply (FindCommonAncestor_errors_returned broken_store broken_store
           (tipset_at 6) (tipset_at 3) (tipset_at 5) (tipset_at 0)
           [tipset_at 6; tipset_at 5] (chain_down 3)
           (StoreError not_found) errIterComplete [] 10).
  - exact broken_chain_open.
  - right. right. left. exists [4%N]. repeat split; try reflexivity. discriminate.
  - exact broken_chain_3_open.
  - left. split; reflexivity.
  - cbn. lia.
Defined.

(** ** The collectors whatever a failed step leaves behind *)

Lemma Next_any_success (after_failure : TipsetIterator -> TipsetIterator)
    (s s1 : IterSt) :
  Next s = (Ok None, s1) -> Next_any after_failure s = (Ok None, s1).
Proof.
  destruct s as [it log]. unfold Next, Next_any.
  destruct (Parents (value it)) as [k|e| |]; try discriminate.
  destruct (Len k =? 0); [auto|].
  destruct (GetTipSet (store it) k) as [ts|e| |]; try discriminate. auto.
Qed.

Lemma Next_any_failure (after_failure : TipsetIterator -> TipsetIterator)
    (it it1 : TipsetIterator) (log log1 : Log) (e : error) :
  Next (it, log) = (Ok (Some e), (it1, log1)) ->
  Next_any after_failure (it, log) = (Ok (Some e), (after_failure it, log1)).
Proof.
  unfold Next, Next_any.
  destruct (Parents (value it)) as [k|e'| |]; try discriminate.
  - destruct (Len k =? 0); [discriminate|].
    destruct (GetTipSet (store it) k) as [ts|e'| |]; try discriminate.
    intros H. inversion H; subst. reflexivity.
  - intros H. inversion H; subst. reflexivity.
Qed.

Lemma Next_any_same (s : IterSt) : Next_any (fun it => it) s = Next s.
Proof.
  destruct s as [it log]. unfold Next, Next_any.
  destruct (Parents (value it)) as [k|e| |]; try reflexivity.
Qed.

Lemma CollectTipSetsOfHeightAtLeast_loop_any_same (minHeight : Z) :
  forall fuel acc err s,
    CollectTipSetsOfHeightAtLeast_loop_any (fun it => it) fuel minHeight acc err s
    = CollectTipSetsOfHeightAtLeast_loop fuel minHeight acc err s.
Proof.
  induction fuel as [|fuel IH]; intros acc err [it log]; [reflexivity|].
  cbn [CollectTipSetsOfHeightAtLeast_loop_any CollectTipSetsOfHeightAtLeast_loop].
  unfold bind, Complete, check, Value, lift, ret, fail. cbn [fst].
  destruct (complete it); [reflexivity|]. cbv beta iota.
  destruct err as [e|]; [reflexivity|]. cbv beta iota. cbn [fst].
  destruct (Height (value it)) as [h|e| |]; try reflexivity.
  destruct (LessThan (NewBlockHeight h) minHeight); [reflexivity|].
  rewrite Next_any_same.
  destruct (Next (it, log)) as [[err'|e| |] s1]; try reflexivity. apply IH.
Qed.

Lemma CollectAtMostNTipSets_loop_any_same :
  forall left acc s,
    CollectAtMostNTipSets_loop_any (fun it => it) left acc s
    = CollectAtMostNTipSets_loop left acc s.
Proof.
  induction left as [|left IH]; intros acc [it log]; [reflexivity|].
  cbn [CollectAtMostNTipSets_loop_any CollectAtMostNTipSets_loop].
  unfold bind, Complete, Value, ret. cbn [fst].
  destruct (complete it); [reflexivity|]. cbv beta iota.
  rewrite Next_any_same.
  destruct (Next (it, log)) as [[err'|e| |] s1]; try reflexivity.
  destruct err' as [e|]; cbn [check]; unfold fail, ret; [reflexivity|]. apply IH.
Qed.

Lemma GetRecentAncestors_any_same
    (fuel : nat) (base : TipSet) (chainReader : ReadStore)
    (childBH ancestorRoundsNeeded : BlockHeight) (lookback : N) (log : Log) :
  GetRecentAncestors_any (fun it => it) fuel base chainReader childBH
    ancestorRoundsNeeded lookback log
  = GetRecentAncestors fuel base chainReader childBH ancestorRoundsNeeded lookback log.
Proof.
  unfold GetRecentAncestors_any, GetRecentAncestors.
  destruct (lookback =? 0)%N; [reflexivity|]. cbv zeta.
  unfold bind, with_iterator, CollectTipSetsOfHeightAtLeast_any,
    CollectTipSetsOfHeightAtLeast, CollectAtMostNTipSets_any, CollectAtMostNTipSets.
  rewrite CollectTipSetsOfHeightAtLeast_loop_any_same.
  destruct (CollectTipSetsOfHeightAtLeast_loop fuel
              (earliestAncestorHeight childBH ancestorRoundsNeeded) [] None
              (IterAncestors chainReader base, log)) as [[prov|e| |] [it1 log1]];
    try reflexivity.
  destruct (index prov (Z.of_nat (length prov) - 1) log1) as [[lastTs|e| |] s1];
    try reflexivity.
  destruct (lift (Parents lastTs) s1) as [[cids|e| |] s2]; try reflexivity.
  destruct (Len cids =? 0); [reflexivity|].
  destruct (readTipSet chainReader cids s2) as [[ts|e| |] s3]; try reflexivity.
  rewrite CollectAtMostNTipSets_loop_any_same. reflexivity.
Qed.

Lemma CollectTipSetsOfHeightAtLeast_loop_any_turn
    (after_failure : TipsetIterator -> TipsetIterator)
    (fuel : nat) (minHeight h : Z)
    (acc : list TipSet) (it : TipsetIterator) (log : Log) :
  complete it = false -> Height (value it) = Ok h ->
  CollectTipSetsOfHeightAtLeast_loop_any after_failure (S fuel) minHeight acc None
    (it, log) =
  if h <? minHeight then (Ok acc, (it, log))
  else bind (Next_any after_failure)
         (fun err' => CollectTipSetsOfHeightAtLeast_loop_any after_failure fuel
                        minHeight (acc ++ [value it]) err') (it, log).
Proof.
  intros Hc Hh. cbn [CollectTipSetsOfHeightAtLeast_loop_any].
  unfold bind at 1. unfold Complete at 1. cbn [fst]. rewrite Hc.
  unfold bind at 1. unfold check, ret at 1.
  unfold bind at 1. unfold Value at 1. cbn [fst].
  unfold bind at 1. unfold lift at 1. rewrite Hh.
  unfold LessThan, NewBlockHeight. destruct (h <? minHeight); reflexivity.
Qed.

(** The turn that follows a failed step: the condition of the loop is tested
    before the pending error. *)
Lemma CollectTipSetsOfHeightAtLeast_loop_any_pending
    (after_failure : TipsetIterator -> TipsetIterator)
    (fuel : nat) (minHeight : Z)
    (acc : list TipSet) (e : error) (it : TipsetIterator) (log : Log) :
  CollectTipSetsOfHeightAtLeast_loop_any after_failure (S fuel) minHeight acc (Some e)
    (it, log)
  = ((if complete it then Ok acc else Err e), (it, log)).
Proof.
  cbn [CollectTipSetsOfHeightAtLeast_loop_any].
  unfold bind at 1. unfold Complete at 1. cbn [fst].
  destruct (complete it); reflexivity.
Qed.

Lemma CollectTipSetsOfHeightAtLeast_loop_any_store_failure
    (after_failure : TipsetIterator -> TipsetIterator)
    (st : ReadStore) (minHeight : Z) (k : TipSetKey) (e : error) :
  forall a l z, path st a l z ->
  Forall (fun ts => height_at_least minHeight ts = true) l ->
  Parents z = Ok k -> k <> [] -> GetTipSet st k = Err e ->
  forall fuel acc log, (length l < fuel)%nat ->
    CollectTipSetsOfHeightAtLeast_loop_any after_failure fuel minHeight acc None
      (mkIter st a false, log)
    = ((if complete (after_failure (mkIter st z false))
        then Ok (acc ++ l) else Err e),
       (after_failure (mkIter st z false), log ++ reads_of l)).
Proof.
  intros a l z Hp. induction Hp as [a|a k' p l z HP Hk' HG' Hp IH];
    intros Hall Hz Hk HG fuel acc log Hf;
    inversion Hall as [|? ? Ha Hall']; subst;
    destruct (at_least_true _ _ Ha) as [h [Hh Hle]];
    (destruct fuel as [|fuel]; [cbn in Hf; lia|]);
    rewrite (CollectTipSetsOfHeightAtLeast_loop_any_turn after_failure fuel minHeight h)
      by (cbn; auto);
    (replace (h <? minHeight) with false by (symmetry; apply Z.ltb_ge; exact Hle));
    unfold bind.
  - rewrite (Next_any_failure after_failure _ _ _ _ e
               (Next_store_failure st a k false log e Hz Hk HG)).
    destruct fuel as [|fuel]; [cbn in Hf; lia|].
    rewrite CollectTipSetsOfHeightAtLeast_loop_any_pending.
    unfold reads_of. cbn [flat_map value]. rewrite (next_read_link a k Hz Hk).
    rewrite app_nil_r. reflexivity.
  - rewrite (Next_any_success after_failure _ _
               (Next_link st a p k' false log HP Hk' HG')).
    assert (Hf' : (length l < fuel)%nat) by (cbn in Hf; lia).
    etransitivity; [exact (IH Hall' Hz Hk HG fuel _ _ Hf')|].
    unfold reads_of. cbn [flat_map value]. rewrite (next_read_link a k' HP Hk').
    rewrite <- !app_assoc. reflexivity.
Qed.

(** X7: the tipsets [l] from [base] are all at or above the threshold and
    the parent of the last of them, [z], cannot be read from the store.
    Whatever iterator the failed step leaves behind,
    [CollectTipSetsOfHeightAtLeast] tests its [Complete] before the pending
    error: it returns the store's error [e] and no list when that iterator
    is not complete, and the list [l] with no error when it is complete.
    [GetRecentAncestors] returns [e] in both cases, from the collection or
    from its own lookup of the same key. *)
Theorem GetRecentAncestors_store_error_any_iterator
    (after_failure : TipsetIterator -> TipsetIterator)
    (fuel : nat) (base z : TipSet) (chainReader : ReadStore)
    (childBH ancestorRoundsNeeded : BlockHeight) (lookback : N) (log : Log)
    (l : list TipSet) (k : TipSetKey) (e : error) :
  (lookback =? 0)%N = false ->
  path chainReader base l z ->
  Forall (fun ts => height_at_least
                      (earliestAncestorHeight childBH ancestorRoundsNeeded) ts = true) l ->
  Parents z = Ok k -> k <> [] -> GetTipSet chainReader k = Err e ->
  (length l < fuel)%nat ->
  CollectTipSetsOfHeightAtLeast_any after_failure fuel
    (earliestAncestorHeight childBH ancestorRoundsNeeded)
    (IterAncestors chainReader base, log)
    = ((if complete (after_failure (mkIter chainReader z false))
        then Ok l else Err e),
       (after_failure (mkIter chainReader z false), log ++ reads_of l))
  /\ fst (GetRecentAncestors_any after_failure fuel base chainReader childBH
            ancestorRoundsNeeded lookback log) = Err e
  /\ fst (GetRecentAncestors fuel base chainReader childBH ancestorRoundsNeeded
            lookback log) = Err e
  /\ exists msg, e = StoreError msg.
Proof.
  intros Hl Hp Hall Hz Hk HG Hf.
  assert (Hany : forall after,
             CollectTipSetsOfHeightAtLeast_any after fuel
               (earliestAncestorHeight childBH ancestorRoundsNeeded)
               (IterAncestors chainReader base, log)
             = ((if complete (after (mkIter chainReader z false))
                 then Ok l else Err e),
                (after (mkIter chainReader z false), log ++ reads_of l))
             /\ fst (GetRecentAncestors_any after fuel base chainReader childBH
                       ancestorRoundsNeeded lookback log) = Err e).
  { intros after.
    pose proof (CollectTipSetsOfHeightAtLeast_loop_any_store_failure after chainReader
                  (earliestAncestorHeight childBH ancestorRoundsNeeded) k e
                  base l z Hp Hall Hz Hk HG fuel [] log Hf) as E.
    cbn [app] in E. split; [exact E|].
    unfold GetRecentAncestors_any. rewrite Hl. cbv zeta.
    unfold bind at 1.
    unfold with_iterator at 1, CollectTipSetsOfHeightAtLeast_any, IterAncestors.
    rewrite E.
    destruct (after (mkIter chainReader z false)) as [st' v' c'].
    cbn [complete]. destruct c'; [|reflexivity].
    unfold bind at 1.
    rewrite (index_last l base)
      by (destruct (path_nonempty _ _ _ _ Hp) as [l' ->]; discriminate).
    rewrite (path_last chainReader base z l Hp base).
    unfold bind at 1. unfold lift at 1. rewrite Hz. rewrite (Len_nonempty k Hk).
    unfold bind at 1. unfold readTipSet. rewrite HG. reflexivity. }
  destruct (Hany after_failure) as [E1 E2].
  split; [exact E1|]. split; [exact E2|]. split.
  - rewrite <- GetRecentAncestors_any_same. apply Hany.
  - destruct (GetTipSet_cases chainReader k) as [[ts Hts]|[msg Hm]]; [congruence|].
    exists msg. congruence.
Qed.

(** An iterator that becomes complete when a step fails. *)
Lemma GetRecentAncestors_store_error_any_iterator_witness :
  CollectTipSetsOfHeightAtLeast_any
    (fun it => mkIter (store it) (value it) true) 5 (earliestAncestorHeight 7 4)
    (IterAncestors broken_store (tipset_at 6), [])
    = ((if complete ((fun it => mkIter (store it) (value it) true)
                       (mkIter broken_store (tipset_at 5) false))
        then Ok [tipset_at 6; tipset_at 5] else Err (StoreError not_found)),
       ((fun it => mkIter (store it) (value it) true)
          (mkIter broken_store (tipset_at 5) false),
        [] ++ reads_of [tipset_at 6; tipset_at 5]))
  /\ fst (GetRecentAncestors_any (fun it => mkIter (store it) (value it) true)
            5 (tipset_at 6) broken_store 7 4 2 []) = Err (StoreError not_found)
  /\ fst (GetRecentAncestors 5 (tipset_at 6) broken_store 7 4 2 [])
     = Err (StoreError not_found)
  /\ exists msg, StoreError not_found = StoreError msg.
Proof.
  apply (GetRecentAncestors_store_error_any_iterator
           (fun it => mkIter (store it) (value it) true)
           5 (tipset_at 6) (tipset_at 5) broken_store 7 4 2 []
           [tipset_at 6; tipset_at 5] [4%N] (StoreError not_found)).
  - reflexivity.
  - solve_path.
  - repeat constructor.
  - reflexivity.
  - discriminate.
  - reflexivity.
  - cbn. lia.
Defined.

Lemma Next_any_cases (after_failure : TipsetIterator -> TipsetIterator)
    (it : TipsetIterator) (log : Log) :
  exists err it1 log1,
    Next_any after_failure (it, log) = (Ok err, (it1, log1))
    /\ match err with
       | Some e => it1 = after_failure it
       | None =>
           (Parents (value it) = Ok []
            /\ it1 = mkIter (store it) (value it) true /\ log1 = log)
           \/ (exists k p,
                 Parents (value it) = Ok k /\ k <> []
                 /\ GetTipSet (store it) k = Ok p
                 /\ it1 = mkIter (store it) p (complete it) /\ log1 = log ++ [k])
       end.
Proof.
  destruct (Next_cases it log) as [err [it1 [log1 [HN C]]]].
  destruct err as [e|].
  - exists (Some e), (after_failure it), log1. split; [|reflexivity].
    eapply Next_any_failure. exact HN.
  - exists None, it1, log1. split; [|exact C].
    apply Next_any_success. exact HN.
Qed.

Lemma CollectTipSetsOfHeightAtLeast_loop_any_stands
    (after_failure : TipsetIterator -> TipsetIterator) (minHeight : Z) :
  forall fuel acc it log prov it' log',
    stands_after acc it log ->
    CollectTipSetsOfHeightAtLeast_loop_any after_failure fuel minHeight acc None
      (it, log) = (Ok prov, (it', log')) ->
    complete it' = false ->
    stands_after prov it' log' /\ store it' = store it.
Proof.
  induction fuel as [|fuel IH]; intros acc it log prov it' log' Hinv H Hc'.
  - discriminate.
  - destruct (complete it) eqn:Hc.
    { cbn [CollectTipSetsOfHeightAtLeast_loop_any] in H.
      unfold bind at 1 in H. unfold Complete at 1 in H. cbn [fst] in H.
      rewrite Hc in H. inversion H; subst. auto. }
    destruct (Height_cases (value it)) as [[h Hh]|[msg Hh]].
    2:{ cbn [CollectTipSetsOfHeightAtLeast_loop_any] in H.
        unfold bind, Complete, check, Value, lift, ret in H. cbn [fst] in H.
        rewrite Hc in H. cbv beta iota in H. cbn [fst] in H. rewrite Hh in H.
        discriminate. }
    rewrite (CollectTipSetsOfHeightAtLeast_loop_any_turn after_failure fuel
               minHeight h acc it log Hc Hh) in H.
    destruct (h <? minHeight).
    { inversion H; subst. auto. }
    unfold bind in H.
    destruct (Next_any_cases after_failure it log) as [err' [it1 [log1 [HN C]]]].
    rewrite HN in H. destruct err' as [e|].
    + exfalso. destruct fuel as [|fuel]; [discriminate|].
      rewrite CollectTipSetsOfHeightAtLeast_loop_any_pending in H.
      destruct (complete it1) eqn:Hc1; inversion H; subst. congruence.
    + assert (Hst : stands_after (acc ++ [value it]) it1 log1
                    /\ store it1 = store it).
      { destruct C as [[HP [-> ->]]|[k [p [HP [Hk [HG [-> ->]]]]]]].
        - split; [|reflexivity]. right. exists acc, (value it). split; [reflexivity|].
          left. auto.
        - split; [|reflexivity]. right. exists acc, (value it). split; [reflexivity|].
          right. cbn [complete store value]. split; [exact Hc|].
          exists k, log. auto. }
      destruct Hst as [Hst Hs1].
      destruct (IH (acc ++ [value it]) it1 log1 prov it' log' Hst H Hc')
        as [S1 S2]. split; [exact S1 | congruence].
Qed.

(** X6: whatever iterator a failed step leaves behind, when the collection
    of the proving-period ancestors returns a non-empty list and its
    iterator is not complete (it stopped on a tipset below the threshold),
    the parent key [k] of the last tipset collected is the last key read and
    resolves to the tipset the iterator stands on; the lookup of [k] that
    [GetRecentAncestors] makes next then succeeds, reading [k] a second
    time, and the outcome of the call is the collected list followed by what
    [CollectAtMostNTipSets] returns from that tipset. *)
Theorem GetRecentAncestors_lookback_base_read_twice
    (after_failure : TipsetIterator -> TipsetIterator)
    (fuel : nat) (base : TipSet) (chainReader : ReadStore)
    (childBH ancestorRoundsNeeded : BlockHeight) (lookback : N) (log log' : Log)
    (provingPeriodAncestors : list TipSet) (it' : TipsetIterator) :
  (lookback =? 0)%N = false ->
  CollectTipSetsOfHeightAtLeast_any after_failure fuel
    (earliestAncestorHeight childBH ancestorRoundsNeeded)
    (IterAncestors chainReader base, log) = (Ok provingPeriodAncestors, (it', log')) ->
  provingPeriodAncestors <> [] ->
  complete it' = false ->
  exists k log0,
    Parents (last provingPeriodAncestors base) = Ok k /\ k <> []
    /\ GetTipSet chainReader k = Ok (value it')
    /\ log' = log0 ++ [k]
    /\ GetRecentAncestors_any after_failure fuel base chainReader childBH
         ancestorRoundsNeeded lookback log
       = (res_map (app provingPeriodAncestors)
            (fst (with_iterator (IterAncestors chainReader (value it'))
                    (CollectAtMostNTipSets_any after_failure lookback)
                    (log' ++ [k]))),
          snd (with_iterator (IterAncestors chainReader (value it'))
                 (CollectAtMostNTipSets_any after_failure lookback)
                 (log' ++ [k]))).
Proof.
  intros Hl H Hne Hc.
  unfold CollectTipSetsOfHeightAtLeast_any in H.
  destruct (CollectTipSetsOfHeightAtLeast_loop_any_stands after_failure _ fuel []
              (IterAncestors chainReader base) log provingPeriodAncestors it' log'
              (or_introl eq_refl) H Hc) as [[Hs|[pre [z [Ep Hs]]]] Hst];
    [contradiction|].
  subst provingPeriodAncestors. cbn [IterAncestors store] in Hst.
  destruct Hs as [[Hc' _]|[_ [k [log0 [Hz [Hk [HG Hlog]]]]]]]; [congruence|].
  rewrite Hst in HG. exists k, log0. rewrite last_last.
  split; [exact Hz|]. split; [exact Hk|]. split; [exact HG|]. split; [exact Hlog|].
  unfold GetRecentAncestors_any. rewrite Hl. cbv zeta.
  unfold bind at 1. unfold with_iterator at 1, CollectTipSetsOfHeightAtLeast_any.
  rewrite H. unfold bind at 1.
  rewrite (index_last (pre ++ [z]) base) by (destruct pre; discriminate).
  rewrite last_last. unfold bind at 1. unfold lift at 1. rewrite Hz.
  rewrite (Len_nonempty k Hk).
  unfold bind at 1. unfold readTipSet. rewrite HG.
  unfold bind, ret.
  destruct (with_iterator (IterAncestors chainReader (value it'))
              (CollectAtMostNTipSets_any after_failure lookback) (log' ++ [k]))
    as [[extra|e| |] log2]; reflexivity.
Qed.

Lemma GetRecentAncestors_lookback_base_read_twice_witness :
  exists k log0,
    Parents (last (map tipset_at [9; 8; 7; 6]) (tipset_at 9)) = Ok k /\ k <> []
    /\ GetTipSet (linear_store 9) k
       = Ok (value (mkIter (linear_store 9) (tipset_at 5) false))
    /\ [[8%N]; [7%N]; [6%N]; [5%N]] = log0 ++ [k]
    /\ GetRecentAncestors_any (fun it => mkIter (store it) (value it) true)
         20 (tipset_at 9) (linear_store 9) 9 3 2 []
       = (res_map (app (map tipset_at [9; 8; 7; 6]))
            (fst (with_iterator
                    (IterAncestors (linear_store 9)
                       (value (mkIter (linear_store 9) (tipset_at 5) false)))
                    (CollectAtMostNTipSets_any
                       (fun it => mkIter (store it) (value it) true) 2)
                    ([[8%N]; [7%N]; [6%N]; [5%N]] ++ [k]))),
          snd (with_iterator
                 (IterAncestors (linear_store 9)
                    (value (mkIter (linear_store 9) (tipset_at 5) false)))
                 (CollectAtMostNTipSets_any
                    (fun it => mkIter (store it) (value it) true) 2)
                 ([[8%N]; [7%N]; [6%N]; [5%N]] ++ [k]))).
Proof.
  apply (GetRecentAncestors_lookback_base_read_twice
           (fun it => mkIter (store it) (value it) true)
           20 (tipset_at 9) (linear_store 9) 9 3 2 [] [[8%N]; [7%N]; [6%N]; [5%N]]
           (map tipset_at [9; 8; 7; 6]) (mkIter (linear_store 9) (tipset_at 5) false)).
  - reflexivity.
  - vm_compute. reflexivity.
  - discriminate.
  - reflexivity.
Defined.
